(** * Chess referee: rule engine and turn orchestrator

    A shallow embedding of [ChessValidator] (engines/chessValidator.js),
    of the game-state store (store/gameStateStore.js) and of the
    orchestrator hook (hooks/useAIOrchestrator.js), followed by the
    properties established about them.

    Conventions of the embedding:
    - JavaScript strings are [string]s of 8-bit characters; the FEN alphabet
      and the move notation are ASCII.
    - Board coordinates are integers ([Z]): [rank] 0 is the eighth rank,
      [file] 0 is the a-file, as in the source.
    - A number that holds an integer is that integer ([Z]); [2 ^ 1024]
      stands for [Infinity].  Reading a numeral rounds to the nearest
      number ([toNumber]) and printing writes the shortest digits that
      read back as the number ([show_Z]), in exponent form from 10^21 on,
      as JavaScript does; [NaN] is [None] where [parseInt] may produce it.
      Counting a move ([+ 1]) is the addition of integers: the counters
      of a game stay far below 2^53, where the two agree.
    - The validator object is a record; a method that mutates [this]
      returns the new record. *)

From Stdlib Require Import ZArith List Bool Ascii String Lia.
From Stdlib Require Import DecimalString DecimalZ.
Import ListNotations.

Local Open Scope string_scope.
Local Open Scope list_scope.
Local Open Scope Z_scope.

(** ** Pieces, squares and boards *)

Inductive Color : Type := White | Black.

(** [piece.color] is one of the two strings ['white'] and ['black']. *)
Definition color_name (c : Color) : string :=
  match c with White => "white" | Black => "black" end.

(** [{ type, color }]: [type] is the lower-cased FEN letter. *)
Record Piece : Type := mkPiece { ptype : ascii; pcolor : Color }.

Definition Row : Type := list (option Piece).
Definition Board : Type := list Row.

(** A square is the pair [[rank, file]]. *)
Definition Square : Type := (Z * Z)%type.

Record Move : Type := mkMove { from : Square; to : Square }.

Definition FILES : list string := ["a"; "b"; "c"; "d"; "e"; "f"; "g"; "h"].
Definition RANKS : list string := ["8"; "7"; "6"; "5"; "4"; "3"; "2"; "1"].

(** [arr[i]] for an array of strings; [None] is [undefined]. *)
Definition at_index (arr : list string) (i : Z) : option string :=
  if i <? 0 then None else nth_error arr (Z.to_nat i).

(** A value inside a template literal: [undefined] prints as such. *)
Definition show_str (o : option string) : string :=
  match o with Some s => s | None => "undefined" end.

(** [`${FILES[file]}${RANKS[rank]}`] *)
Definition squareName (rank file : Z) : string :=
  (show_str (at_index FILES file) ++ show_str (at_index RANKS rank))%string.

(** [arr.indexOf(x)] *)
Fixpoint indexOf_from (arr : list string) (x : string) (i : Z) : Z :=
  match arr with
  | [] => -1
  | y :: rest => if String.eqb y x then i else indexOf_from rest x (i + 1)
  end.

Definition indexOf (arr : list string) (x : string) : Z := indexOf_from arr x 0.

(** The indices of both loops [for (let i = 0; i < 8; i++)]. *)
Definition range8 : list Z := [0; 1; 2; 3; 4; 5; 6; 7].

(** [board[rank]]; the validator only reads ranks 0..7, outside of which
    the JavaScript expression has no row to index (modelled as an empty
    row). *)
Definition row_at (board : Board) (rank : Z) : Row :=
  if rank <? 0 then [] else nth (Z.to_nat rank) board [].

(** [board[rank][file]]; [None] is an empty square ([null], or a hole). *)
Definition cell (board : Board) (rank file : Z) : option Piece :=
  if file <? 0 then None else nth (Z.to_nat file) (row_at board rank) None.

(** [row[n] = x] on a JavaScript array: a write past the end extends the
    row, the squares in between stay empty. *)
Fixpoint set_nth (n : nat) (x : option Piece) (row : Row) : Row :=
  match n, row with
  | O, [] => [x]
  | O, _ :: t => x :: t
  | S k, [] => None :: set_nth k x []
  | S k, h :: t => h :: set_nth k x t
  end.

Fixpoint upd_row (n : nat) (f : Row -> Row) (board : Board) : Board :=
  match n, board with
  | _, [] => []
  | O, r :: t => f r :: t
  | S k, r :: t => r :: upd_row k f t
  end.

(** [board[rank][file] = x] for a rank of the board.  Off the board the
    assignment raises in JavaScript: [parseFen_loop] tests the rank before
    it writes, and the moves the validator builds stay on the board. *)
Definition set_cell (board : Board) (rank file : Z) (x : option Piece) : Board :=
  if (rank <? 0) || (file <? 0) then board
  else upd_row (Z.to_nat rank) (set_nth (Z.to_nat file) x) board.

(** ** Moving a piece on a copy of the board *)

Definition makeMoveOnBoard (board : Board) (move : Move) : Board :=
  let '(fromRank, fromFile) := from move in
  let '(toRank, toFile) := to move in
  let piece := cell board fromRank fromFile in
  set_cell (set_cell board toRank toFile piece) fromRank fromFile None.

(** ** Pseudo-legal moves *)

(** The [while] loop of [isPathClear].  Every call is guarded by a test that
    the two squares share a rank, a file or a diagonal, so the loop ends
    within seven steps; [fuel] bounds it, and eight is enough
    ([isPathClear_fuel] below). *)
Fixpoint isPathClear_loop (fuel : nat) (board : Board)
    (r c dr dc toRank toFile : Z) : bool :=
  match fuel with
  | O => false
  | S k =>
      if (r =? toRank) && (c =? toFile) then true
      else match cell board r c with
           | Some _ => false
           | None => isPathClear_loop k board (r + dr) (c + dc) dr dc toRank toFile
           end
  end.

Definition isPathClear (board : Board) (fromSquare toSquare : Square) : bool :=
  let '(fromRank, fromFile) := fromSquare in
  let '(toRank, toFile) := toSquare in
  let dr := Z.sgn (toRank - fromRank) in
  let dc := Z.sgn (toFile - fromFile) in
  isPathClear_loop 8 board (fromRank + dr) (fromFile + dc) dr dc toRank toFile.

Definition is_empty (o : option Piece) : bool :=
  match o with None => true | Some _ => false end.

Definition color_eqb (a b : Color) : bool :=
  match a, b with White, White | Black, Black => true | _, _ => false end.

(** [isPseudoLegalMove] reads [this.board] and [this.enPassant]; both are
    arguments here. *)
Definition isPseudoLegalMove (board : Board) (enPassant : string)
    (piece : Piece) (fromSquare toSquare : Square) : bool :=
  let '(fromRank, fromFile) := fromSquare in
  let '(toRank, toFile) := toSquare in
  let dr := toRank - fromRank in
  let dc := toFile - fromFile in
  let absDr := Z.abs dr in
  let absDc := Z.abs dc in
  if Ascii.eqb (ptype piece) "p" then
    let direction := match pcolor piece with White => -1 | Black => 1 end in
    let startRank := match pcolor piece with White => 6 | Black => 1 end in
    if (dc =? 0)
       && ((dr =? direction) && is_empty (cell board toRank toFile)
           || (dr =? 2 * direction) && (fromRank =? startRank)
              && is_empty (cell board (fromRank + direction) fromFile)
              && is_empty (cell board toRank toFile))
    then true
    else if (absDc =? 1) && (dr =? direction) then
      if match cell board toRank toFile with
         | Some target => negb (color_eqb (pcolor target) (pcolor piece))
         | None => false
         end
      then true
      else negb (String.eqb enPassant EmptyString)
           && String.eqb enPassant (squareName toRank toFile)
    else false
  else if Ascii.eqb (ptype piece) "n" then
    (absDr =? 2) && (absDc =? 1) || (absDr =? 1) && (absDc =? 2)
  else if Ascii.eqb (ptype piece) "b" then
    (absDr =? absDc) && isPathClear board fromSquare toSquare
  else if Ascii.eqb (ptype piece) "r" then
    ((dr =? 0) || (dc =? 0)) && isPathClear board fromSquare toSquare
  else if Ascii.eqb (ptype piece) "q" then
    ((absDr =? absDc) || ((dr =? 0) || (dc =? 0)))
    && isPathClear board fromSquare toSquare
  else if Ascii.eqb (ptype piece) "k" then
    (absDr <=? 1) && (absDc <=? 1)
  else false.

(** ** Strings as the validator uses them *)

(** [s.split(sep)] for a one-character separator. *)
Fixpoint split_on (sep : ascii) (s : string) : list string :=
  match s with
  | EmptyString => [EmptyString]
  | String ch rest =>
      if Ascii.eqb ch sep then EmptyString :: split_on sep rest
      else match split_on sep rest with
           | [] => [String ch EmptyString]
           | w :: ws => String ch w :: ws
           end
  end.

(** [parts.join(sep)] *)
Fixpoint join_with (sep : string) (parts : list string) : string :=
  match parts with
  | [] => EmptyString
  | [p] => p
  | p :: rest => (p ++ sep ++ join_with sep rest)%string
  end.

(** [s.includes(ch)] for a one-character needle. *)
Fixpoint includes (s : string) (ch : ascii) : bool :=
  match s with
  | EmptyString => false
  | String c rest => Ascii.eqb c ch || includes rest ch
  end.

(** [s.replace(/[ab]/g, '')]: drop every occurrence of two characters. *)
Fixpoint remove_all (a b : ascii) (s : string) : string :=
  match s with
  | EmptyString => EmptyString
  | String c rest =>
      if Ascii.eqb c a || Ascii.eqb c b then remove_all a b rest
      else String c (remove_all a b rest)
  end.

(** [s.replace('a', '')]: drop the first occurrence of one character. *)
Fixpoint remove_first (a : ascii) (s : string) : string :=
  match s with
  | EmptyString => EmptyString
  | String c rest => if Ascii.eqb c a then rest else String c (remove_first a rest)
  end.

Definition is_upper (ch : ascii) : bool :=
  let n := nat_of_ascii ch in (65 <=? n)%nat && (n <=? 90)%nat.

Definition is_lower (ch : ascii) : bool :=
  let n := nat_of_ascii ch in (97 <=? n)%nat && (n <=? 122)%nat.

Definition is_digit (ch : ascii) : bool :=
  let n := nat_of_ascii ch in (48 <=? n)%nat && (n <=? 57)%nat.

Definition toUpperCase (ch : ascii) : ascii :=
  if is_lower ch then ascii_of_nat (nat_of_ascii ch - 32) else ch.

Definition toLowerCase (ch : ascii) : ascii :=
  if is_upper ch then ascii_of_nat (nat_of_ascii ch + 32) else ch.

(** [parseInt(ch)] for a character that [/\d/] accepts. *)
Definition digit_value (ch : ascii) : Z := Z.of_nat (nat_of_ascii ch - 48).

(** White space that [parseInt] skips (tab, line feed, vertical tab, form
    feed, carriage return, space). *)
Definition is_space (ch : ascii) : bool :=
  let n := nat_of_ascii ch in ((9 <=? n)%nat && (n <=? 13)%nat) || (n =? 32)%nat.

Fixpoint skip_spaces (s : string) : string :=
  match s with
  | String ch rest => if is_space ch then skip_spaces rest else s
  | EmptyString => s
  end.

(** The longest prefix of decimal digits. *)
Fixpoint digits_prefix (s : string) : string :=
  match s with
  | String ch rest => if is_digit ch then String ch (digits_prefix rest) else EmptyString
  | EmptyString => EmptyString
  end.

(** The value of a non-empty string of decimal digits. *)
Definition digits_value (ds : string) : option Z :=
  match DecimalString.NilZero.uint_of_string ds with
  | Some d => Some (Z.of_uint d)
  | None => None
  end.

Definition hex_digit (ch : ascii) : option Z :=
  let n := nat_of_ascii ch in
  if is_digit ch then Some (Z.of_nat (n - 48))
  else if (65 <=? n)%nat && (n <=? 70)%nat then Some (Z.of_nat (n - 55))
  else if (97 <=? n)%nat && (n <=? 102)%nat then Some (Z.of_nat (n - 87))
  else None.

Fixpoint hex_value (s : string) (acc : option Z) : option Z :=
  match s with
  | String ch rest =>
      match hex_digit ch with
      | Some v => hex_value rest (Some (match acc with Some a => 16 * a + v | None => v end))
      | None => acc
      end
  | EmptyString => acc
  end.

(** The prefix [0x] or [0X], which makes [parseInt] read base sixteen. *)
Definition has_hex_prefix (s : string) : bool :=
  match s with
  | String a (String b _) => Ascii.eqb a "0" && (Ascii.eqb b "x" || Ascii.eqb b "X")
  | _ => false
  end.

Definition drop2 (s : string) : string :=
  match s with
  | String _ (String _ rest) => rest
  | _ => EmptyString
  end.

(** The largest integer below which every integer is a number. *)
Definition MAX_SAFE_INTEGER : Z := 2 ^ 53 - 1.

(** [Infinity], as an integer past the largest finite number. *)
Definition INFINITY : Z := 2 ^ 1024.

(** The number nearest to an integer: 53 significant bits, a tie goes to
    the even significand, and what rounds past the largest finite number
    is [Infinity]. *)
Definition toNumber (n : Z) : Z :=
  let a := Z.abs n in
  if a <? 2 ^ 53 then n
  else
    let e := Z.log2 a - 52 in
    let q := a / 2 ^ e in
    let r := a mod 2 ^ e in
    let half := 2 ^ (e - 1) in
    let q' := if (half <? r) || ((r =? half) && Z.odd q) then q + 1 else q in
    Z.sgn n * Z.min (q' * 2 ^ e) INFINITY.

(** [parseInt(s)] without a radix: leading white space and a sign are
    skipped, a [0x] prefix selects base sixteen, the longest run of digits
    is read, and the integer read is rounded to a number; [None] is
    [NaN].  (Past twenty significant digits the language lets an
    implementation read the later digits as zeros; the properties below
    read numerals of at most sixteen digits.) *)
Definition parseInt_unsigned (s : string) : option Z :=
  if has_hex_prefix s then hex_value (drop2 s) None
  else match digits_prefix s with
       | EmptyString => None
       | ds => digits_value ds
       end.

Definition parseInt (s : string) : option Z :=
  option_map toNumber
    match skip_spaces s with
    | String "-" rest => option_map Z.opp (parseInt_unsigned rest)
    | String "+" rest => parseInt_unsigned rest
    | t => parseInt_unsigned t
    end.

(** [parseInt(parts[i])]: [parseInt(undefined)] is [NaN]. *)
Definition parseInt_opt (o : option string) : option Z :=
  match o with Some s => parseInt s | None => None end.

(** [n || d] for a number: [NaN] and [0] are falsy. *)
Definition num_or (o : option Z) (d : Z) : Z :=
  match o with
  | Some n => if n =? 0 then d else n
  | None => d
  end.

(** [s || d] for a string that may be [undefined]: the empty string is
    falsy. *)
Definition str_or (o : option string) (d : string) : string :=
  match o with
  | Some EmptyString => d
  | Some s => s
  | None => d
  end.

(** The decimal numeral of an integer. *)
Definition decimal (n : Z) : string :=
  DecimalString.NilZero.string_of_int (Z.to_int n).

(** The count [N] of decimal digits of a positive integer:
    [10 ^ (N - 1) <= d < 10 ^ N]. *)
Fixpoint digitCount_from (fuel : nat) (d N : Z) : Z :=
  match fuel with
  | O => N
  | S k => if d <? 10 ^ N then N else digitCount_from k d (N + 1)
  end.

Definition digitCount (d : Z) : Z := digitCount_from 310 d 1.

(** The search of [Number::toString] for the shortest digits: the least
    [k] for which some [s] of [k] digits has [s * 10 ^ (N - k)] read back
    as [d]; of two such [s] the one nearer to [d], and the even one when
    they are as near.  The answer is the pair [(s, k)]. *)
Fixpoint shortestDigits (fuel : nat) (d N k : Z) : Z * Z :=
  match fuel with
  | O => (d, N)
  | S rest =>
      let unit := 10 ^ (N - k) in
      let low := d / unit in
      let high := low + 1 in
      let lowReads := toNumber (low * unit) =? d in
      let highReads := (high <? 10 ^ k) && (toNumber (high * unit) =? d) in
      if lowReads && highReads then
        if d - low * unit <? high * unit - d then (low, k)
        else if high * unit - d <? d - low * unit then (high, k)
        else if Z.even low then (low, k) else (high, k)
      else if lowReads then (low, k)
      else if highReads then (high, k)
      else shortestDigits rest d N (k + 1)
  end.

(** The digits [s] and the decimal exponent [n] written out: the integer
    [s * 10 ^ (n - k)] in full when [n <= 21], that is below [10 ^ 21],
    and otherwise the first digit, a point before the other digits if
    there are any, and [e+] with [n - 1]. *)
Definition writeDigits (s k n : Z) : string :=
  if s * 10 ^ (n - k) <? 10 ^ 21 then decimal (s * 10 ^ (n - k))
  else
    match decimal s with
    | String first EmptyString =>
        String first ("e+" ++ decimal (n - 1))%string
    | String first others =>
        String first ("." ++ others ++ "e+" ++ decimal (n - 1))%string
    | EmptyString => EmptyString
    end.

(** [Number::toString] for a positive number that holds an integer. *)
Definition showPositive (d : Z) : string :=
  if INFINITY <=? d then "Infinity"
  else
    let N := digitCount d in
    if toNumber (10 ^ N) =? d then writeDigits 1 1 (N + 1)
    else
      let '(s, k) := shortestDigits (Z.to_nat N) d N 1 in
      writeDigits s k N.

(** A number inside a template literal or appended to a string. *)
Definition show_Z (n : Z) : string :=
  let x := toNumber n in
  if x =? 0 then "0"
  else if x <? 0 then ("-" ++ showPositive (- x))%string
  else showPositive x.

(** ** The validator object *)

Record Validator : Type := mkValidator {
  fen : string;
  board : Board;
  turn : string;
  castling : string;
  enPassant : string;
  halfMoveClock : Z;
  fullMoveNumber : Z
}.

(** [Array(8).fill(null).map(() => Array(8).fill(null))] *)
Definition emptyBoard : Board := repeat (repeat None 8%nat) 8%nat.

(** The piece a FEN letter stands for. *)
Definition pieceOfChar (ch : ascii) : Piece :=
  mkPiece (toLowerCase ch)
          (if Ascii.eqb ch (toUpperCase ch) then White else Black).

(** The FEN letter of a piece. *)
Definition charOfPiece (p : Piece) : ascii :=
  let char := toUpperCase (ptype p) in
  match pcolor p with White => char | Black => toLowerCase char end.

(** The [for ... of] loop of [parseFen].  Writing a piece on a rank past
    the eighth raises a [TypeError] ([None]). *)
Fixpoint parseFen_loop (position : string) (b : Board) (rank file : Z)
    : option Board :=
  match position with
  | EmptyString => Some b
  | String ch rest =>
      if Ascii.eqb ch "/" then parseFen_loop rest b (rank + 1) 0
      else if is_digit ch then parseFen_loop rest b rank (file + digit_value ch)
      else if rank <? 8
           then parseFen_loop rest (set_cell b rank file (Some (pieceOfChar ch)))
                              rank (file + 1)
           else None
  end.

Definition parseFen (fenString : string) : option Board :=
  let parts := split_on " " fenString in
  let position := nth 0 parts EmptyString in
  parseFen_loop position emptyBoard 0 0.

(** [parseFenState] sets five fields of [this]. *)
Definition parseFenState (v : Validator) (fenString : string) : Validator :=
  let parts := split_on " " fenString in
  mkValidator (fen v) (board v)
    (str_or (nth_error parts 1) "w")
    (str_or (nth_error parts 2) "KQkq")
    (str_or (nth_error parts 3) "-")
    (num_or (parseInt_opt (nth_error parts 4)) 0)
    (num_or (parseInt_opt (nth_error parts 5)) 1).

Definition INITIAL_FEN : string :=
  "rnbqkbnr/pppppppp/8/8/8/8/PPPPPPPP/RNBQKBNR w KQkq - 0 1".

(** [new ChessValidator(fen)]; [None] when [parseFen] throws. *)
Definition newValidator (fenString : string) : option Validator :=
  match parseFen fenString with
  | Some b => Some (parseFenState (mkValidator fenString b EmptyString EmptyString EmptyString 0 0) fenString)
  | None => None
  end.

(** [if (empty > 0) fen += empty] *)
Definition flushEmpty (empty : Z) : string :=
  if 0 <? empty then show_Z empty else EmptyString.

(** One pass of the inner loop of [boardToFen] over the squares of a rank,
    with the count [empty] of empty squares not yet written. *)
Fixpoint fenRank (cells : list (option Piece)) (empty : Z) : string :=
  match cells with
  | [] => flushEmpty empty
  | None :: rest => fenRank rest (empty + 1)
  | Some piece :: rest =>
      (flushEmpty empty ++ String (charOfPiece piece) (fenRank rest 0))%string
  end.

Fixpoint fenRanks (b : Board) (ranks : list Z) : string :=
  match ranks with
  | [] => EmptyString
  | rank :: rest =>
      (fenRank (map (cell b rank) range8) 0
       ++ (if (rank <? 7)%Z then "/" else EmptyString)
       ++ fenRanks b rest)%string
  end.

Definition boardToFen (b : Board) (turn castling enPassant : string)
    (halfMoveClock fullMoveNumber : Z) : string :=
  (fenRanks b range8 ++ " " ++ turn ++ " " ++ castling ++ " " ++ enPassant
   ++ " " ++ show_Z halfMoveClock ++ " " ++ show_Z fullMoveNumber)%string.

Definition serialize (v : Validator) : string :=
  boardToFen (board v) (turn v) (castling v) (enPassant v)
             (halfMoveClock v) (fullMoveNumber v).

(** ** Move notation *)

Inductive CastleSide : Type := Kingside | Queenside.

(** The object [parseSan] returns for a move that is not castling. *)
Record ParsedMove : Type := mkParsed {
  piece : ascii;
  fromFile : option ascii;
  fromRank : option ascii;
  isCapture : bool;
  toFile : ascii;
  toRank : ascii;
  promotion : option ascii
}.

Inductive Parsed : Type :=
| PCastling (side : CastleSide)
| PMove (p : ParsedMove).

(** The character classes of the pattern, under the [i] flag. *)
Definition isPieceLetter (ch : ascii) : bool := includes "kqrbn" (toLowerCase ch).

Definition isFileLetter (ch : ascii) : bool :=
  let n := nat_of_ascii (toLowerCase ch) in (97 <=? n)%nat && (n <=? 104)%nat.

Definition isRankDigit (ch : ascii) : bool :=
  let n := nat_of_ascii ch in (49 <=? n)%nat && (n <=? 56)%nat.

Definition isCaptureMark (ch : ascii) : bool := Ascii.eqb (toLowerCase ch) "x".

(** The class [[QRBN]] of the promotion group: no king. *)
Definition isPromotionLetter (ch : ascii) : bool := includes "qrbn" (toLowerCase ch).

(** An optional one-character group [(c)?]: greedy, with backtracking into
    the empty alternative when the rest of the pattern fails. *)
Definition opt_char {A : Type} (ok : ascii -> bool)
    (k : option ascii -> string -> option A) (s : string) : option A :=
  match s with
  | String ch rest =>
      if ok ch then
        match k (Some ch) rest with
        | Some r => Some r
        | None => k None s
        end
      else k None s
  | EmptyString => k None s
  end.

(** A mandatory one-character group. *)
Definition one_char {A : Type} (ok : ascii -> bool)
    (k : ascii -> string -> option A) (s : string) : option A :=
  match s with
  | String ch rest => if ok ch then k ch rest else None
  | EmptyString => None
  end.

(** The optional group [(=[QRBN])?]. *)
Definition opt_promotion {A : Type}
    (k : option ascii -> string -> option A) (s : string) : option A :=
  match s with
  | String "=" (String ch rest) =>
      if isPromotionLetter ch then
        match k (Some ch) rest with
        | Some r => Some r
        | None => k None s
        end
      else k None s
  | _ => k None s
  end.

(** [$] *)
Definition at_end {A : Type} (r : A) (s : string) : option A :=
  match s with EmptyString => Some r | _ => None end.

(** [/^([KQRBN])?([a-h])?([1-8])?(x)?([a-h])([1-8])(=[QRBN])?$/i] and the
    object built from its groups. *)
Definition matchSan (san : string) : option ParsedMove :=
  opt_char isPieceLetter (fun g1 =>
  opt_char isFileLetter (fun g2 =>
  opt_char isRankDigit (fun g3 =>
  opt_char isCaptureMark (fun g4 =>
  one_char isFileLetter (fun g5 =>
  one_char isRankDigit (fun g6 =>
  opt_promotion (fun g7 =>
  at_end (mkParsed
            (toLowerCase (match g1 with Some ch => ch | None => "p"%char end))
            g2 g3
            (match g4 with Some _ => true | None => false end)
            g5 g6
            (option_map toLowerCase g7))))))))) san.

Definition parseSan (san : string) : option Parsed :=
  if String.eqb san "O-O" then Some (PCastling Kingside)
  else if String.eqb san "O-O-O" then Some (PCastling Queenside)
  else option_map PMove (matchSan san).

(** ** Attacks and check *)

Definition char_str (ch : ascii) : string := String ch EmptyString.

(** [piece.color === color] for a colour given as a string. *)
Definition hasColor (p : Piece) (color : string) : bool :=
  String.eqb (color_name (pcolor p)) color.

(** [color === 'white' ? 'black' : 'white'] *)
Definition otherColor (color : string) : string :=
  if String.eqb color "white" then "black" else "white".

(** The squares in the order of the two nested loops. *)
Definition allSquares : list Square :=
  flat_map (fun r => map (fun f => (r, f)) range8) range8.

Definition isSquareAttacked (b : Board) (ep : string) (square : Square)
    (byColor : string) : bool :=
  existsb (fun sq =>
    match cell b (fst sq) (snd sq) with
    | Some p => hasColor p byColor && isPseudoLegalMove b ep p sq square
    | None => false
    end) allSquares.

Definition findKingOnBoard (color : string) (b : Board) : option Square :=
  find (fun sq =>
    match cell b (fst sq) (snd sq) with
    | Some p => Ascii.eqb (ptype p) "k" && hasColor p color
    | None => false
    end) allSquares.

(** [isKingInCheck(color, board)]: the method swaps [this.board] for
    [board] while it scans and restores it; [this.enPassant] is read as it
    is. *)
Definition isKingInCheck (ep : string) (color : string) (b : Board) : bool :=
  match findKingOnBoard color b with
  | None => false
  | Some kingPos => isSquareAttacked b ep kingPos (otherColor color)
  end.

(** ** Validating and applying a move *)

(** What [validateMove] returns: [{ valid: false, error }], the object for
    an accepted move, or the object for an accepted castling. *)
Inductive Validation : Type :=
| Invalid (error : string)
| ValidMove (move : Move) (capture : bool) (promo : option ascii)
| ValidCastling (move : Move) (side : CastleSide).

Definition valid (r : Validation) : bool :=
  match r with Invalid _ => false | _ => true end.

Definition sideName (side : CastleSide) : string :=
  match side with Kingside => "kingside" | Queenside => "queenside" end.

Definition option_eqb_char (o : option ascii) (s : option string) : bool :=
  match o, s with
  | Some ch, Some t => String.eqb t (char_str ch)
  | _, _ => false
  end.

(** The scan of [findPieceMove]: the squares whose piece has the type and
    the colour asked for, fits the hints, reaches the target and leaves the
    king out of check. *)
Definition candidateMoves (v : Validator) (pieceType : ascii)
    (hintFile hintRank : option ascii) (toSquare : Square) : list Move :=
  flat_map (fun sq =>
    match cell (board v) (fst sq) (snd sq) with
    | None => []
    | Some p =>
        if negb (Ascii.eqb (ptype p) pieceType && hasColor p (turn v)) then []
        else if match hintFile with
                | Some _ => negb (option_eqb_char hintFile (at_index FILES (snd sq)))
                | None => false
                end then []
        else if match hintRank with
                | Some _ => negb (option_eqb_char hintRank (at_index RANKS (fst sq)))
                | None => false
                end then []
        else if isPseudoLegalMove (board v) (enPassant v) p sq toSquare
                && negb (isKingInCheck (enPassant v) (turn v)
                           (makeMoveOnBoard (board v) (mkMove sq toSquare)))
             then [mkMove sq toSquare]
             else []
    end) allSquares.

Definition findPieceMove (v : Validator) (pieceType : ascii)
    (hintFile hintRank : option ascii) (toSquare : Square) : option Move :=
  match candidateMoves v pieceType hintFile hintRank toSquare with
  | [] => None
  | [m] => Some m
  | m :: rest =>
      match hintFile, hintRank with
      | Some _, Some _ =>
          find (fun c =>
                  option_eqb_char hintFile (at_index FILES (snd (from c)))
                  && option_eqb_char hintRank (at_index RANKS (fst (from c))))
               (m :: rest)
      | _, _ => Some m
      end
  end.

(** [updateCastlingRights] reads [this.board], which [applyMove] has
    already replaced by the board after the move. *)
Definition updateCastlingRights (b : Board) (rights : string) (move : Move)
    : string :=
  let '(fromRank_, fromFile_) := from move in
  match cell b fromRank_ fromFile_ with
  | None => rights
  | Some p =>
      let c1 :=
        if Ascii.eqb (ptype p) "k" then
          match pcolor p with
          | White => remove_all "K" "Q" rights
          | Black => remove_all "k" "q" rights
          end
        else rights in
      if Ascii.eqb (ptype p) "r" || Ascii.eqb (ptype p) "R" then
        let c2 := if (fromRank_ =? 7) && (fromFile_ =? 0) then remove_first "Q" c1 else c1 in
        let c3 := if (fromRank_ =? 7) && (fromFile_ =? 7) then remove_first "K" c2 else c2 in
        let c4 := if (fromRank_ =? 0) && (fromFile_ =? 0) then remove_first "q" c3 else c3 in
        if (fromRank_ =? 0) && (fromFile_ =? 7) then remove_first "k" c4 else c4
      else c1
  end.

(** [updateEnPassant] reads [this.board] after the move as well. *)
Definition updateEnPassant (b : Board) (move : Move) : string :=
  let '(fromRank_, fromFile_) := from move in
  match cell b fromRank_ fromFile_ with
  | Some p =>
      if Ascii.eqb (ptype p) "p" && (Z.abs (fst (to move) - fromRank_) =? 2)
      then (show_str (at_index FILES (snd (to move)))
            ++ show_str (at_index RANKS ((fromRank_ + fst (to move)) / 2)))%string
      else "-"
  | None => "-"
  end.

Definition applyMove (v : Validator) (move : Move) : Validator :=
  let board1 := makeMoveOnBoard (board v) move in
  let castling1 := updateCastlingRights board1 (castling v) move in
  let enPassant1 := updateEnPassant board1 move in
  let turn1 := if String.eqb (turn v) "white" then "black" else "white" in
  let fullMoveNumber1 :=
    if String.eqb turn1 "white" then fullMoveNumber v + 1 else fullMoveNumber v in
  mkValidator
    (boardToFen board1 turn1 castling1 enPassant1 (halfMoveClock v) fullMoveNumber1)
    board1 turn1 castling1 enPassant1 (halfMoveClock v) fullMoveNumber1.

Definition validateCastling (v : Validator) (side : CastleSide) : Validation :=
  let rank := if String.eqb (turn v) "white" then 7 else 0 in
  let kingFile := 4 in
  let castlingChar : ascii :=
    if String.eqb (turn v) "white"
    then match side with Kingside => "K"%char | Queenside => "Q"%char end
    else match side with Kingside => "k"%char | Queenside => "q"%char end in
  if negb (includes (castling v) castlingChar) then
    Invalid ("Castling " ++ sideName side ++ " not available")%string
  else if isKingInCheck (enPassant v) (turn v) (board v) then
    Invalid "Cannot castle while in check"
  else
    let kingDestFile := match side with Kingside => 6 | Queenside => 2 end in
    let rookFile := match side with Kingside => 7 | Queenside => 0 end in
    if existsb (fun f => (Z.min kingFile rookFile + 1 <=? f)
                         && (f <? Z.max kingFile rookFile)
                         && negb (is_empty (cell (board v) rank f))) range8
    then Invalid "Castling path is blocked"
    else
      let move := mkMove (rank, kingFile) (rank, kingDestFile) in
      let intermediateBoard :=
        makeMoveOnBoard (board v)
          (mkMove (rank, kingFile)
                  (rank, kingFile + match side with Kingside => 1 | Queenside => -1 end)) in
      if isKingInCheck (enPassant v) (turn v) intermediateBoard then
        Invalid "Cannot castle through check"
      else ValidCastling move side.

Definition dquote : string := String (ascii_of_nat 34) EmptyString.

(** [validateMove] returns its verdict and, for an accepted move that is
    not castling, leaves [this] updated by [applyMove]. *)
Definition validateMove (v : Validator) (san : string) : Validation * Validator :=
  match parseSan san with
  | None =>
      (Invalid ("Invalid SAN notation: " ++ dquote ++ san ++ dquote
                ++ ". Expected format like e4, Nf3, O-O, exd5+")%string, v)
  | Some (PCastling side) => (validateCastling v side, v)
  | Some (PMove parsed) =>
      let toFileIndex := indexOf FILES (char_str (toFile parsed)) in
      let toRankIndex := indexOf RANKS (char_str (toRank parsed)) in
      let target := (char_str (toFile parsed) ++ char_str (toRank parsed))%string in
      if (toFileIndex =? -1) || (toRankIndex =? -1) then
        (Invalid ("Invalid target square: " ++ target)%string, v)
      else
        let targetSquare := (toRankIndex, toFileIndex) in
        let targetPiece := cell (board v) toRankIndex toFileIndex in
        if match targetPiece with
           | Some t => hasColor t (turn v)
           | None => false
           end
        then (Invalid ("Cannot capture your own piece on " ++ target)%string, v)
        else if isCapture parsed && is_empty targetPiece
                && (negb (Ascii.eqb (piece parsed) "p")
                    || negb (String.eqb (enPassant v) target))
        then (Invalid ("Move indicates capture but " ++ target ++ " is empty")%string, v)
        else
          match findPieceMove v (piece parsed) (fromFile parsed) (fromRank parsed)
                              targetSquare with
          | None =>
              (Invalid ("No legal move for " ++ char_str (piece parsed) ++ " to "
                        ++ target ++ " found")%string, v)
          | Some move =>
              let newBoard := makeMoveOnBoard (board v) move in
              if isKingInCheck (enPassant v) (turn v) newBoard then
                (Invalid "Illegal move: would leave your king in check", v)
              else
                (ValidMove move (negb (is_empty targetPiece)) (promotion parsed),
                 applyMove v move)
          end
  end.

(** ** Terminal conditions *)

(** The four nested loops shared by [isCheckmate], [isStalemate] and
    [getLegalMoves]: every pseudo-legal move of a piece of the side to move
    after which that side's king is not in check, in scan order. *)
Definition safeMoves (v : Validator) : list Move :=
  flat_map (fun sq =>
    match cell (board v) (fst sq) (snd sq) with
    | None => []
    | Some p =>
        if negb (hasColor p (turn v)) then []
        else
          flat_map (fun target =>
            if isPseudoLegalMove (board v) (enPassant v) p sq target
               && negb (isKingInCheck (enPassant v) (turn v)
                          (makeMoveOnBoard (board v) (mkMove sq target)))
            then [mkMove sq target] else []) allSquares
    end) allSquares.

Definition isCheckmate (v : Validator) : bool :=
  if negb (isKingInCheck (enPassant v) (turn v) (board v)) then false
  else match safeMoves v with [] => true | _ :: _ => false end.

Definition isStalemate (v : Validator) : bool :=
  if isKingInCheck (enPassant v) (turn v) (board v) then false
  else match safeMoves v with [] => true | _ :: _ => false end.

(** The tallies of [isInsufficientMaterial] for one colour. *)
Record Material : Type := mkMaterial {
  count : Z;
  bishopsOnDark : Z;
  bishopsOnLight : Z
}.

Definition tally (b : Board) (c : Color) : Material :=
  fold_left (fun m sq =>
    match cell b (fst sq) (snd sq) with
    | None => m
    | Some p =>
        if Ascii.eqb (ptype p) "k" then m
        else if negb (color_eqb (pcolor p) c) then m
        else if Ascii.eqb (ptype p) "b" then
          if (fst sq + snd sq) mod 2 =? 1
          then mkMaterial (count m + 1) (bishopsOnDark m + 1) (bishopsOnLight m)
          else mkMaterial (count m + 1) (bishopsOnDark m) (bishopsOnLight m + 1)
        else mkMaterial (count m + 1) (bishopsOnDark m) (bishopsOnLight m)
    end) allSquares (mkMaterial 0 0 0).

Definition isInsufficientMaterial (v : Validator) : bool :=
  let white := tally (board v) White in
  let black := tally (board v) Black in
  if (count white =? 0) && (count black =? 0) then true
  else if (count white =? 1) && (count black =? 0)
          || (count white =? 0) && (count black =? 1) then true
  else if (0 <? count white) && (0 <? count black) then
    let whiteBishops := bishopsOnDark white + bishopsOnLight white in
    let blackBishops := bishopsOnDark black + bishopsOnLight black in
    if (0 <? whiteBishops) && (0 <? blackBishops) then
      let whiteOnlyDark := (0 <? bishopsOnDark white) && (bishopsOnLight white =? 0) in
      let whiteOnlyLight := (0 <? bishopsOnLight white) && (bishopsOnDark white =? 0) in
      let blackOnlyDark := (0 <? bishopsOnDark black) && (bishopsOnLight black =? 0) in
      let blackOnlyLight := (0 <? bishopsOnLight black) && (bishopsOnDark black =? 0) in
      whiteOnlyDark && blackOnlyDark || whiteOnlyLight && blackOnlyLight
    else false
  else false.

(** [f.split(' ').slice(0, 3).join(' ')] *)
Definition positionKey (fenString : string) : string :=
  join_with " " (firstn 3 (split_on " " fenString)).

Definition isThreefoldRepetition (v : Validator) (fenHistory : list string) : bool :=
  let currentPos := positionKey (fen v) in
  let positions := currentPos :: map positionKey fenHistory in
  let occurrences := List.length (filter (fun p => String.eqb p currentPos) positions) in
  (3 <=? occurrences)%nat.

Definition isFiftyMoveRule (v : Validator) : bool := 100 <=? halfMoveClock v.

(** What [getGameState] returns. *)
Inductive GameState : Type :=
| GameOver (result reason : string)
| InProgress (inCheck : bool).

Definition getGameState (v : Validator) (fenHistory : list string) : GameState :=
  if isCheckmate v then
    GameOver (if String.eqb (turn v) "white" then "black" else "white") "checkmate"
  else if isStalemate v then GameOver "draw" "stalemate"
  else if isInsufficientMaterial v then GameOver "draw" "insufficient_material"
  else if isThreefoldRepetition v fenHistory then GameOver "draw" "threefold_repetition"
  else if isFiftyMoveRule v then GameOver "draw" "fifty_move_rule"
  else InProgress (isKingInCheck (enPassant v) (turn v) (board v)).

(** [toSan] *)
Definition toSan (v : Validator) (move : Move) : string :=
  let '(fromRank_, fromFile_) := from move in
  let '(toRank_, toFile_) := to move in
  match cell (board v) fromRank_ fromFile_ with
  | None => EmptyString
  | Some p =>
      if Ascii.eqb (ptype p) "k" && (Z.abs (toFile_ - fromFile_) =? 2) then
        if fromFile_ <? toFile_ then "O-O" else "O-O-O"
      else
        ((if negb (Ascii.eqb (ptype p) "p") then char_str (toUpperCase (ptype p))
          else EmptyString)
         ++ (if Ascii.eqb (ptype p) "p" && negb (toFile_ =? fromFile_)%Z
             then show_str (at_index FILES fromFile_) else EmptyString)
         ++ (if is_empty (cell (board v) toRank_ toFile_) then EmptyString else "x")
         ++ show_str (at_index FILES toFile_) ++ show_str (at_index RANKS toRank_)
         ++ (if Ascii.eqb (ptype p) "p" && ((toRank_ =? 0) || (toRank_ =? 7))%Z
             then "=Q" else EmptyString))%string
  end.

Definition getLegalMoves (v : Validator) : list string :=
  map (toSan v) (safeMoves v).

(** ** The game-state store (store/gameStateStore.js) *)

Inductive GAME_STATUS : Type :=
| IDLE | RUNNING | PAUSED | ERROR | WAITING_DIRECTOR | GAME_OVER.

Definition status_eqb (a b : GAME_STATUS) : bool :=
  match a, b with
  | IDLE, IDLE | RUNNING, RUNNING | PAUSED, PAUSED | ERROR, ERROR
  | WAITING_DIRECTOR, WAITING_DIRECTOR | GAME_OVER, GAME_OVER => true
  | _, _ => false
  end.

Module Store.

Record HistoryEntry : Type := mkEntry {
  entryFen : string;
  entryTurn : string;
  entryMoveNumber : Z
}.

(** The fields of the store the orchestrator's code reads or writes. *)
Record State : Type := mkState {
  fen : string;
  turn : string;
  moveNumber : Z;
  fullMoveNumber : Z;
  status : GAME_STATUS;
  lastValidFen : string;
  gameResult : option GameState;
  stateHistory : list HistoryEntry
}.

Definition initial : State :=
  mkState INITIAL_FEN "white" 1 1 IDLE INITIAL_FEN None [].

(** The keys of the object the store hook returns: the twelve fields of
    the state and the nine actions. *)
Definition keys : list string :=
  ["fen"; "turn"; "moveNumber"; "castling"; "enPassant"; "halfMoveClock";
   "fullMoveNumber"; "status"; "lastValidFen"; "stateHash"; "gameResult";
   "stateHistory";
   "setGameState"; "resetGame"; "advanceTurn"; "setGameStatus";
   "setGameResult"; "rollback"; "directorSetFen"; "directorSetTurn";
   "directorSetMoveNumber"].

Definition hasKey (key : string) : bool := existsb (String.eqb key) keys.

(** [arr.slice(-n)] *)
Definition lastN {A : Type} (n : nat) (l : list A) : list A :=
  skipn (List.length l - n) l.

(** [setGameState({ fen, turn })] *)
Definition setGameState (s : State) (newFen newTurn : string) : State :=
  let history :=
    match newFen with
    | EmptyString => stateHistory s
    | _ =>
        if negb (String.eqb (lastValidFen s) newFen) then
          lastN 20 (stateHistory s
                    ++ [mkEntry newFen
                          (match newTurn with EmptyString => turn s | _ => newTurn end)
                          (moveNumber s)])
        else stateHistory s
    end in
  mkState newFen newTurn (moveNumber s) (fullMoveNumber s) (status s)
          (lastValidFen s) (gameResult s) history.

Definition advanceTurn (s : State) : State :=
  let nextTurn := if String.eqb (turn s) "white" then "black" else "white" in
  let white := String.eqb nextTurn "white" in
  mkState (fen s) nextTurn
          (if white then moveNumber s + 1 else moveNumber s)
          (if white then fullMoveNumber s + 1 else fullMoveNumber s)
          (status s) (lastValidFen s) (gameResult s) (stateHistory s).

Definition setGameStatus (s : State) (st : GAME_STATUS) : State :=
  mkState (fen s) (turn s) (moveNumber s) (fullMoveNumber s) st
          (lastValidFen s) (gameResult s) (stateHistory s).

Definition setGameResult (s : State) (r : GameState) : State :=
  mkState (fen s) (turn s) (moveNumber s) (fullMoveNumber s) GAME_OVER
          (lastValidFen s) (Some r) (stateHistory s).

Definition resetGame (s : State) : State := initial.

(** [arr.slice(0, e)]: a negative [e] counts from the end of the array. *)
Definition sliceTo {A : Type} (e : Z) (l : list A) : list A :=
  if e <? 0 then firstn (Z.to_nat (Z.max (Z.of_nat (List.length l) + e) 0)) l
  else firstn (Z.to_nat e) l.

(** [rollback(steps = 1)]: entries are objects, so [if (targetState)] tests
    that the index lies inside the history. *)
Definition rollback (s : State) (steps : Z) : State :=
  let history := stateHistory s in
  let len := Z.of_nat (List.length history) in
  if len <=? steps then resetGame s
  else
    match nth_error history (Z.to_nat (len - 1 - steps)) with
    | Some targetState =>
        mkState (entryFen targetState) (entryTurn targetState)
                (entryMoveNumber targetState) (fullMoveNumber s) (status s)
                (entryFen targetState) (gameResult s)
                (sliceTo (- steps) history)
    | None => s
    end.

(** [directorSetFen(fen)] *)
Definition directorSetFen (s : State) (newFen : string) : State :=
  mkState newFen (turn s) (moveNumber s) (fullMoveNumber s) (status s) newFen
          (gameResult s)
          (lastN 20 (stateHistory s ++ [mkEntry newFen (turn s) (moveNumber s)])).

Definition directorSetTurn (s : State) (newTurn : string) : State :=
  mkState (fen s) newTurn (moveNumber s) (fullMoveNumber s) (status s)
          (lastValidFen s) (gameResult s) (stateHistory s).

Definition directorSetMoveNumber (s : State) (n : Z) : State :=
  mkState (fen s) (turn s) n (fullMoveNumber s) (status s)
          (lastValidFen s) (gameResult s) (stateHistory s).

(** The actions of the store, and a store after one of them. *)
Inductive Action : Type :=
| SetGameState (newFen newTurn : string)
| ResetGame
| AdvanceTurn
| SetGameStatus (st : GAME_STATUS)
| SetGameResult (r : GameState)
| Rollback (steps : Z)
| DirectorSetFen (newFen : string)
| DirectorSetTurn (newTurn : string)
| DirectorSetMoveNumber (n : Z).

Definition act (s : State) (a : Action) : State :=
  match a with
  | SetGameState newFen newTurn => setGameState s newFen newTurn
  | ResetGame => resetGame s
  | AdvanceTurn => advanceTurn s
  | SetGameStatus st => setGameStatus s st
  | SetGameResult r => setGameResult s r
  | Rollback steps => rollback s steps
  | DirectorSetFen newFen => directorSetFen s newFen
  | DirectorSetTurn newTurn => directorSetTurn s newTurn
  | DirectorSetMoveNumber n => directorSetMoveNumber s n
  end.

End Store.

(** ** The battle-log store (store/battleLogStore.js) *)

Module BattleLog.

(** A log entry: its type is one of the strings of [LOG_TYPES], or any
    other string a caller passes; [player] is [null] by default.  The
    identifier and the time stamp of an entry play no part in what
    follows. *)
Record Entry : Type := mkEntry {
  type : string;
  content : string;
  player : option string
}.

Record Stats : Type := mkStats {
  totalMoves : Z;
  totalExchanges : Z;
  hallucinationsPlayer1 : Z;
  hallucinationsPlayer2 : Z;
  averageLatency : Z;
  totalTokens : Z
}.

Record State : Type := mkState {
  logs : list Entry;
  whisperStack : list Entry;
  trashHistory : list Entry;
  moveHistory : list Entry;
  stats : Stats
}.

Definition noStats : Stats := mkStats 0 0 0 0 0 0.

Definition initial : State := mkState [] [] [] [] noStats.

Definition hasType (t : string) (e : Entry) : bool := String.eqb (type e) t.

(** [addLog(type, content, player = null)]; the entry it returns is the
    last one of [logs]. *)
Definition addLog (s : State) (type_ content_ : string) (player_ : option string)
    : State :=
  let logEntry := mkEntry type_ content_ player_ in
  let newLogs := logs s ++ [logEntry] in
  if String.eqb type_ "thought" then
    mkState newLogs (Store.lastN 6 (whisperStack s ++ [logEntry]))
            (trashHistory s) (moveHistory s) (stats s)
  else if String.eqb type_ "trash" then
    mkState newLogs (whisperStack s)
            (Store.lastN 12 (trashHistory s ++ [logEntry])) (moveHistory s)
            (mkStats (totalMoves (stats s)) (totalExchanges (stats s) + 1)
                     (hallucinationsPlayer1 (stats s))
                     (hallucinationsPlayer2 (stats s))
                     (averageLatency (stats s)) (totalTokens (stats s)))
  else if String.eqb type_ "move" then
    mkState newLogs (whisperStack s) (trashHistory s)
            (Store.lastN 20 (moveHistory s ++ [logEntry]))
            (mkStats (totalMoves (stats s) + 1) (totalExchanges (stats s))
                     (hallucinationsPlayer1 (stats s))
                     (hallucinationsPlayer2 (stats s))
                     (averageLatency (stats s)) (totalTokens (stats s)))
  else if String.eqb type_ "hallucination" then
    let first :=
      match player_ with
      | Some name => String.eqb name "Player 1"
      | None => false
      end in
    mkState newLogs (whisperStack s) (trashHistory s) (moveHistory s)
            (mkStats (totalMoves (stats s)) (totalExchanges (stats s))
                     (if first then hallucinationsPlayer1 (stats s) + 1
                      else hallucinationsPlayer1 (stats s))
                     (if first then hallucinationsPlayer2 (stats s)
                      else hallucinationsPlayer2 (stats s) + 1)
                     (averageLatency (stats s)) (totalTokens (stats s)))
  else
    mkState newLogs (whisperStack s) (trashHistory s) (moveHistory s) (stats s).

(** One round of the [forEach] of [addLogs] on the three windows. *)
Definition pushWindows (w : list Entry * list Entry * list Entry) (log : Entry)
    : list Entry * list Entry * list Entry :=
  let '(whispers, trash, moves) := w in
  if String.eqb (type log) "thought" then
    (Store.lastN 6 (whispers ++ [log]), trash, moves)
  else if String.eqb (type log) "trash" then
    (whispers, Store.lastN 12 (trash ++ [log]), moves)
  else if String.eqb (type log) "move" then
    (whispers, trash, Store.lastN 20 (moves ++ [log]))
  else w.

(** [addLogs(logsArray)]: the statistics are not touched. *)
Definition addLogs (s : State) (logsArray : list Entry) : State :=
  let '(whispers, trash, moves) :=
    fold_left pushWindows logsArray
              (whisperStack s, trashHistory s, moveHistory s) in
  mkState (logs s ++ logsArray) whispers trash moves (stats s).

Definition clearLogs (s : State) : State := initial.

(** [directorLog(type, content)] *)
Definition directorLog (s : State) (type_ content_ : string) : State :=
  addLog s type_ content_ (Some "Director").

(** [types.includes(log.type)] *)
Definition ofTypes (types : list string) (e : Entry) : bool :=
  existsb (String.eqb (type e)) types.

(** [getFilteredLogs(filterTypes = null)]: an array, even an empty one,
    is a filter. *)
Definition getFilteredLogs (s : State) (filterTypes : option (list string))
    : list Entry :=
  match filterTypes with
  | None => logs s
  | Some types => filter (ofTypes types) (logs s)
  end.

(** [arr.slice(start)]: a negative [start] counts from the end of the
    array. *)
Definition sliceFrom {A : Type} (start : Z) (l : list A) : list A :=
  if start <? 0 then skipn (Z.to_nat (Z.max (Z.of_nat (List.length l) + start) 0)) l
  else skipn (Z.to_nat start) l.

(** [getRecentLogs(count = 12, types = null)] *)
Definition getRecentLogs (s : State) (count : Z) (types : option (list string))
    : list Entry :=
  sliceFrom (- count) (getFilteredLogs s types).

(** The actions that change the store. *)
Inductive Action : Type :=
| AddLog (type_ content_ : string) (player_ : option string)
| AddLogs (logsArray : list Entry)
| ClearLogs
| DirectorLog (type_ content_ : string).

Definition act (s : State) (a : Action) : State :=
  match a with
  | AddLog t c p => addLog s t c p
  | AddLogs l => addLogs s l
  | ClearLogs => clearLogs s
  | DirectorLog t c => directorLog s t c
  end.

(** The store after a sequence of [addLog] calls, one per entry. *)
Definition logged (entries : list Entry) : State :=
  fold_left (fun s e => addLog s (type e) (content e) (player e)) entries initial.

Definition countOf (p : Entry -> bool) (l : list Entry) : Z :=
  Z.of_nat (List.length (filter p l)).

Definition byPlayer1 (e : Entry) : bool :=
  match player e with Some name => String.eqb name "Player 1" | None => false end.

End BattleLog.

(** ** The context builder (memory/contextBuilder.js) *)

Module ContextBuilder.

Definition newline : string := String (ascii_of_nat 10) EmptyString.

(** [' '.repeat(n)] *)
Definition spaces (n : Z) : string :=
  string_of_list_ascii (repeat " "%char (Z.to_nat n)).

(** [s.padStart(n)] *)
Definition padStart (n : nat) (s : string) : string :=
  (spaces (Z.of_nat (n - String.length s)) ++ s)%string.

(** The inner loop of [renderBoardVisual] over the characters of one row
    of the position, with the count [emptyCount] of squares not yet
    drawn. *)
Fixpoint renderRow (row : string) (emptyCount : Z) : string :=
  match row with
  | EmptyString => if 0 <? emptyCount then spaces emptyCount else EmptyString
  | String char rest =>
      if is_digit char then renderRow rest (emptyCount + digit_value char)
      else
        let blanks := if 0 <? emptyCount then spaces emptyCount else EmptyString in
        (blanks ++ String char (renderRow rest 0))%string
  end.

(** [renderBoardVisual(fen)].  Iterating over [rows[i]] raises when the
    position has fewer than eight rows: [None]. *)
Definition renderBoardVisual (fenString : string) : option string :=
  let position := hd EmptyString (split_on " " fenString) in
  let rows := split_on "/" position in
  option_map (fun board => (board ++ "  a b c d e f g h")%string)
    (fold_left (fun acc i =>
       match acc, nth_error rows (Z.to_nat i) with
       | Some board, Some row =>
           Some (board ++ show_Z (8 - i) ++ " " ++ renderRow row 0 ++ newline)%string
       | _, _ => None
       end) range8 (Some EmptyString)).

(** The loop [for (let i = 0; i < moveLogs.length; i += 2)]: the white
    move of a pair is always there, the black one may be missing. *)
Fixpoint pairsOf (moveLogs : list BattleLog.Entry)
    : list (BattleLog.Entry * option BattleLog.Entry) :=
  match moveLogs with
  | [] => []
  | [white] => [(white, None)]
  | white :: black :: rest => (white, Some black) :: pairsOf rest
  end.

(** [arr.forEach((x, idx) => ...)] as a list of results, [idx] counting
    from [i]. *)
Fixpoint mapIndexed {A B : Type} (f : nat -> A -> B) (i : nat) (l : list A)
    : list B :=
  match l with
  | [] => []
  | x :: rest => f i x :: mapIndexed f (S i) rest
  end.

(** The rows of the table of [buildMoveHistorySummary]: the number written
    in front of each of the last ten pairs, and the pair. *)
Definition summaryRows (battleLogs : list BattleLog.Entry)
    : list (Z * (BattleLog.Entry * option BattleLog.Entry)) :=
  let moveLogs := filter (BattleLog.hasType "move") battleLogs in
  let pairs := pairsOf moveLogs in
  let recentPairs := Store.lastN 10 pairs in
  mapIndexed (fun idx pair =>
                (Z.of_nat (List.length pairs) - 10 + Z.of_nat idx + 1, pair))
             0 recentPairs.

Definition summaryLine (row : Z * (BattleLog.Entry * option BattleLog.Entry))
    : string :=
  let '(moveNumber, (white, black)) := row in
  let whiteMove := BattleLog.content white in
  let blackMove :=
    match black with Some b => BattleLog.content b | None => "..." end in
  ("    " ++ padStart 2 (show_Z moveNumber) ++ "   | " ++ padStart 5 whiteMove
   ++ " | " ++ padStart 5 blackMove ++ newline)%string.

(** [buildMoveHistorySummary(battleLogs)] *)
Definition buildMoveHistorySummary (battleLogs : list BattleLog.Entry) : string :=
  match filter (BattleLog.hasType "move") battleLogs with
  | [] =>
      ("=== MOVE HISTORY ===" ++ newline
       ++ "No moves yet. The game is in its opening phase.")%string
  | _ :: _ =>
      ("=== MOVE HISTORY (Last 20 Moves) ===" ++ newline
       ++ "Move Number | White | Black" ++ newline
       ++ "------------|-------|------" ++ newline
       ++ String.concat EmptyString (map summaryLine (summaryRows battleLogs)))%string
  end.

(** [buildPrompt(playerConfig, isPlayer1, gameState, battleLogs)] joins
    five sections.  Four of them (the identity of the player, the move
    history, the recent dialogue and the task) are built from strings
    without a call that can raise; the section on the game state draws the
    board with [renderBoardVisual(gameState.fen)] and raises when that
    call does.  The model keeps of the prompt whether it is built: its
    text goes to the adapter only, whose replies the model takes as
    given. *)
Definition buildPrompt (fenString : string) : option unit :=
  match renderBoardVisual fenString with
  | Some _ => Some tt
  | None => None
  end.

End ContextBuilder.

(** ** The orchestrator hook (hooks/useAIOrchestrator.js) *)

Inductive PlayerId : Type := player1 | player2.

Definition player_eqb (a b : PlayerId) : bool :=
  match a, b with player1, player1 | player2, player2 => true | _, _ => false end.

Inductive LOG_TYPES : Type :=
| SYSTEM | TURN | MOVE | THOUGHT | TRASH | HALLUCINATION | LOG_ERROR | DIRECTOR.

(** An entry of the battle log: type, content and player name. *)
Definition LogEntry : Type := (LOG_TYPES * string * option string)%type.

(** [hallucinationRetries]: one counter per player. *)
Record Retries : Type := mkRetries { retries1 : Z; retries2 : Z }.

Definition retriesOf (r : Retries) (p : PlayerId) : Z :=
  match p with player1 => retries1 r | player2 => retries2 r end.

Definition setRetries (r : Retries) (p : PlayerId) (n : Z) : Retries :=
  match p with
  | player1 => mkRetries n (retries2 r)
  | player2 => mkRetries (retries1 r) n
  end.

(** What the hook works on: the game-state store, the hook's React state
    and its ref to the active player, the entries of the battle log, and
    the number of [adapter.complete] calls made so far.  The telemetry kept
    by [startRequest] and [endRequest] and the sliding windows of the log
    store are left out: the orchestrator never reads them. *)
Record Arena : Type := mkArena {
  store : Store.State;
  isProcessing : bool;
  hallucinationRetries : Retries;
  directorOverride : option (string * PlayerId);
  directorPrompt : option string;
  activePlayerRef : option PlayerId;
  logs : list LogEntry;
  requests : nat
}.

(** The settings and player names the hook reads from the provider store. *)
Record Settings : Type := mkSettings {
  maxHallucinationRetries : Z;
  turnDelay : Z;
  name1 : string;
  name2 : string
}.

(** What one [adapter.complete] call yields: a thrown error, or the fields
    [parseAIResponse] extracts from the content. *)
Inductive Reply : Type :=
| Throws (message : string)
| Response (move thought trash : option string).

(** The world outside the hook: whether [createAdapter] succeeds, and the
    reply to the n-th request. *)
Record Agents : Type := mkAgents {
  adapterCreated : bool;
  adapterError : string;
  complete : nat -> Reply
}.

(** [const { gameState, setGameState, advanceTurn, resetGame,
    setGameStatus, setGameResult } = useGameStateStore()].  The five
    actions are keys of the object the store hook returns; [gameState] is
    not one of its keys, so the variable of that name is [undefined]
    ([None]), whatever the store holds. *)
Definition destructureGameState (s : Store.State) : option Store.State :=
  if Store.hasKey "gameState" then Some s else None.

Section Orchestrator.

Variable settings : Settings.
Variable agents : Agents.

Definition playerName (p : PlayerId) : string :=
  match p with player1 => name1 settings | player2 => name2 settings end.

Definition withStore (a : Arena) (f : Store.State -> Store.State) : Arena :=
  mkArena (f (store a)) (isProcessing a) (hallucinationRetries a)
          (directorOverride a) (directorPrompt a) (activePlayerRef a)
          (logs a) (requests a).

Definition addLog (a : Arena) (type : LOG_TYPES) (content : string)
    (player : option string) : Arena :=
  mkArena (store a) (isProcessing a) (hallucinationRetries a)
          (directorOverride a) (directorPrompt a) (activePlayerRef a)
          (logs a ++ [(type, content, player)]) (requests a).

Definition setIsProcessing (a : Arena) (b : bool) : Arena :=
  mkArena (store a) b (hallucinationRetries a)
          (directorOverride a) (directorPrompt a) (activePlayerRef a)
          (logs a) (requests a).

Definition setHallucinationRetries (a : Arena) (f : Retries -> Retries) : Arena :=
  mkArena (store a) (isProcessing a) (f (hallucinationRetries a))
          (directorOverride a) (directorPrompt a) (activePlayerRef a)
          (logs a) (requests a).

Definition setDirectorOverride (a : Arena) (o : option (string * PlayerId)) : Arena :=
  mkArena (store a) (isProcessing a) (hallucinationRetries a)
          o (directorPrompt a) (activePlayerRef a)
          (logs a) (requests a).

Definition setDirectorPrompt (a : Arena) (o : option string) : Arena :=
  mkArena (store a) (isProcessing a) (hallucinationRetries a)
          (directorOverride a) o (activePlayerRef a)
          (logs a) (requests a).

(** One [await adapter.complete(...)]: the request is counted. *)
Definition request (a : Arena) : Reply * Arena :=
  (complete agents (requests a),
   mkArena (store a) (isProcessing a) (hallucinationRetries a)
           (directorOverride a) (directorPrompt a) (activePlayerRef a)
           (logs a) (S (requests a))).

(** [setGameState({ fen: validator.fen, turn: validator.turn });
    advanceTurn(); addLog(LOG_TYPES.MOVE, move, playerName)] *)
Definition commitMove (a : Arena) (v : Validator) (san : string)
    (p : PlayerId) : Arena :=
  let a1 := withStore a (fun s => Store.setGameState s (fen v) (turn v)) in
  let a2 := withStore a1 Store.advanceTurn in
  addLog a2 MOVE san (Some (playerName p)).

(** The [catch] block of [executeTurn]. *)
Definition catchError (a : Arena) (message : string) (p : PlayerId) : Arena :=
  let a1 := addLog a LOG_ERROR ("AI Error: " ++ message)%string (Some (playerName p)) in
  let a2 := if 0 <? maxHallucinationRetries settings
            then withStore a1 (fun s => Store.setGameStatus s ERROR) else a1 in
  setIsProcessing a2 false.

Definition logThought (a : Arena) (thought : option string) (p : PlayerId) : Arena :=
  match thought with
  | None | Some EmptyString => a
  | Some t => addLog a THOUGHT t (Some (playerName p))
  end.

(** [!parsed.move]: no [MOVE] field, or an empty one. *)
Definition moveText (move : option string) : option string :=
  match move with
  | None | Some EmptyString => None
  | Some m => Some m
  end.

(** The corrective branch of [executeTurn]: the first move was rejected
    with [error]; [v] is the validator, unchanged by the rejected move. *)
Definition retryTurn (snap a : Arena) (v : Validator) (error : string)
    (p : PlayerId) : Arena :=
  let currentRetries := retriesOf (hallucinationRetries snap) p in
  if maxHallucinationRetries settings <=? currentRetries then
    let a1 := addLog a LOG_ERROR
                ("Max hallucination retries ("
                 ++ show_Z (maxHallucinationRetries settings)
                 ++ ") exceeded. Director intervention required.")%string
                (Some (playerName p)) in
    let a2 := withStore a1 (fun s => Store.setGameStatus s WAITING_DIRECTOR) in
    setIsProcessing a2 false
  else
    let a1 := addLog a HALLUCINATION error (Some (playerName p)) in
    let '(reply, a2) := request a1 in
    match reply with
    | Throws message => catchError a2 message p
    | Response move thought trash =>
        match moveText move with
        | None =>
            catchError a2 "Failed to extract valid move from correction response" p
        | Some san =>
            match validateMove v san with
            | (Invalid error2, _) =>
                catchError a2 ("Retry also failed: " ++ error2)%string p
            | (_, v2) =>
                let a3 := setHallucinationRetries a2
                            (fun prev => setRetries prev p (retriesOf prev p + 1)) in
                let a4 := logThought a3 thought p in
                commitMove a4 v2 san p
            end
        end
    end.

(** [if (directorPrompt) { addLog(...); setDirectorPrompt(null); }]: a
    prompt of the director replaces the built one and is used once. *)
Definition interceptPrompt (snap a : Arena) (p : PlayerId) : Arena :=
  match directorPrompt snap with
  | None | Some EmptyString => a
  | Some _ =>
      setDirectorPrompt
        (addLog a DIRECTOR "Director intercepted and modified prompt"
                (Some (playerName p)))
        None
  end.

(** The part of [executeTurn] that asks the agent for a move. *)
Definition agentTurn (snap a : Arena) (v : Validator) (p : PlayerId) : Arena :=
  let a1 := interceptPrompt snap a p in
  let '(reply, a2) := request a1 in
  match reply with
  | Throws message => catchError a2 message p
  | Response move thought trash =>
      let a3 := logThought a2 thought p in
      match moveText move with
      | None => catchError a3 "No valid MOVE field found in response" p
      | Some san =>
          match validateMove v san with
          | (Invalid error, _) => retryTurn snap a3 v error p
          | (_, v1) =>
              let a4 := setHallucinationRetries a3 (fun prev => setRetries prev p 0) in
              let a5 := commitMove a4 v1 san p in
              match trash with
              | None | Some EmptyString => a5
              | Some t => addLog a5 TRASH t (Some (playerName p))
              end
          end
      end
  end.

(** The part of [executeTurn] that follows the building of the prompt:
    the adapter, the override of the director, the agent. *)
Definition playTurn (snap a : Arena) (validator : Validator) (p : PlayerId)
    : Arena :=
  if negb (adapterCreated agents) then
    let a2 := addLog a LOG_ERROR
                ("Failed to create adapter: " ++ adapterError agents)%string
                (Some (playerName p)) in
    let a3 := withStore a2 (fun s => Store.setGameStatus s ERROR) in
    setIsProcessing a3 false
  else
    match directorOverride snap with
    | Some (overrideMove, target) =>
        if player_eqb target p then
          let a2 := addLog a DIRECTOR
                      ("Director Override: " ++ playerName p
                       ++ " forced to play " ++ overrideMove)%string
                      (Some (playerName p)) in
          let a3 := setDirectorOverride a2 None in
          match validateMove validator overrideMove with
          | (Invalid error, _) =>
              addLog a3 LOG_ERROR ("Director override invalid: " ++ error)%string
                     (Some (playerName p))
          | (_, v1) => commitMove a3 v1 overrideMove p
          end
        else agentTurn snap a validator p
    | None => agentTurn snap a validator p
    end.

(** [executeTurn(playerId)].  The callback closes over the values of one
    render: [gameState] is the variable the hook destructures from the
    store, [snap] holds the React state of that render ([directorOverride],
    [directorPrompt], [hallucinationRetries]); the setters act on the
    current state [a].  The callback is an [async] function: where a call
    raises outside the [try] block (reading [gameState.fen] of an undefined
    [gameState], the validator's constructor, [buildPrompt]) the promise is
    rejected, the turn ends there and what was set before stays set. *)
Definition executeTurn (gameState : option Store.State) (snap a : Arena)
    (p : PlayerId) : Arena :=
  match gameState with
  | None => a
  | Some gs =>
      match newValidator (Store.fen gs) with
      | None => a
      | Some validator =>
          match getGameState validator [] with
          | GameOver result reason =>
              let a1 := withStore a (fun s => Store.setGameStatus s GAME_OVER) in
              let a2 := withStore a1
                          (fun s => Store.setGameResult s (GameOver result reason)) in
              let a3 := addLog a2 SYSTEM
                          ("Game Over: " ++ result ++ " - " ++ reason)%string None in
              setIsProcessing a3 false
          | InProgress _ =>
              let a1 := addLog a TURN
                          (playerName p ++ "'s turn (" ++ Store.turn gs ++ ")...")%string
                          (Some (playerName p)) in
              match ContextBuilder.buildPrompt (Store.fen gs) with
              | None => a1
              | Some _ => playTurn snap a1 validator p
              end
          end
      end
  end.

(** [forceMove(move, playerId)]: the override is recorded for the next
    render; then [gameState.status] is read, which raises when [gameState]
    is undefined.  [executeTurn], when called at once, is the callback of
    the current render. *)
Definition forceMove (gameState : option Store.State) (snap a : Arena)
    (move : string) (p : PlayerId) : Arena :=
  let a1 := setDirectorOverride a (Some (move, p)) in
  match gameState with
  | None => a1
  | Some gs =>
      if status_eqb (Store.status gs) PAUSED
         && match activePlayerRef a1 with
            | Some q => player_eqb q p
            | None => false
            end
      then executeTurn gameState snap a1 p
      else a1
  end.

(** What a render of the hook hands to the component that called it, as
    far as the model goes: the [forceMove] of that render, to be called on
    the state current at the time of the call. *)
Record Hook : Type := mkHook {
  hookForceMove : string -> PlayerId -> Arena -> Arena
}.

(** One render of the hook on the state [snap].  While the hook renders,
    the dependency arrays of [gameLoop], [forceMove] and [skipTurn] and
    that of the effect are built, and each of them reads
    [gameState.status]: with [gameState] undefined the render raises
    ([None]) and the component gets nothing.  The game loop an effect
    starts after a render, and its timer, are not part of the model. *)
Definition render (gameState : option Store.State) (snap : Arena) : option Hook :=
  match gameState with
  | None => None
  | Some _ => Some (mkHook (fun move p a => forceMove gameState snap a move p))
  end.

(** [useAIOrchestrator()], rendered on the state [snap]. *)
Definition useAIOrchestrator (snap : Arena) : option Hook :=
  render (destructureGameState (store snap)) snap.

End Orchestrator.



(** ** Positions used in the examples *)

(** The initial layout with the side to move written the way the
    validator compares it with [piece.color]. *)
Definition START_WHITE : string :=
  "rnbqkbnr/pppppppp/8/8/8/8/PPPPPPPP/RNBQKBNR white KQkq - 5 1".

(** White may castle king-side; the black rook on g8 covers g1. *)
Definition CASTLE_INTO_CHECK : string := "4k1r1/8/8/8/8/8/8/4K2R white K - 0 1".

(** The same with colours reversed and the side to move written as in
    standard FEN: black may castle king-side, the white rook covers g8. *)
Definition CASTLE_INTO_CHECK_BLACK : string := "4k2r/8/8/8/8/8/8/4K1R1 b k - 0 1".

(** Both sides may castle on both wings and nothing is attacked. *)
Definition CASTLE_FREE : string := "r3k2r/8/8/8/8/8/8/R3K2R white KQkq - 0 1".

(** The validator built from a position string; when the constructor
    throws there is no validator, and the empty board stands in. *)
Definition validatorOf (fenString : string) : Validator :=
  match newValidator fenString with
  | Some v => v
  | None => mkValidator fenString [] "w" "KQkq" "-" 0 1
  end.


(** Two white kings, both covered by the black queen and rook: the only
    kind of position in which [isCheckmate] can hold, since a lone king's
    move onto its own square counts as an escape. *)
Definition TWO_KINGS_MATED : string := "8/8/8/8/8/8/4r3/K2q3K white - - 0 1".

(** King against king, white to move. *)
Definition BARE_KINGS : string := "4k3/8/8/8/8/8/8/4K3 white - - 0 1".

(** ** The precedence of terminal conditions, as the specification words it *)

Definition opposite (c : Color) : Color :=
  match c with White => Black | Black => White end.

Definition drawBy (reason : string) : GameState := GameOver "draw" reason.

(** "First satisfied condition wins": the answer attached to the first
    condition that holds, in list order, or [otherwise]. *)
Fixpoint firstSatisfied (conditions : list (bool * GameState))
    (otherwise : GameState) : GameState :=
  match conditions with
  | [] => otherwise
  | (true, answer) :: _ => answer
  | (false, _) :: rest => firstSatisfied rest otherwise
  end.

(** ** Counting repeated positions *)

(** The first [n] space-separated fields of a position string. *)
Definition fenFields (n : nat) (fenString : string) : list string :=
  firstn n (split_on " " fenString).

Definition sameFields (n : nat) (f g : string) : bool :=
  if list_eq_dec string_dec (fenFields n f) (fenFields n g) then true else false.

(** How many of the current position and the positions of the history
    agree with the current one on their first [n] fields. *)
Definition occurrences (n : nat) (current : string) (history : list string) : nat :=
  List.length (filter (fun f => sameFields n f current) (current :: history)).

(** A position with an en-passant target, and two earlier positions with
    the same layout, side and castling rights but no such target. *)
Definition AFTER_E4 : string :=
  "rnbqkbnr/pppppppp/8/8/4P3/8/PPPP1PPP/RNBQKBNR black KQkq e3 0 1".

Definition EARLIER : list string :=
  ["rnbqkbnr/pppppppp/8/8/4P3/8/PPPP1PPP/RNBQKBNR black KQkq - 4 3";
   "rnbqkbnr/pppppppp/8/8/4P3/8/PPPP1PPP/RNBQKBNR black KQkq - 8 5"].


(** ** Scenarios for the orchestrator *)

Definition defaultSettings : Settings :=
  mkSettings 3 2000 "Arrogant Grandmaster" "Chaotic Hacker".

(** Agents whose adapter is created and whose n-th reply is the n-th move
    of a script; a request past the script fails. *)
Definition scripted (script : list string) : Agents :=
  mkAgents true "unused"
    (fun n => match nth_error script n with
              | Some san => Response (Some san) None None
              | None => Throws "connection refused"
              end).

(** The arena at a position, with given status and counter of player 1. *)
Definition arenaAt (fenString : string) (st : GAME_STATUS) (retries : Z) : Arena :=
  mkArena (Store.mkState fenString "white" 1 1 st INITIAL_FEN None [])
          false (mkRetries retries 0) None None None [] 0%nat.

(** The same arena during a turn of player 1. *)
Definition arenaOfPlayer1 (fenString : string) (st : GAME_STATUS) (retries : Z)
    : Arena :=
  mkArena (Store.mkState fenString "white" 1 1 st INITIAL_FEN None [])
          false (mkRetries retries 0) None None (Some player1) [] 0%nat.

(** [executeTurn] for a player reaches the agent: [gameState] is defined,
    its position parses, is not terminal and can be drawn for the prompt,
    the adapter is created, and the render holds no override for that
    player. *)
Definition reachesAgent (agents : Agents) (gameState : option Store.State)
    (snap : Arena) (p : PlayerId) (v : Validator) : Prop :=
  (exists gs, gameState = Some gs
              /\ newValidator (Store.fen gs) = Some v
              /\ ContextBuilder.buildPrompt (Store.fen gs) = Some tt)
  /\ (exists inCheck, getGameState v [] = InProgress inCheck)
  /\ adapterCreated agents = true
  /\ match directorOverride snap with
     | Some (_, q) => player_eqb q p = false
     | None => True
     end.

(** A reply that carries no acceptable move for validator [v]: the request
    failed, there is no move text, or [validateMove] rejects it. *)
Definition rejectedReply (v : Validator) (r : Reply) : Prop :=
  match r with
  | Throws _ => True
  | Response move _ _ =>
      match move with
      | None | Some EmptyString => True
      | Some san => valid (fst (validateMove v san)) = false
      end
  end.

(** A reply whose move text [san] the validator [v] accepts or rejects. *)
Definition repliesMove (r : Reply) (san : string) : Prop :=
  san <> EmptyString /\ exists thought trash, r = Response (Some san) thought trash.

Definition otherPlayer (p : PlayerId) : PlayerId :=
  match p with player1 => player2 | player2 => player1 end.


(** ** Legal positions *)

(** A field of a position string: not empty and without a space. *)
Definition isField (s : string) : Prop :=
  s <> EmptyString /\ includes s " " = false.

(** One of the six kinds of piece. *)
Definition legalPiece (p : Piece) : Prop := includes "pnbrqk" (ptype p) = true.

Definition legalRow (row : Row) : Prop :=
  List.length row = 8%nat
  /\ Forall (fun c => match c with Some p => legalPiece p | None => True end) row.

(** An 8x8 grid of legal pieces. *)
Definition legalBoard (b : Board) : Prop :=
  List.length b = 8%nat /\ Forall legalRow b.

(** The positions the round trip is about: a legal board, the side to
    move, the castling rights and the en-passant target held as fields the
    way the constructor and [applyMove] leave them, a half-move clock that
    is not negative and a full-move number from 1 on, both of them
    integers a number holds exactly (at most [MAX_SAFE_INTEGER], far
    beyond the counters of any game of chess). *)
Definition legalPosition (v : Validator) : Prop :=
  legalBoard (board v)
  /\ isField (turn v) /\ isField (castling v) /\ isField (enPassant v)
  /\ 0 <= halfMoveClock v <= MAX_SAFE_INTEGER
  /\ 1 <= fullMoveNumber v <= MAX_SAFE_INTEGER.

(** The board part of the position string, rank by rank. *)
Fixpoint fenRows (rows : list Row) : string :=
  match rows with
  | [] => EmptyString
  | [row] => fenRank row 0
  | row :: rest => (fenRank row 0 ++ "/" ++ fenRows rest)%string
  end.

(** The sixteen combinations of castling rights, the empty one written
    with the sentinel. *)
Definition castlingCombinations : list string :=
  ["-"; "K"; "Q"; "k"; "q"; "KQ"; "Kk"; "Kq"; "Qk"; "Qq"; "kq";
   "KQk"; "KQq"; "Kkq"; "Qkq"; "KQkq"].


(** The validator states a match goes through: a validator constructed on
    a legal position, and every state [validateMove] leaves behind while
    the full-move number can still be counted up exactly. *)
Inductive reachable : Validator -> Prop :=
| reachable_new (fenString : string) (v : Validator) :
    newValidator fenString = Some v -> legalPosition v -> reachable v
| reachable_move (v : Validator) (san : string) :
    reachable v -> fullMoveNumber v < MAX_SAFE_INTEGER ->
    reachable (snd (validateMove v san)).

(** A validator with other castling rights and no en-passant target. *)
Definition withCastling (v : Validator) (rights : string) : Validator :=
  mkValidator (fen v) (board v) (turn v) rights "-"
              (halfMoveClock v) (fullMoveNumber v).


(** ** Sequences of calls *)

(** The validator after [validateMove] has been called with each notation
    of a list in turn, accepted or not. *)
Definition playMoves (v : Validator) (sans : list string) : Validator :=
  fold_left (fun w san => snd (validateMove w san)) sans v.

(** The two strings that name a colour. *)
Definition isColorName (s : string) : Prop := s = "white" \/ s = "black".





(** Two knights that can both go to d2. *)
Definition TWO_KNIGHTS : string := "4k3/8/8/8/8/5N2/8/1N2K3 white - - 0 1".


(** A white pawn on b2 that may capture on c3, and a white bishop on e1
    that may capture there as well. *)
Definition B_PAWN_CAPTURE : string := "4k3/8/8/8/8/2n5/1P6/K3B3 white - - 0 1".


(** The squares that hold a piece other than a king. *)
Definition nonKingSquares (b : Board) : list Square :=
  filter (fun sq =>
    match cell b (fst sq) (snd sq) with
    | Some p => negb (Ascii.eqb (ptype p) "k")
    | None => false
    end) allSquares.

(** King and queen against a bare king. *)
Definition QUEEN_UP : string := "4k3/8/8/8/8/8/8/3QK3 white - - 0 1".



(** The string of each log type the orchestrator uses. *)
Definition logTypeName (t : LOG_TYPES) : string :=
  match t with
  | SYSTEM => "system"
  | TURN => "turn"
  | MOVE => "move"
  | THOUGHT => "thought"
  | TRASH => "trash"
  | HALLUCINATION => "hallucination"
  | LOG_ERROR => "error"
  | DIRECTOR => "director"
  end.

(** The three windows of the battle log agree with the log: each holds the
    last entries of its type. *)
Definition windowsAgree (s : BattleLog.State) : Prop :=
  BattleLog.whisperStack s
  = Store.lastN 6 (filter (BattleLog.hasType "thought") (BattleLog.logs s))
  /\ BattleLog.trashHistory s
     = Store.lastN 12 (filter (BattleLog.hasType "trash") (BattleLog.logs s))
  /\ BattleLog.moveHistory s
     = Store.lastN 20 (filter (BattleLog.hasType "move") (BattleLog.logs s)).



(** The character drawn for a square: the letter of its piece, or a
    blank. *)
Definition squareChar (c : option Piece) : ascii :=
  match c with Some p => charOfPiece p | None => " "%char end.

(** The picture of a board: one line per rank, from the eighth down, with
    the rank's number, a blank and one character per square; then the line
    of file letters. *)
Definition boardPicture (b : Board) : string :=
  (String.concat EmptyString
     (map (fun labelled : string * Row =>
             (fst labelled ++ " "
              ++ string_of_list_ascii (map squareChar (snd labelled))
              ++ ContextBuilder.newline)%string)
          (combine RANKS b))
   ++ "  a b c d e f g h")%string.

(** Two moves, one pair. *)
Definition FIRST_PAIR : list BattleLog.Entry :=
  [BattleLog.mkEntry "move" "e4" (Some "Arrogant Grandmaster");
   BattleLog.mkEntry "thought" "solid" (Some "Chaotic Hacker");
   BattleLog.mkEntry "move" "e5" (Some "Chaotic Hacker")].

(** ** Positions that end a game by the rules of chess *)

(** The position after 1. f3 e5 2. g4 Qh4: White is checkmated.  The side
    field is written the way the validator writes it after a move. *)
Definition FOOLS_MATE : string :=
  "rnb1kbnr/pppp1ppp/8/4p3/6Pq/5P2/PPPPP2P/RNBQKBNR white KQkq - 0 3".

(** The same position with the side field of a standard position
    string. *)
Definition FOOLS_MATE_STANDARD : string :=
  "rnb1kbnr/pppp1ppp/8/4p3/6Pq/5P2/PPPPP2P/RNBQKBNR w KQkq - 0 3".

(** Black, to move, is stalemated: the king on h8 is not attacked and has
    no square to go to. *)
Definition STALEMATED : string := "7k/5Q2/6K1/8/8/8/8/R7 black - - 0 1".

Definition square_eqb (a b : Square) : bool :=
  (fst a =? fst b) && (snd a =? snd b).

(** Among the moves [safeMoves] lists, those the rules of chess know: the
    piece leaves its square and does not land on a piece of its own
    colour. *)
Definition isProperMove (v : Validator) (m : Move) : bool :=
  negb (square_eqb (from m) (to m))
  && match cell (board v) (fst (to m)) (snd (to m)) with
     | Some p => negb (hasColor p (turn v))
     | None => true
     end.

(** The test of [findKingOnBoard] on one square. *)
Definition isKingOf (b : Board) (color : string) (sq : Square) : bool :=
  match cell b (fst sq) (snd sq) with
  | Some p => Ascii.eqb (ptype p) "k" && hasColor p color
  | None => false
  end.

(** The squares that hold a king of a colour. *)
Definition kingSquares (b : Board) (color : string) : list Square :=
  filter (isKingOf b color) allSquares.

(** * Properties *)

(** ** The board after a move *)

Lemma set_nth_same (n : nat) (x : option Piece) (row : Row) :
  nth n (set_nth n x row) None = x.
Proof.
  revert row; induction n as [|n IH]; intros [|h t]; simpl; auto.
Qed.

Lemma nth_upd_row_same (n : nat) (f : Row -> Row) (b : Board) :
  nth n (upd_row n f b) [] =
  match nth_error b n with Some r => f r | None => [] end.
Proof.
  revert b; induction n as [|n IH]; intros [|r t]; simpl; auto.
Qed.

Lemma nth_nil_cell (n : nat) : nth n (@nil (option Piece)) None = None.
Proof. destruct n; reflexivity. Qed.

(** Writing [null] on a square leaves it empty, wherever the square is. *)
Lemma cell_set_cell_None (b : Board) (r c : Z) :
  cell (set_cell b r c None) r c = None.
Proof.
  unfold cell, set_cell, row_at.
  destruct (c <? 0) eqn:Hc; [reflexivity|].
  destruct (r <? 0) eqn:Hr; simpl.
  - apply nth_nil_cell.
  - rewrite nth_upd_row_same.
    destruct (nth_error b (Z.to_nat r)).
    + apply set_nth_same.
    + apply nth_nil_cell.
Qed.

(** [makeMoveOnBoard] vacates the source square: its last assignment is
    [newBoard[fromRank][fromFile] = null]. *)
Lemma makeMoveOnBoard_from_empty (b : Board) (m : Move) :
  cell (makeMoveOnBoard b m) (fst (from m)) (snd (from m)) = None.
Proof.
  destruct m as [[fr ff] [tr tf]]; unfold makeMoveOnBoard; simpl.
  apply cell_set_cell_None.
Qed.

(** ** What [applyMove] does to the position record *)

(** [updateEnPassant] runs after the board has been replaced, finds no
    piece on the source square and writes the sentinel. *)
Lemma updateEnPassant_after_move (b : Board) (m : Move) :
  updateEnPassant (makeMoveOnBoard b m) m = "-".
Proof.
  unfold updateEnPassant.
  pose proof (makeMoveOnBoard_from_empty b m) as H.
  destruct (from m) as [fr ff]; simpl in H; rewrite H; reflexivity.
Qed.

(** [updateCastlingRights] returns early for the same reason. *)
Lemma updateCastlingRights_after_move (b : Board) (rights : string) (m : Move) :
  updateCastlingRights (makeMoveOnBoard b m) rights m = rights.
Proof.
  unfold updateCastlingRights.
  pose proof (makeMoveOnBoard_from_empty b m) as H.
  destruct (from m) as [fr ff]; simpl in H; rewrite H; reflexivity.
Qed.

Lemma applyMove_enPassant (v : Validator) (m : Move) :
  enPassant (applyMove v m) = "-".
Proof. unfold applyMove; simpl; apply updateEnPassant_after_move. Qed.

Lemma applyMove_castling (v : Validator) (m : Move) :
  castling (applyMove v m) = castling v.
Proof. unfold applyMove; simpl; apply updateCastlingRights_after_move. Qed.

Lemma applyMove_halfMoveClock (v : Validator) (m : Move) :
  halfMoveClock (applyMove v m) = halfMoveClock v.
Proof. reflexivity. Qed.

Lemma applyMove_board (v : Validator) (m : Move) :
  board (applyMove v m) = makeMoveOnBoard (board v) m.
Proof. reflexivity. Qed.

Lemma applyMove_turn (v : Validator) (m : Move) :
  turn (applyMove v m) = if String.eqb (turn v) "white" then "black" else "white".
Proof. reflexivity. Qed.

Lemma applyMove_fen (v : Validator) (m : Move) :
  fen (applyMove v m) = serialize (applyMove v m).
Proof. reflexivity. Qed.

(** ** The shape of [validateMove]'s answers *)

(** A rejected move leaves the validator as it was. *)
Lemma validateMove_invalid_frame (v : Validator) (san : string) :
  valid (fst (validateMove v san)) = false -> snd (validateMove v san) = v.
Proof.
  unfold validateMove.
  destruct (parseSan san) as [[side|parsed]|]; simpl; auto.
  repeat match goal with
         | |- context [if ?c then _ else _] => destruct c; simpl; auto
         | |- context [match findPieceMove ?a ?b ?c ?d ?e with _ => _ end] =>
             destruct (findPieceMove a b c d e); simpl; auto
         end; discriminate.
Qed.

(** An accepted move that is not castling was found by [findPieceMove],
    passed the king-safety test on the board after the move, and was
    applied. *)
Lemma validateMove_accepts (v v' : Validator) (san : string) (m : Move)
    (cap : bool) (promo : option ascii) :
  validateMove v san = (ValidMove m cap promo, v') ->
  v' = applyMove v m
  /\ isKingInCheck (enPassant v) (turn v) (makeMoveOnBoard (board v) m) = false.
Proof.
  unfold validateMove.
  destruct (parseSan san) as [[side|parsed]|]; simpl.
  - unfold validateCastling.
    repeat match goal with
           | |- context [if ?c then _ else _] => destruct c; simpl
           end; intros H; inversion H.
  - repeat match goal with
           | |- context [if ?c then _ else _] => destruct c eqn:?; simpl
           | |- context [match findPieceMove ?a ?b ?c ?d ?e with _ => _ end] =>
               destruct (findPieceMove a b c d e) eqn:?; simpl
           end; intros H; inversion H; subst; auto.
  - intros H; inversion H.
Qed.

(** Castling answers never come with a changed validator. *)
Lemma validateMove_castling_answer (v v' : Validator) (san : string) (m : Move)
    (side : CastleSide) :
  validateMove v san = (ValidCastling m side, v') -> v' = v.
Proof.
  unfold validateMove.
  destruct (parseSan san) as [[s|parsed]|]; simpl.
  - intros H; inversion H; reflexivity.
  - repeat match goal with
           | |- context [if ?c then _ else _] => destruct c; simpl
           | |- context [match findPieceMove ?a ?b ?c ?d ?e with _ => _ end] =>
               destruct (findPieceMove a b c d e); simpl
           end; intros H; inversion H.
  - intros H; inversion H.
Qed.

(** ** Castling is validated, never applied *)

Lemma parseSan_castling (san : string) :
  san = "O-O" \/ san = "O-O-O" ->
  exists side, parseSan san = Some (PCastling side).
Proof. intros [-> | ->]; eexists; reflexivity. Qed.

(** C10. For every validator state in which [validateMove("O-O")] or
    [validateMove("O-O-O")] returns a valid result, the call leaves the
    board, the FEN string, the side to move and the castling rights as they
    were (the whole record is unchanged): the accepted castling move is not
    applied. *)
Theorem validateMove_castling_not_applied (v : Validator) (san : string) :
  san = "O-O" \/ san = "O-O-O" ->
  valid (fst (validateMove v san)) = true ->
  let v' := snd (validateMove v san) in
  board v' = board v /\ fen v' = fen v /\ turn v' = turn v
  /\ castling v' = castling v /\ v' = v.
Proof.
  intros Hsan _.
  destruct (parseSan_castling san Hsan) as [side Hp].
  unfold validateMove; rewrite Hp; simpl; auto.
Qed.

Lemma validateMove_castling_not_applied_witness :
  let v := validatorOf CASTLE_FREE in
  valid (fst (validateMove v "O-O")) = true
  /\ board (snd (validateMove v "O-O")) = board v
  /\ fen (snd (validateMove v "O-O")) = fen v
  /\ turn (snd (validateMove v "O-O")) = turn v
  /\ castling (snd (validateMove v "O-O")) = castling v.
Proof.
  assert (Hvalid : valid (fst (validateMove (validatorOf CASTLE_FREE) "O-O")) = true)
    by (vm_compute; reflexivity).
  split; [exact Hvalid|].
  destruct (validateMove_castling_not_applied (validatorOf CASTLE_FREE) "O-O"
              (or_introl eq_refl) Hvalid) as (Hb & Hf & Ht & Hc & _).
  auto.
Defined.

(** Every other accepted move is applied: the validator that
    [validateMove] leaves behind is [applyMove] of the move it returns. *)
Lemma validateMove_other_moves_applied (v : Validator) (san : string) :
  forall m cap promo,
    fst (validateMove v san) = ValidMove m cap promo ->
    snd (validateMove v san) = applyMove v m.
Proof.
  intros m cap promo H.
  destruct (validateMove v san) as [r v'] eqn:E; simpl in *; subst r.
  apply validateMove_accepts in E; tauto.
Qed.

(** [validateMove] either leaves the validator alone or applies the move
    it accepted. *)
Lemma validateMove_cases (v : Validator) (san : string) :
  snd (validateMove v san) = v
  \/ exists m cap promo,
       validateMove v san = (ValidMove m cap promo, applyMove v m)
       /\ isKingInCheck (enPassant v) (turn v) (makeMoveOnBoard (board v) m) = false.
Proof.
  destruct (validateMove v san) as [r v'] eqn:E.
  destruct r as [err | m cap promo | m side].
  - left. change v' with (snd (Invalid err, v')). rewrite <- E.
    apply validateMove_invalid_frame. rewrite E; reflexivity.
  - right. destruct (validateMove_accepts _ _ _ _ _ _ E) as [-> Hsafe].
    exists m, cap, promo; auto.
  - left. simpl. eapply validateMove_castling_answer; eauto.
Qed.

(** ** The half-move clock *)

(** No call of [validateMove] changes the half-move clock: [applyMove] has
    no assignment to it. *)
Lemma validateMove_halfMoveClock (v : Validator) (san : string) :
  halfMoveClock (snd (validateMove v san)) = halfMoveClock v.
Proof.
  destruct (validateMove_cases v san) as [-> | (m & cap & promo & -> & _)];
    reflexivity.
Qed.

(** C3. The half-move clock is meant to be 0 after a pawn move or a capture
    and one more than before after any other move.  On the initial layout
    with clock 5 the validator accepts the knight move [Nf3] and the pawn
    move [e4]; the clock afterwards is 5 in both cases, neither 6 nor 0.
    [applyMove] called on the standard starting position with the knight
    move g1-f3 leaves the clock at 0, not 1. *)
Theorem halfMoveClock_stays_after_accepted_moves :
  let v := validatorOf START_WHITE in
  halfMoveClock v = 5
  /\ fst (validateMove v "Nf3") = ValidMove (mkMove (7, 6) (5, 5)) false None
  /\ halfMoveClock (snd (validateMove v "Nf3")) = 5
  /\ fst (validateMove v "e4") = ValidMove (mkMove (6, 4) (4, 4)) false None
  /\ halfMoveClock (snd (validateMove v "e4")) = 5
  /\ halfMoveClock (validatorOf INITIAL_FEN) = 0
  /\ halfMoveClock (applyMove (validatorOf INITIAL_FEN) (mkMove (7, 6) (5, 5))) = 0.
Proof. vm_compute; repeat split; reflexivity. Qed.

(** ** The en-passant target *)

(** After every accepted move that is not castling the en-passant field is
    the sentinel, two-square pawn advances included. *)
Lemma validateMove_enPassant (v : Validator) (san : string) :
  forall m cap promo,
    fst (validateMove v san) = ValidMove m cap promo ->
    enPassant (snd (validateMove v san)) = "-".
Proof.
  intros m cap promo H.
  rewrite (validateMove_other_moves_applied v san m cap promo H).
  apply applyMove_enPassant.
Qed.

(** C4. The en-passant target is meant to be the square behind the pawn
    after a two-square pawn advance.  On the initial layout the validator
    accepts [e4], which moves the pawn from e2 to e4 (two ranks); the
    en-passant field afterwards is the sentinel, not [e3].  The same holds
    for [applyMove] called with that move on the standard starting
    position. *)
Theorem enPassant_cleared_after_double_advance :
  let v := validatorOf START_WHITE in
  let m := mkMove (6, 4) (4, 4) in
  fst (validateMove v "e4") = ValidMove m false None
  /\ option_map ptype (cell (board v) 6 4) = Some "p"%char
  /\ Z.abs (fst (to m) - fst (from m)) = 2
  /\ enPassant (snd (validateMove v "e4")) = "-"
  /\ enPassant (snd (validateMove v "e4")) <> "e3"
  /\ enPassant (applyMove (validatorOf INITIAL_FEN) m) = "-".
Proof. vm_compute; repeat split; try reflexivity; discriminate. Qed.

(** ** King safety *)

(** C1. A move that [validateMove] accepts is meant to leave the mover's
    king out of check.  With the white king on e1, a white rook on h1 and a
    black rook on g8, [validateMove("O-O")] accepts castling and returns the
    king move e1-g1; on the board after that move, and also on the board
    after the complete castling, the white king stands on g1 in the line of
    the rook and is in check. *)
Theorem castling_accepted_into_check :
  let v := validatorOf CASTLE_INTO_CHECK in
  let m := mkMove (7, 4) (7, 6) in
  turn v = "white"
  /\ fst (validateMove v "O-O") = ValidCastling m Kingside
  /\ isKingInCheck (enPassant v) "white" (makeMoveOnBoard (board v) m) = true
  /\ isKingInCheck (enPassant v) "white"
       (makeMoveOnBoard (makeMoveOnBoard (board v) m) (mkMove (7, 7) (7, 5))) = true.
Proof. vm_compute; repeat split; reflexivity. Qed.

(** The same on a position string in standard FEN, black to move: the side
    field [b] matches no piece colour, so neither "in check" nor "through
    check" can fail, and castling onto the attacked square g8 is accepted. *)
Example castling_accepted_into_check_standard_fen :
  let v := validatorOf CASTLE_INTO_CHECK_BLACK in
  let m := mkMove (0, 4) (0, 6) in
  fst (validateMove v "O-O") = ValidCastling m Kingside
  /\ isKingInCheck (enPassant v) "black" (makeMoveOnBoard (board v) m) = true.
Proof. vm_compute; split; reflexivity. Qed.

(** No square is named by the sentinel. *)
Lemma squareName_not_dash (r f : Z) : String.eqb "-" (squareName r f) = false.
Proof.
  unfold squareName, at_index.
  destruct (f <? 0); destruct (r <? 0); simpl; try reflexivity;
    repeat match goal with
           | |- context [nth_error _ (Z.to_nat ?x)] =>
               destruct (Z.to_nat x) as [|[|[|[|[|[|[|[|[|?]]]]]]]]]; simpl
           end; reflexivity.
Qed.

(** Clearing the en-passant field can only remove pseudo-legal moves. *)
Lemma isPseudoLegalMove_sentinel (b : Board) (ep : string) (p : Piece)
    (src dst : Square) :
  isPseudoLegalMove b "-" p src dst = true ->
  isPseudoLegalMove b ep p src dst = true.
Proof.
  destruct src as [fr ff], dst as [tr tf]; unfold isPseudoLegalMove.
  rewrite squareName_not_dash.
  repeat match goal with
         | |- context [if ?c then _ else _] => destruct c
         end; simpl; auto; try discriminate.
Qed.

Lemma isSquareAttacked_sentinel (b : Board) (ep : string) (sq : Square)
    (byColor : string) :
  isSquareAttacked b "-" sq byColor = true ->
  isSquareAttacked b ep sq byColor = true.
Proof.
  unfold isSquareAttacked; rewrite !existsb_exists.
  intros (x & Hin & Hx); exists x; split; [assumption|].
  destruct (cell b (fst x) (snd x)); [|discriminate].
  apply andb_true_iff in Hx as [Hc Hp]; apply andb_true_iff; split; auto.
  now apply isPseudoLegalMove_sentinel.
Qed.

Lemma isKingInCheck_sentinel (b : Board) (ep color : string) :
  isKingInCheck ep color b = false -> isKingInCheck "-" color b = false.
Proof.
  unfold isKingInCheck; destruct (findKingOnBoard color b); auto.
  intros H. destruct (isSquareAttacked b "-" s (otherColor color)) eqn:E; auto.
  apply (isSquareAttacked_sentinel b ep) in E; congruence.
Qed.

(** King safety of accepted moves other than castling: in the validator
    state [validateMove] leaves behind, the king of the side that moved is
    not in check. *)
Lemma validateMove_accepted_king_safe (v v' : Validator) (san : string)
    (m : Move) (cap : bool) (promo : option ascii) :
  validateMove v san = (ValidMove m cap promo, v') ->
  board v' = makeMoveOnBoard (board v) m
  /\ isKingInCheck (enPassant v') (turn v) (board v') = false.
Proof.
  intros H; destruct (validateMove_accepts _ _ _ _ _ _ H) as [-> Hsafe].
  split; [reflexivity|].
  rewrite applyMove_enPassant, applyMove_board.
  now apply isKingInCheck_sentinel with (ep := enPassant v).
Qed.

(** King safety of the moves [getLegalMoves] lists: each notation it
    returns comes from a move after which the mover's king is not in
    check. *)
Lemma getLegalMoves_king_safe (v : Validator) (san : string) :
  In san (getLegalMoves v) ->
  exists m,
    san = toSan v m
    /\ isKingInCheck (enPassant v) (turn v) (makeMoveOnBoard (board v) m) = false.
Proof.
  unfold getLegalMoves, safeMoves; rewrite in_map_iff.
  intros (m & <- & Hin); exists m; split; [reflexivity|].
  apply in_flat_map in Hin as (sq & _ & Hin).
  destruct (cell (board v) (fst sq) (snd sq)) as [p|]; [|contradiction].
  destruct (negb (hasColor p (turn v))); [contradiction|].
  apply in_flat_map in Hin as (target & _ & Hin).
  destruct (isPseudoLegalMove (board v) (enPassant v) p sq target); simpl in Hin;
    [|contradiction].
  destruct (isKingInCheck (enPassant v) (turn v)
              (makeMoveOnBoard (board v) (mkMove sq target))) eqn:E;
    simpl in Hin; [contradiction|].
  destruct Hin as [<- | []]; exact E.
Qed.

(** ** Terminal conditions and their precedence *)

Lemma otherColor_color_name (c : Color) :
  otherColor (color_name c) = color_name (opposite c).
Proof. destruct c; reflexivity. Qed.

(** A side whose king is in check has a king, so it is one of the two
    colours. *)
Lemma isKingInCheck_turn_is_color (ep color : string) (b : Board) :
  isKingInCheck ep color b = true -> exists c, color = color_name c.
Proof.
  unfold isKingInCheck.
  destruct (findKingOnBoard color b) as [k|] eqn:E; [|discriminate].
  intros _. unfold findKingOnBoard in E. apply find_some in E as [_ E].
  destruct (cell b (fst k) (snd k)) as [p|]; [|discriminate].
  apply andb_true_iff in E as [_ E]. unfold hasColor in E.
  apply String.eqb_eq in E. exists (pcolor p); congruence.
Qed.

Lemma isCheckmate_in_check (v : Validator) :
  isCheckmate v = true -> isKingInCheck (enPassant v) (turn v) (board v) = true.
Proof.
  unfold isCheckmate.
  destruct (isKingInCheck (enPassant v) (turn v) (board v)); simpl; auto.
Qed.

(** Checkmate and stalemate exclude each other. *)
Lemma isCheckmate_not_isStalemate (v : Validator) :
  isCheckmate v = true -> isStalemate v = false.
Proof.
  intros H; apply isCheckmate_in_check in H.
  unfold isStalemate; rewrite H; reflexivity.
Qed.

(** The order of the tests.  [getGameState] tests [isCheckmate],
    [isStalemate], [isInsufficientMaterial], [isThreefoldRepetition] and
    [isFiftyMoveRule] in this order and answers with the first that holds;
    the four tests after [isCheckmate] answer with a draw, and
    [isCheckmate] answers with the colour opposite to the side to move.
    What the five tests themselves answer is another matter: see
    [single_king_never_mated] below. *)
Lemma getGameState_order (v : Validator) (fenHistory : list string) :
  getGameState v fenHistory =
    firstSatisfied
      [ (isCheckmate v, GameOver (otherColor (turn v)) "checkmate");
        (isStalemate v, drawBy "stalemate");
        (isInsufficientMaterial v, drawBy "insufficient_material");
        (isThreefoldRepetition v fenHistory, drawBy "threefold_repetition");
        (isFiftyMoveRule v, drawBy "fifty_move_rule") ]
      (InProgress (isKingInCheck (enPassant v) (turn v) (board v)))
  /\ (isCheckmate v = true ->
      exists mover,
        turn v = color_name (opposite mover)
        /\ getGameState v fenHistory = GameOver (color_name mover) "checkmate").
Proof.
  split.
  - unfold getGameState, firstSatisfied, drawBy, otherColor.
    destruct (isCheckmate v), (isStalemate v), (isInsufficientMaterial v),
      (isThreefoldRepetition v fenHistory), (isFiftyMoveRule v); reflexivity.
  - intros H. pose proof (isCheckmate_in_check v H) as Hc.
    destruct (isKingInCheck_turn_is_color _ _ _ Hc) as [c Hturn].
    exists (opposite c). split.
    + rewrite Hturn; destruct c; reflexivity.
    + unfold getGameState; rewrite H, Hturn; destruct c; reflexivity.
Qed.

(** Each of the five answers is given by some position, and an earlier
    test hides a later one.  The position that answers checkmate has two
    kings of the side to move, the one that answers stalemate a side field
    that names no colour. *)
Example getGameState_checkmate :
  getGameState (validatorOf TWO_KINGS_MATED) [] = GameOver "black" "checkmate".
Proof. vm_compute; reflexivity. Qed.

Example getGameState_stalemate_initial :
  getGameState (validatorOf INITIAL_FEN) [] = GameOver "draw" "stalemate".
Proof. vm_compute; reflexivity. Qed.

Example getGameState_insufficient :
  getGameState (validatorOf BARE_KINGS) [] = GameOver "draw" "insufficient_material".
Proof. vm_compute; reflexivity. Qed.

Example getGameState_threefold :
  getGameState (validatorOf START_WHITE) [START_WHITE; START_WHITE]
  = GameOver "draw" "threefold_repetition".
Proof. vm_compute; reflexivity. Qed.

Example getGameState_fifty :
  getGameState
    (validatorOf "rnbqkbnr/pppppppp/8/8/8/8/PPPPPPPP/RNBQKBNR white KQkq - 100 60") []
  = GameOver "draw" "fifty_move_rule".
Proof. vm_compute; reflexivity. Qed.

Example getGameState_insufficient_before_fifty :
  isFiftyMoveRule (validatorOf "4k3/8/8/8/8/8/8/4K3 white - - 100 90") = true
  /\ getGameState (validatorOf "4k3/8/8/8/8/8/8/4K3 white - - 100 90") []
     = GameOver "draw" "insufficient_material".
Proof. vm_compute; split; reflexivity. Qed.

Example getGameState_in_progress :
  getGameState (validatorOf START_WHITE) [] = InProgress false.
Proof. vm_compute; reflexivity. Qed.

(** ** Splitting and joining *)

Lemma split_on_not_nil (sep : ascii) (s : string) : split_on sep s <> [].
Proof.
  destruct s as [|ch rest]; simpl; [discriminate|].
  destruct (Ascii.eqb ch sep); [discriminate|].
  destruct (split_on sep rest); discriminate.
Qed.

(** The fields [split] returns do not contain the separator. *)
Lemma split_on_fields (sep : ascii) (s : string) :
  Forall (fun w => includes w sep = false) (split_on sep s).
Proof.
  induction s as [|ch rest IH]; simpl.
  - constructor; [reflexivity|constructor].
  - destruct (Ascii.eqb ch sep) eqn:E.
    + constructor; [reflexivity|assumption].
    + destruct (split_on sep rest) as [|w ws].
      * constructor; [simpl; rewrite E; reflexivity|constructor].
      * inversion IH; subst. constructor; [simpl; rewrite E|]; assumption.
Qed.

Lemma split_on_no_separator (sep : ascii) (p : string) :
  includes p sep = false -> split_on sep p = [p].
Proof.
  induction p as [|ch rest IH]; simpl; [reflexivity|].
  intros H; apply orb_false_iff in H as [E H].
  rewrite E, (IH H); reflexivity.
Qed.

Lemma split_on_append (sep : ascii) (p t : string) :
  includes p sep = false ->
  split_on sep (p ++ String sep t) = p :: split_on sep t.
Proof.
  induction p as [|ch rest IH]; simpl.
  - intros _; rewrite Ascii.eqb_refl; reflexivity.
  - intros H; apply orb_false_iff in H as [E H].
    rewrite E, (IH H); reflexivity.
Qed.

(** [split] undoes [join] on fields without the separator. *)
Lemma split_on_join (sep : ascii) (parts : list string) :
  parts <> [] ->
  Forall (fun w => includes w sep = false) parts ->
  split_on sep (join_with (String sep EmptyString) parts) = parts.
Proof.
  induction parts as [|p rest IH]; [congruence|].
  intros _ H; inversion H as [|? ? Hp Hrest]; subst.
  destruct rest as [|q rest].
  - simpl; now apply split_on_no_separator.
  - change (join_with (String sep EmptyString) (p :: q :: rest))
      with (p ++ String sep (join_with (String sep EmptyString) (q :: rest)))%string.
    rewrite split_on_append by assumption.
    rewrite IH; [reflexivity|discriminate|assumption].
Qed.

Lemma fenFields_fields (n : nat) (f : string) :
  Forall (fun w => includes w " " = false) (fenFields n f).
Proof.
  unfold fenFields. pose proof (split_on_fields " " f) as H.
  revert n; induction H as [|w ws Hw _ IH]; intros [|n]; simpl;
    constructor; auto.
Qed.

(** Two position strings have the same key exactly when their first three
    fields are the same. *)
Lemma positionKey_eq_iff (f g : string) :
  positionKey f = positionKey g <-> fenFields 3 f = fenFields 3 g.
Proof.
  unfold positionKey; fold (fenFields 3 f) (fenFields 3 g).
  split; [|intros ->; reflexivity].
  intros H.
  assert (Hne : forall s, fenFields 3 s <> []).
  { intros s; unfold fenFields.
    pose proof (split_on_not_nil " " s).
    destruct (split_on " " s); [congruence|discriminate]. }
  rewrite <- (split_on_join " " (fenFields 3 f)), <- (split_on_join " " (fenFields 3 g));
    auto using fenFields_fields.
  now rewrite H.
Qed.

Lemma positionKey_eqb_sameFields (f g : string) :
  String.eqb (positionKey f) (positionKey g) = sameFields 3 f g.
Proof.
  unfold sameFields.
  destruct (list_eq_dec string_dec (fenFields 3 f) (fenFields 3 g)) as [E|E].
  - apply String.eqb_eq, positionKey_eq_iff, E.
  - apply String.eqb_neq; intros H; apply E, positionKey_eq_iff, H.
Qed.

(** ** Threefold repetition *)

Lemma isThreefoldRepetition_occurrences (v : Validator) (fenHistory : list string) :
  isThreefoldRepetition v fenHistory = (3 <=? occurrences 3 (fen v) fenHistory)%nat.
Proof.
  unfold isThreefoldRepetition, occurrences.
  f_equal.
  change (positionKey (fen v) :: map positionKey fenHistory)
    with (map positionKey (fen v :: fenHistory)).
  generalize (fen v :: fenHistory) as l.
  induction l as [|f l IH]; simpl; [reflexivity|].
  rewrite positionKey_eqb_sameFields.
  destruct (sameFields 3 f (fen v)); simpl; rewrite IH; reflexivity.
Qed.

(** C6, as the validator has it.  A position is reported as a threefold
    repetition exactly when the triple (board layout, side to move, castling
    rights) of its position string occurs three or more times among the
    current position string and the history; the en-passant field is not
    compared. *)
Theorem isThreefoldRepetition_three_fields (v : Validator) (fenHistory : list string) :
  isThreefoldRepetition v fenHistory = true
  <-> (3 <= occurrences 3 (fen v) fenHistory)%nat.
Proof.
  rewrite isThreefoldRepetition_occurrences. apply Nat.leb_le.
Qed.

(** C6, as stated, fails: the position after 1.e4 with target e3 and two
    earlier positions that differ from it in the en-passant field are
    reported as a threefold repetition, although the four-field tuple of the
    current position occurs once. *)
Lemma isThreefoldRepetition_ignores_enPassant :
  ~ (isThreefoldRepetition (validatorOf AFTER_E4) EARLIER = true
     <-> (3 <= occurrences 4 (fen (validatorOf AFTER_E4)) EARLIER)%nat).
Proof.
  assert (H1 : isThreefoldRepetition (validatorOf AFTER_E4) EARLIER = true)
    by (vm_compute; reflexivity).
  assert (H2 : occurrences 4 (fen (validatorOf AFTER_E4)) EARLIER = 1%nat)
    by (vm_compute; reflexivity).
  rewrite H2. intros [H _]. specialize (H H1). lia.
Qed.

(** ** The orchestrator's turn *)

Section OrchestratorProperties.

Variable settings : Settings.
Variable agents : Agents.

Local Abbreviation status_of a := (Store.status (store a)).
Local Abbreviation counter_of a p := (retriesOf (hallucinationRetries a) p).

(** With [gameState] undefined the turn ends where it reads
    [gameState.fen]: nothing is set and no request is made. *)
Lemma executeTurn_undefined (snap a : Arena) (p : PlayerId) :
  executeTurn settings agents None snap a p = a.
Proof. reflexivity. Qed.

(** A position that cannot be drawn ends the turn after the line that
    announces it: no adapter, no override, no request. *)
Lemma executeTurn_prompt_raises (gs : Store.State) (snap a : Arena)
    (p : PlayerId) (v : Validator) (inCheck : bool) :
  newValidator (Store.fen gs) = Some v ->
  getGameState v [] = InProgress inCheck ->
  ContextBuilder.buildPrompt (Store.fen gs) = None ->
  executeTurn settings agents (Some gs) snap a p
  = addLog a TURN
      (playerName settings p ++ "'s turn (" ++ Store.turn gs ++ ")...")
      (Some (playerName settings p)).
Proof. intros Hv Hg Hp; unfold executeTurn; rewrite Hv, Hg, Hp; reflexivity. Qed.

Lemma executeTurn_reachesAgent (gameState : option Store.State)
    (snap a : Arena) (p : PlayerId) (v : Validator) :
  reachesAgent agents gameState snap p v ->
  exists gs,
    gameState = Some gs
    /\ executeTurn settings agents gameState snap a p =
       agentTurn settings agents snap
         (addLog a TURN
            (playerName settings p ++ "'s turn (" ++ Store.turn gs ++ ")...")
            (Some (playerName settings p)))
         v p.
Proof.
  intros ((gs & -> & Hv & Hp) & [c Hg] & Ha & Ho).
  exists gs; split; [reflexivity|].
  unfold executeTurn, playTurn; rewrite Hv, Hg, Hp, Ha; simpl.
  destruct (directorOverride snap) as [[mv q]|]; [rewrite Ho|]; reflexivity.
Qed.

(** Intercepting the prompt touches the log and the director prompt
    only. *)
Lemma interceptPrompt_frame (snap a : Arena) (p : PlayerId) :
  store (interceptPrompt settings snap a p) = store a
  /\ hallucinationRetries (interceptPrompt settings snap a p) = hallucinationRetries a
  /\ requests (interceptPrompt settings snap a p) = requests a
  /\ isProcessing (interceptPrompt settings snap a p) = isProcessing a.
Proof. unfold interceptPrompt; destruct (directorPrompt snap) as [[|c s]|]; auto. Qed.

(** The ceiling branch: the first move is rejected and the counter of the
    render has reached the ceiling. *)
Lemma retryTurn_ceiling (snap a : Arena) (v : Validator) (error : string)
    (p : PlayerId) :
  maxHallucinationRetries settings <= counter_of snap p ->
  let a' := retryTurn settings agents snap a v error p in
  status_of a' = WAITING_DIRECTOR
  /\ hallucinationRetries a' = hallucinationRetries a
  /\ requests a' = requests a
  /\ isProcessing a' = false
  /\ Store.fen (store a') = Store.fen (store a).
Proof.
  intros H; unfold retryTurn.
  apply Z.leb_le in H; rewrite H; simpl; auto.
Qed.

Lemma catchError_outcome (a : Arena) (message : string) (p : PlayerId) :
  0 < maxHallucinationRetries settings ->
  let a' := catchError settings a message p in
  status_of a' = ERROR
  /\ hallucinationRetries a' = hallucinationRetries a
  /\ requests a' = requests a
  /\ isProcessing a' = false
  /\ Store.fen (store a') = Store.fen (store a).
Proof.
  intros H; unfold catchError.
  apply Z.ltb_lt in H; rewrite H; simpl; auto.
Qed.

(** Closes a goal about a turn that ends in the [catch] block, given that
    the ceiling is positive. *)
Ltac by_catchError Hpos :=
  unfold catchError; simpl; rewrite ?Hpos; simpl; auto.

(** The corrective branch with a second reply that is rejected too. *)
Lemma retryTurn_rejected (snap a : Arena) (v : Validator) (error : string)
    (p : PlayerId) :
  0 <= counter_of snap p < maxHallucinationRetries settings ->
  rejectedReply v (complete agents (requests a)) ->
  let a' := retryTurn settings agents snap a v error p in
  status_of a' = ERROR
  /\ hallucinationRetries a' = hallucinationRetries a
  /\ requests a' = S (requests a)
  /\ isProcessing a' = false
  /\ Store.fen (store a') = Store.fen (store a).
Proof.
  intros [H0 H] Hr; unfold retryTurn.
  assert (Hpos : (0 <? maxHallucinationRetries settings) = true)
    by (apply Z.ltb_lt; lia).
  apply Z.leb_gt in H; rewrite H.
  unfold request; simpl.
  destruct (complete agents (requests a)) as [msg | move thought trash];
    [by_catchError Hpos|].
  simpl in Hr.
  destruct move as [[|c san]|]; try by_catchError Hpos.
  unfold moveText.
  destruct (validateMove v (String c san)) as [[err | m cap promo | m side] v2];
    simpl in Hr; try discriminate.
  by_catchError Hpos.
Qed.

(** The corrective branch with a second reply that is accepted. *)
Lemma retryTurn_accepted (snap a : Arena) (v : Validator) (error san : string)
    (p : PlayerId) :
  counter_of snap p < maxHallucinationRetries settings ->
  repliesMove (complete agents (requests a)) san ->
  valid (fst (validateMove v san)) = true ->
  let a' := retryTurn settings agents snap a v error p in
  status_of a' = status_of a
  /\ counter_of a' p = counter_of a p + 1
  /\ counter_of a' (otherPlayer p) = counter_of a (otherPlayer p)
  /\ requests a' = S (requests a)
  /\ Store.fen (store a') = fen (snd (validateMove v san)).
Proof.
  intros H (Hne & thought & trash & Hr) Hvalid; unfold retryTurn.
  apply Z.leb_gt in H; rewrite H.
  unfold request; simpl; rewrite Hr.
  destruct san as [|c san]; [congruence|]; simpl.
  destruct (validateMove v (String c san)) as [[err | m cap promo | m side] v2];
    simpl in Hvalid; try discriminate;
    destruct thought as [[|c' t]|]; destruct p; simpl; auto.
Qed.

(** The first reply is accepted. *)
Lemma agentTurn_accepted (snap a : Arena) (v : Validator) (p : PlayerId)
    (san : string) :
  repliesMove (complete agents (requests a)) san ->
  valid (fst (validateMove v san)) = true ->
  let a' := agentTurn settings agents snap a v p in
  status_of a' = status_of a
  /\ counter_of a' p = 0
  /\ counter_of a' (otherPlayer p) = counter_of a (otherPlayer p)
  /\ requests a' = S (requests a)
  /\ Store.fen (store a') = fen (snd (validateMove v san)).
Proof.
  intros (Hne & thought & trash & Hr) Hvalid; unfold agentTurn; cbv zeta.
  destruct (interceptPrompt_frame snap a p) as (Hg & Hh & Hq & _).
  unfold request; rewrite Hq, Hr.
  destruct san as [|c san]; [congruence|]; unfold moveText.
  destruct (validateMove v (String c san)) as [[err | m cap promo | m side] v2];
    simpl in Hvalid; try discriminate;
    destruct thought as [[|c1 t1]|]; destruct trash as [[|c2 t2]|];
    destruct p; simpl; rewrite ?Hg, ?Hh; auto.
Qed.

(** The first reply is rejected by the validator: the turn continues in
    the corrective branch, from a state that differs from [a] in its log,
    its director prompt and its request count only. *)
Lemma agentTurn_rejected (snap a : Arena) (v : Validator) (p : PlayerId)
    (san : string) :
  repliesMove (complete agents (requests a)) san ->
  valid (fst (validateMove v san)) = false ->
  exists a1 error,
    agentTurn settings agents snap a v p = retryTurn settings agents snap a1 v error p
    /\ store a1 = store a
    /\ hallucinationRetries a1 = hallucinationRetries a
    /\ requests a1 = S (requests a).
Proof.
  intros (Hne & thought & trash & Hr) Hvalid; unfold agentTurn; cbv zeta.
  destruct (interceptPrompt_frame snap a p) as (Hg & Hh & Hq & _).
  unfold request; rewrite Hq, Hr.
  destruct san as [|c san]; [congruence|]; unfold moveText.
  pose proof (validateMove_invalid_frame v (String c san) Hvalid) as Hframe.
  destruct (validateMove v (String c san)) as [[err | m cap promo | m side] v2];
    simpl in Hvalid, Hframe; try discriminate.
  eexists _, err; split; [reflexivity|].
  destruct thought as [[|c1 t1]|]; simpl; rewrite ?Hg, ?Hh; auto.
Qed.

(** The counter of the other player is never written. *)
Lemma retryTurn_other_counter (snap a : Arena) (v : Validator) (error : string)
    (p : PlayerId) :
  counter_of (retryTurn settings agents snap a v error p) (otherPlayer p)
  = counter_of a (otherPlayer p).
Proof.
  unfold retryTurn, request, catchError, moveText.
  destruct (0 <? maxHallucinationRetries settings);
    destruct (maxHallucinationRetries settings <=? counter_of snap p);
    try reflexivity;
    (simpl;
     destruct (complete agents (requests a)) as [msg | [[|c san]|] thought trash];
     try reflexivity;
     destruct (validateMove v (String c san)) as [[err | m cap promo | m side] v2];
     try reflexivity;
     destruct thought as [[|c1 t1]|]; destruct p; reflexivity).
Qed.

Lemma agentTurn_other_counter (snap a : Arena) (v : Validator) (p : PlayerId) :
  counter_of (agentTurn settings agents snap a v p) (otherPlayer p)
  = counter_of a (otherPlayer p).
Proof.
  unfold agentTurn; cbv zeta.
  destruct (interceptPrompt_frame snap a p) as (Hg & Hh & Hq & _).
  unfold request, catchError, moveText; rewrite Hq.
  destruct (0 <? maxHallucinationRetries settings);
    (destruct (complete agents (requests a)) as [msg | [[|c san]|] thought trash];
     try (simpl; rewrite ?Hh; reflexivity);
     try (destruct thought as [[|c1 t1]|]; simpl; rewrite ?Hh; reflexivity);
     destruct (validateMove v (String c san)) as [[err | m cap promo | m side] v2];
     [ rewrite retryTurn_other_counter;
       destruct thought as [[|c1 t1]|]; simpl; rewrite ?Hh; reflexivity
     | destruct thought as [[|c1 t1]|]; destruct trash as [[|c2 t2]|];
       destruct p; simpl; rewrite ?Hh; reflexivity
     | destruct thought as [[|c1 t1]|]; destruct trash as [[|c2 t2]|];
       destruct p; simpl; rewrite ?Hh; reflexivity ]).
Qed.

(** When the corrective branch does not accept a move, the counters stay
    as they were. *)
Lemma retryTurn_counters_kept (snap a : Arena) (v : Validator) (error : string)
    (p : PlayerId) :
  maxHallucinationRetries settings <= counter_of snap p
  \/ rejectedReply v (complete agents (requests a)) ->
  hallucinationRetries (retryTurn settings agents snap a v error p)
  = hallucinationRetries a.
Proof.
  intros H; unfold retryTurn, request, catchError, moveText.
  destruct (0 <? maxHallucinationRetries settings);
    (destruct (maxHallucinationRetries settings <=? counter_of snap p) eqn:E;
     [reflexivity|];
     destruct H as [H | H]; [apply Z.leb_le in H; congruence|];
     simpl;
     destruct (complete agents (requests a)) as [msg | [[|c san]|] thought trash];
     try reflexivity;
     simpl in H;
     destruct (validateMove v (String c san)) as [[err | m cap promo | m side] v2];
     simpl in H; try discriminate; reflexivity).
Qed.

End OrchestratorProperties.

(** ** The hook as it is written *)

(** The store object has the actions the hook takes from it, and no key
    named [gameState]. *)
Example store_has_no_gameState :
  Store.hasKey "gameState" = false
  /\ forallb Store.hasKey
       ["setGameState"; "advanceTurn"; "resetGame"; "setGameStatus";
        "setGameResult"] = true
  /\ Store.hasKey "fen" = true /\ Store.hasKey "status" = true.
Proof. vm_compute; repeat split; reflexivity. Qed.

(** The variable [gameState] of the hook is undefined, whatever the store
    holds. *)
Lemma destructureGameState_undefined (s : Store.State) :
  destructureGameState s = None.
Proof. reflexivity. Qed.

(** Every render of the hook raises: the component that calls it gets no
    action to call, and no effect of the hook ever runs. *)
Lemma useAIOrchestrator_raises (settings : Settings) (agents : Agents)
    (snap : Arena) :
  useAIOrchestrator settings agents snap = None.
Proof. reflexivity. Qed.

(** ** Escalation after a rejected move *)

(** What a turn does where the variable [gameState] is defined.  With
    ceiling N, when the agent's move is rejected and the agent's counter has
    already reached N, the status becomes [WAITING_DIRECTOR] after that
    single request; when the counter is below N and the corrective reply is
    rejected too, the status becomes [ERROR] after the two requests. *)
Lemma executeTurn_rejected_move (settings : Settings) (agents : Agents)
    (gameState : option Store.State) (snap a : Arena) (p : PlayerId)
    (v : Validator) (san : string) :
  reachesAgent agents gameState snap p v ->
  repliesMove (complete agents (requests a)) san ->
  valid (fst (validateMove v san)) = false ->
  0 <= retriesOf (hallucinationRetries snap) p ->
  let a' := executeTurn settings agents gameState snap a p in
  let ceilingReached :=
    maxHallucinationRetries settings <= retriesOf (hallucinationRetries snap) p in
  let retryRejected := rejectedReply v (complete agents (S (requests a))) in
  (ceilingReached ->
   Store.status (store a') = WAITING_DIRECTOR /\ requests a' = S (requests a))
  /\ (~ ceilingReached -> retryRejected ->
      Store.status (store a') = ERROR /\ requests a' = S (S (requests a))).
Proof.
  intros Hreach Hfirst Hinvalid Hnonneg a' ceilingReached retryRejected.
  destruct (executeTurn_reachesAgent settings agents gameState snap a p v Hreach)
    as (gs & _ & E).
  subst a'; rewrite E; clear E.
  match goal with |- context [agentTurn _ _ _ ?x _ _] => set (a0 := x) end.
  assert (Hq0 : requests a0 = requests a) by reflexivity.
  rewrite <- Hq0 in Hfirst.
  destruct (agentTurn_rejected settings agents snap a0 v p san Hfirst Hinvalid)
    as (a1 & error & -> & Hg & Hh & Hq).
  subst retryRejected; rewrite <- Hq0, <- Hq.
  split.
  - intros H. destruct (retryTurn_ceiling settings agents snap a1 v error p H)
      as (H1 & _ & H2 & _); auto.
  - intros H Hr. subst ceilingReached.
    destruct (retryTurn_rejected settings agents snap a1 v error p) as (H1 & _ & H2 & _);
      auto; lia.
Qed.

(** C2, which the code does not meet.  The ceiling is 3, the counter of
    player 1 is 0, the position is the starting layout, and the agent
    answers [e5] twice; both answers are rejected.  As the hook is written,
    the variable [gameState] is undefined: the render raises, and a turn,
    were one run, would end where it reads [gameState.fen], with no request
    made and the status left as it is.  With [gameState] bound to the
    record of the store, the turn makes its two requests and sets the
    status [ERROR], not [WAITING_DIRECTOR]. *)
Theorem retry_rejected_never_waits_for_director :
  let agents := scripted ["e5"; "e5"] in
  let a := arenaAt START_WHITE RUNNING 0 in
  let written :=
    executeTurn defaultSettings agents (destructureGameState (store a)) a a player1 in
  let bound := executeTurn defaultSettings agents (Some (store a)) a a player1 in
  maxHallucinationRetries defaultSettings = 3
  /\ valid (fst (validateMove (validatorOf START_WHITE) "e5")) = false
  /\ useAIOrchestrator defaultSettings agents a = None
  /\ written = a
  /\ Store.status (store bound) = ERROR
  /\ requests bound = 2%nat
  /\ retriesOf (hallucinationRetries bound) player1 = 0.
Proof. vm_compute; repeat split; reflexivity. Qed.

(** A position of fewer than eight ranks, which the validator reads, ends
    the turn in [buildPrompt], whatever the agent would answer: no request
    is made and no status is set. *)
Example executeTurn_short_position :
  let a := arenaAt "4k3/8/8/R3K2R white - - 0 1" RUNNING 3 in
  let a' := executeTurn defaultSettings (scripted ["Rh8"; "Rh8"]) (Some (store a)) a a
              player1 in
  option_map (fun v => getGameState v []) (newValidator (Store.fen (store a)))
  = Some (InProgress false)
  /\ requests a' = 0%nat
  /\ Store.status (store a') = RUNNING
  /\ logs a' = [(TURN, "Arrogant Grandmaster's turn (white)...",
                 Some "Arrogant Grandmaster")].
Proof. vm_compute; repeat split; reflexivity. Qed.

(** ** The hallucination counters *)

(** What a turn that reaches the agent does to the counters where the
    variable [gameState] is defined.  The counter of the player to move
    becomes 0 when the first move is accepted; it grows by one when the
    first move is rejected, the counter is below the ceiling and the
    corrective move is accepted; it stays as it is when the first move is
    rejected and either the ceiling is reached or the corrective reply is
    rejected too.  The other player's counter never changes. *)
Lemma executeTurn_counter_cases (settings : Settings) (agents : Agents)
    (gameState : option Store.State) (snap a : Arena) (p : PlayerId)
    (v : Validator) :
  reachesAgent agents gameState snap p v ->
  let a' := executeTurn settings agents gameState snap a p in
  let first := complete agents (requests a) in
  let second := complete agents (S (requests a)) in
  let counter x q := retriesOf (hallucinationRetries x) q in
  counter a' (otherPlayer p) = counter a (otherPlayer p)
  /\ (forall san,
        repliesMove first san -> valid (fst (validateMove v san)) = true ->
        counter a' p = 0)
  /\ (forall san san2,
        repliesMove first san -> valid (fst (validateMove v san)) = false ->
        counter snap p < maxHallucinationRetries settings ->
        repliesMove second san2 -> valid (fst (validateMove v san2)) = true ->
        counter a' p = counter a p + 1)
  /\ (forall san,
        repliesMove first san -> valid (fst (validateMove v san)) = false ->
        maxHallucinationRetries settings <= counter snap p
        \/ rejectedReply v second ->
        counter a' p = counter a p).
Proof.
  intros Hreach a' first second counter.
  destruct (executeTurn_reachesAgent settings agents gameState snap a p v Hreach)
    as (gs & _ & E).
  subst a' counter; rewrite E; clear E.
  match goal with |- context [agentTurn _ _ _ ?x _ _] => set (a0 := x) end.
  assert (Hq0 : requests a0 = requests a) by reflexivity.
  assert (Hh0 : hallucinationRetries a0 = hallucinationRetries a) by reflexivity.
  subst first second; rewrite <- Hq0, <- Hh0.
  split; [apply agentTurn_other_counter|].
  split; [|split].
  - intros san H1 H2.
    destruct (agentTurn_accepted settings agents snap a0 v p san H1 H2)
      as (_ & H & _); exact H.
  - intros san san2 H1 H2 Hlt H3 H4.
    destruct (agentTurn_rejected settings agents snap a0 v p san H1 H2)
      as (a1 & error & -> & Hg & Hh & Hq).
    rewrite <- Hq in H3.
    destruct (retryTurn_accepted settings agents snap a1 v error san2 p Hlt H3 H4)
      as (_ & H & _).
    rewrite H, Hh; reflexivity.
  - intros san H1 H2 H3.
    destruct (agentTurn_rejected settings agents snap a0 v p san H1 H2)
      as (a1 & error & -> & Hg & Hh & Hq).
    rewrite <- Hq in H3.
    rewrite (retryTurn_counters_kept settings agents snap a1 v error p H3), Hh.
    reflexivity.
Qed.

(** C7, which the code does not meet.  On the starting layout the
    validator rejects [e5] and accepts [e4].  As the hook is written, the
    variable [gameState] is undefined and no turn changes a counter: after
    the rejected [e5] the counter of player 1 is what it was.  With
    [gameState] bound to the record of the store, a corrective move that is
    accepted does not reset the counter (from 1 it goes to 2), and two
    rejected attempts in one turn do not increment it (from 0 it stays
    0). *)
Theorem counter_neither_reset_nor_incremented :
  let v := validatorOf START_WHITE in
  let counter x := retriesOf (hallucinationRetries x) player1 in
  let turnOf gameStateOf script n :=
    let a := arenaAt START_WHITE RUNNING n in
    executeTurn defaultSettings (scripted script) (gameStateOf (store a)) a a
                player1 in
  valid (fst (validateMove v "e5")) = false
  /\ valid (fst (validateMove v "e4")) = true
  /\ counter (turnOf destructureGameState ["e5"; "e5"] 0) = 0
  /\ counter (turnOf destructureGameState ["e5"; "e4"] 1) = 1
  /\ counter (turnOf Some ["e5"; "e4"] 1) = 2
  /\ counter (turnOf Some ["e5"; "e5"] 0) = 0.
Proof. vm_compute; repeat split; reflexivity. Qed.

(** ** Forced moves *)

(** With [gameState] undefined, [forceMove] records the override and
    raises where it reads [gameState.status]: nothing else is set. *)
Lemma forceMove_undefined (settings : Settings) (agents : Agents)
    (snap a : Arena) (mv : string) (p : PlayerId) :
  forceMove settings agents None snap a mv p = setDirectorOverride a (Some (mv, p)).
Proof. reflexivity. Qed.

(** Outside a pause of the player concerned, [forceMove] only records the
    override. *)
Lemma forceMove_records (settings : Settings) (agents : Agents)
    (gs : Store.State) (snap a : Arena) (mv : string) (p : PlayerId) :
  Store.status gs <> PAUSED \/ activePlayerRef a <> Some p ->
  forceMove settings agents (Some gs) snap a mv p
  = setDirectorOverride a (Some (mv, p)).
Proof.
  intros H; unfold forceMove; cbn [setDirectorOverride activePlayerRef].
  destruct (Store.status gs); simpl; try reflexivity.
  destruct H as [H | H]; [congruence|].
  destruct (activePlayerRef a) as [q|]; [|reflexivity].
  destruct q, p; simpl; try reflexivity; congruence.
Qed.

(** During a pause of the player concerned, [forceMove] runs the turn of
    the current render, which does not see the override just recorded. *)
Lemma forceMove_paused (settings : Settings) (agents : Agents)
    (gs : Store.State) (snap a : Arena) (mv : string) (p : PlayerId) :
  Store.status gs = PAUSED -> activePlayerRef a = Some p ->
  forceMove settings agents (Some gs) snap a mv p
  = executeTurn settings agents (Some gs) snap
      (setDirectorOverride a (Some (mv, p))) p.
Proof.
  intros Hs Hp; unfold forceMove; cbn [setDirectorOverride activePlayerRef].
  rewrite Hs, Hp. destruct p; reflexivity.
Qed.

(** The override branch of [executeTurn] with a move the validator
    rejects, where the variable [gameState] is defined and the turn gets as
    far as the override. *)
Lemma executeTurn_override_rejected (settings : Settings) (agents : Agents)
    (gs : Store.State) (snap a : Arena) (p : PlayerId) (v : Validator)
    (mv : string) :
  newValidator (Store.fen gs) = Some v ->
  (exists inCheck, getGameState v [] = InProgress inCheck) ->
  ContextBuilder.buildPrompt (Store.fen gs) = Some tt ->
  adapterCreated agents = true ->
  directorOverride snap = Some (mv, p) ->
  valid (fst (validateMove v mv)) = false ->
  let a' := executeTurn settings agents (Some gs) snap a p in
  store a' = store a
  /\ requests a' = requests a
  /\ hallucinationRetries a' = hallucinationRetries a
  /\ directorOverride a' = None
  /\ exists error,
       fst (validateMove v mv) = Invalid error
       /\ In (LOG_ERROR, ("Director override invalid: " ++ error)%string,
              Some (playerName settings p)) (logs a').
Proof.
  intros Hv [c Hg] Hp Ha Ho Hinvalid.
  unfold executeTurn, playTurn; rewrite Hv, Hg, Hp, Ha, Ho; simpl.
  assert (Hpp : player_eqb p p = true) by (destruct p; reflexivity).
  rewrite Hpp.
  destruct (validateMove v mv) as [[err | m cap promo | m side] v2];
    simpl in Hinvalid; try discriminate.
  simpl. repeat split. exists err; split; [reflexivity|].
  apply in_or_app; right; left; reflexivity.
Qed.

(** C9, which the code does not meet.  The game is paused during a turn of
    player 1 on the starting layout, and the director forces [e5], which
    the validator rejects.  As the hook is written, the variable
    [gameState] is undefined: the render raises, so the component has no
    [forceMove] to call; the body of [forceMove] records the override and
    raises at [gameState.status], with nothing logged.  With [gameState]
    bound to the record of the store, [forceMove] runs the turn of the
    current render, which does not see the override: the agent is asked,
    its move [e4] is played and the position changes, and no error is
    logged. *)
Theorem forceMove_illegal_not_reported :
  let agents := scripted ["e4"] in
  let a := arenaOfPlayer1 START_WHITE PAUSED 0 in
  let written :=
    forceMove defaultSettings agents (destructureGameState (store a)) a a "e5"
              player1 in
  let bound := forceMove defaultSettings agents (Some (store a)) a a "e5" player1 in
  valid (fst (validateMove (validatorOf START_WHITE) "e5")) = false
  /\ useAIOrchestrator defaultSettings agents a = None
  /\ logs written = []
  /\ directorOverride written = Some ("e5", player1)
  /\ requests bound = 1%nat
  /\ Store.fen (store a) = START_WHITE
  /\ Store.fen (store bound)
     = "rnbqkbnr/pppppppp/8/8/4P3/8/PPPP1PPP/RNBQKBNR black KQkq - 5 1"
  /\ map (fun entry => fst (fst entry)) (logs bound) = [TURN; MOVE]
  /\ directorOverride bound = Some ("e5", player1).
Proof. vm_compute; repeat split; reflexivity. Qed.

(** Where [gameState] is defined and the game is not paused, the forced
    move waits for the next turn of the player; a terminal position, a
    position that cannot be drawn or an adapter that cannot be created end
    that turn before the override is looked at. *)
Example forceMove_override_not_reached :
  let agents := mkAgents false "Unknown provider type: custom"
                  (fun _ => Response (Some "e4") None None) in
  let a := arenaAt START_WHITE RUNNING 0 in
  let a1 := forceMove defaultSettings agents (Some (store a)) a a "e5" player1 in
  let a2 := executeTurn defaultSettings agents (Some (store a1)) a1 a1 player1 in
  directorOverride a1 = Some ("e5", player1)
  /\ Store.status (store a2) = ERROR
  /\ directorOverride a2 = Some ("e5", player1)
  /\ map (fun entry => fst (fst entry)) (logs a2) = [TURN; LOG_ERROR].
Proof. vm_compute; repeat split; reflexivity. Qed.

(** ** Numbers in position strings *)

Lemma includes_app (a b : string) (ch : ascii) :
  includes (a ++ b) ch = includes a ch || includes b ch.
Proof.
  induction a as [|c a IH]; cbn [String.append includes]; [reflexivity|].
  rewrite IH, orb_assoc; reflexivity.
Qed.


Lemma digits_prefix_uint (d : Decimal.uint) :
  digits_prefix (NilEmpty.string_of_uint d) = NilEmpty.string_of_uint d.
Proof. induction d; simpl; rewrite ?IHd; reflexivity. Qed.

Lemma has_hex_prefix_uint (d : Decimal.uint) :
  has_hex_prefix (NilEmpty.string_of_uint d) = false.
Proof. destruct d as [|d|d|d|d|d|d|d|d|d|d]; try reflexivity; destruct d; reflexivity. Qed.

Lemma includes_uint (d : Decimal.uint) (ch : ascii) :
  is_digit ch = false -> includes (NilEmpty.string_of_uint d) ch = false.
Proof.
  intros H; induction d; cbn [NilEmpty.string_of_uint includes];
    rewrite ?IHd; try reflexivity;
    rewrite orb_false_r; apply Ascii.eqb_neq; intros <-; discriminate H.
Qed.

(** [parseInt] reads back the digits of a decimal numeral. *)
Lemma parseInt_unsigned_uint (d : Decimal.uint) :
  d <> Decimal.Nil ->
  parseInt_unsigned (NilEmpty.string_of_uint d) = Some (Z.of_uint d).
Proof.
  intros Hd; unfold parseInt_unsigned.
  rewrite has_hex_prefix_uint, digits_prefix_uint.
  assert (H : digits_value (NilEmpty.string_of_uint d) = Some (Z.of_uint d)).
  { unfold digits_value, NilZero.uint_of_string.
    pose proof (NilEmpty.usu d) as U.
    destruct (NilEmpty.string_of_uint d) eqn:E.
    - destruct d; simpl in E; congruence.
    - rewrite U; reflexivity. }
  destruct (NilEmpty.string_of_uint d) eqn:E; [|exact H].
  destruct d; simpl in E; congruence.
Qed.

Lemma parseInt_unsigned_show (d : Decimal.uint) :
  parseInt_unsigned (NilZero.string_of_uint d) = Some (Z.of_uint d).
Proof.
  destruct d; try reflexivity;
    (unfold NilZero.string_of_uint; apply parseInt_unsigned_uint; discriminate).
Qed.

Lemma string_of_uint_head (d : Decimal.uint) :
  exists ch rest, NilZero.string_of_uint d = String ch rest /\ is_digit ch = true.
Proof. destruct d; simpl; eexists _, _; split; reflexivity. Qed.

(** [parseInt] reads the decimal numeral of an integer and rounds it. *)
Lemma parseInt_decimal (n : Z) : parseInt (decimal n) = Some (toNumber n).
Proof.
  unfold decimal. rewrite <- (DecimalZ.of_to n) at 2.
  destruct (Z.to_int n) as [d | d]; cbn [NilZero.string_of_int Z.of_int].
  - destruct (string_of_uint_head d) as (ch & rest & E & Hch).
    pose proof (parseInt_unsigned_show d) as P. rewrite E in *.
    unfold parseInt.
    assert (Hs : skip_spaces (String ch rest) = String ch rest).
    { cbn [skip_spaces].
      destruct ch as [[|] [|] [|] [|] [|] [|] [|] [|]]; try discriminate Hch;
        reflexivity. }
    rewrite Hs.
    destruct ch as [[|] [|] [|] [|] [|] [|] [|] [|]]; try discriminate Hch;
      rewrite P; reflexivity.
  - unfold parseInt.
    change (skip_spaces (String "-" (NilZero.string_of_uint d)))
      with (String "-" (NilZero.string_of_uint d)).
    cbv beta iota.
    rewrite parseInt_unsigned_show; reflexivity.
Qed.

Lemma decimal_no_char (n : Z) (ch : ascii) :
  is_digit ch = false -> Ascii.eqb "-" ch = false ->
  includes (decimal n) ch = false.
Proof.
  intros Hd Hm; unfold decimal.
  assert (H : forall d, includes (NilZero.string_of_uint d) ch = false).
  { intros d; destruct d;
      try (unfold NilZero.string_of_uint; apply includes_uint; exact Hd).
    cbn [NilZero.string_of_uint includes]. rewrite orb_false_r.
    apply Ascii.eqb_neq; intros <-; discriminate Hd. }
  destruct (Z.to_int n); cbn [NilZero.string_of_int includes];
    rewrite ?Hm, H; reflexivity.
Qed.

Lemma decimal_not_empty (n : Z) : decimal n <> EmptyString.
Proof.
  unfold decimal; destruct (Z.to_int n) as [d | d]; simpl; [|discriminate].
  destruct (string_of_uint_head d) as (ch & rest & E & _); rewrite E; discriminate.
Qed.

(** ** Numbers and numerals *)

Lemma pow2_53_INFINITY : 2 ^ 53 <= INFINITY.
Proof. unfold INFINITY; apply Z.pow_le_mono_r; lia. Qed.

Lemma toNumber_safe (n : Z) : Z.abs n < 2 ^ 53 -> toNumber n = n.
Proof.
  intros H; unfold toNumber. apply Z.ltb_lt in H; rewrite H; reflexivity.
Qed.

(** Past the safe integers a number is at least [2 ^ 53] in absolute
    value. *)
Lemma toNumber_large (n : Z) : 2 ^ 53 <= Z.abs n -> 2 ^ 53 <= Z.abs (toNumber n).
Proof.
  intros H; unfold toNumber.
  destruct (Z.abs n <? 2 ^ 53) eqn:E; [apply Z.ltb_lt in E; lia|].
  cbv zeta.
  set (a := Z.abs n) in *.
  set (e := Z.log2 a - 52).
  assert (Ha : 0 < a) by lia.
  assert (Hlog : 53 <= Z.log2 a) by (apply Z.log2_le_pow2; assumption).
  assert (He : 1 <= e) by (subst e; lia).
  assert (Hpe : 0 < 2 ^ e) by (apply Z.pow_pos_nonneg; lia).
  assert (Hq : 2 ^ 52 <= a / 2 ^ e).
  { apply Z.div_le_lower_bound; [exact Hpe|].
    rewrite <- Z.pow_add_r by lia.
    replace (e + 52) with (Z.log2 a) by (subst e; lia).
    apply Z.log2_spec; exact Ha. }
  match goal with
  | |- context [Z.min (?x * 2 ^ e) INFINITY] => set (q' := x)
  end.
  assert (Hq' : 2 ^ 52 <= q').
  { subst q'.
    match goal with |- context [if ?c then _ else _] => destruct c end; lia. }
  assert (Hprod : 2 ^ 53 <= q' * 2 ^ e).
  { change (2 ^ 53) with (2 ^ 52 * 2 ^ 1).
    apply Z.mul_le_mono_nonneg; try lia.
    apply Z.pow_le_mono_r; lia. }
  pose proof pow2_53_INFINITY as Hinf.
  assert (Hmin : 2 ^ 53 <= Z.min (q' * 2 ^ e) INFINITY) by lia.
  rewrite Z.abs_mul.
  rewrite (Z.abs_eq (Z.min _ _)) by lia.
  assert (Hsgn : Z.abs (Z.sgn n) = 1) by (destruct n; cbn in *; lia).
  rewrite Hsgn; lia.
Qed.

(** Only a safe integer itself reads as that safe integer. *)
Lemma toNumber_reads_safe (x d : Z) :
  Z.abs d < 2 ^ 53 -> toNumber x = d -> x = d.
Proof.
  intros Hd Hx.
  destruct (Z.lt_ge_cases (Z.abs x) (2 ^ 53)) as [H | H].
  - rewrite toNumber_safe in Hx; assumption.
  - apply toNumber_large in H; rewrite Hx in H; lia.
Qed.

Lemma shortestDigits_safe (d N : Z) (fuel : nat) :
  Z.abs d < 2 ^ 53 ->
  forall k, let '(s, k') := shortestDigits fuel d N k in s * 10 ^ (N - k') = d.
Proof.
  intros Hd; induction fuel as [|fuel IH]; intros k; cbn [shortestDigits].
  - rewrite Z.sub_diag; cbn; lia.
  - cbv zeta.
    destruct (toNumber (d / 10 ^ (N - k) * 10 ^ (N - k)) =? d) eqn:Elow;
      destruct (((d / 10 ^ (N - k) + 1 <? 10 ^ k)
                 && (toNumber ((d / 10 ^ (N - k) + 1) * 10 ^ (N - k)) =? d))%bool)
        eqn:Ehigh;
      cbn [andb];
      try (apply andb_true_iff in Ehigh as [_ Ehigh]);
      try (apply Z.eqb_eq, toNumber_reads_safe in Elow; [|exact Hd]);
      try (apply Z.eqb_eq, toNumber_reads_safe in Ehigh; [|exact Hd]);
      repeat match goal with
             | |- context [if ?c then _ else _] => destruct c
             end;
      try assumption.
    apply IH.
Qed.

Lemma writeDigits_safe (s k n d : Z) :
  0 < d < 2 ^ 53 -> s * 10 ^ (n - k) = d -> writeDigits s k n = decimal d.
Proof.
  intros Hd Hw; unfold writeDigits; rewrite Hw.
  assert (H : (d <? 10 ^ 21) = true).
  { apply Z.ltb_lt. assert (2 ^ 53 < 10 ^ 21) by (vm_compute; reflexivity). lia. }
  rewrite H; reflexivity.
Qed.

Lemma showPositive_safe (d : Z) : 0 < d < 2 ^ 53 -> showPositive d = decimal d.
Proof.
  intros Hd; unfold showPositive.
  assert (Habs : Z.abs d < 2 ^ 53) by lia.
  destruct (INFINITY <=? d) eqn:E;
    [apply Z.leb_le in E; pose proof pow2_53_INFINITY; lia|].
  destruct (toNumber (10 ^ digitCount d) =? d) eqn:E10.
  - apply Z.eqb_eq, toNumber_reads_safe in E10; [|exact Habs].
    apply writeDigits_safe; [exact Hd|].
    replace (digitCount d + 1 - 1) with (digitCount d) by lia. lia.
  - pose proof (shortestDigits_safe d (digitCount d)
                  (Z.to_nat (digitCount d)) Habs 1) as H.
    destruct (shortestDigits (Z.to_nat (digitCount d)) d (digitCount d) 1)
      as [s k].
    apply writeDigits_safe; assumption.
Qed.

(** A safe integer is printed as its decimal numeral. *)
Lemma show_Z_safe (n : Z) : Z.abs n <= MAX_SAFE_INTEGER -> show_Z n = decimal n.
Proof.
  unfold MAX_SAFE_INTEGER; intros H.
  unfold show_Z. rewrite toNumber_safe by lia.
  destruct n as [|p|p]; [reflexivity| |].
  - change (Z.pos p =? 0) with false. change (Z.pos p <? 0) with false.
    apply showPositive_safe; cbn [Z.abs] in H; lia.
  - change (Z.neg p =? 0) with false. change (Z.neg p <? 0) with true.
    rewrite showPositive_safe by (cbn [Z.abs Z.opp] in *; lia).
    reflexivity.
Qed.

(** [parseInt] undoes the printing of a safe integer. *)
Lemma parseInt_show_Z (n : Z) :
  Z.abs n <= MAX_SAFE_INTEGER -> parseInt (show_Z n) = Some n.
Proof.
  intros H; rewrite show_Z_safe, parseInt_decimal by exact H.
  rewrite toNumber_safe by (unfold MAX_SAFE_INTEGER in H; lia). reflexivity.
Qed.

(** What a printed number is made of: digits, a sign, a point, the mark
    of the exponent and the letters of [Infinity]. *)
Lemma writeDigits_no_char (s k n : Z) (ch : ascii) :
  is_digit ch = false -> includes "-.e+" ch = false ->
  includes (writeDigits s k n) ch = false.
Proof.
  intros Hd Hm. cbn [includes] in Hm.
  apply orb_false_iff in Hm as [Hminus Hm].
  apply orb_false_iff in Hm as [Hpoint Hm].
  apply orb_false_iff in Hm as [He Hm].
  apply orb_false_iff in Hm as [Hplus _].
  assert (Hdec : forall m, includes (decimal m) ch = false)
    by (intros m; apply decimal_no_char; assumption).
  unfold writeDigits. destruct (_ <? _); [apply Hdec|].
  pose proof (Hdec s) as Hs.
  destruct (decimal s) as [|first [|second others]]; [reflexivity| |];
    cbn [includes] in Hs |- *;
    repeat rewrite includes_app;
    cbn [includes String.append];
    repeat rewrite includes_app;
    cbn [includes];
    apply orb_false_iff in Hs as [Hfirst Hs];
    rewrite ?Hfirst, ?Hpoint, ?He, ?Hplus, ?Hdec; cbn [orb];
    try reflexivity.
  apply orb_false_iff in Hs as [Hsecond Hs].
  rewrite Hsecond, Hs; reflexivity.
Qed.

Lemma show_Z_no_char (n : Z) (ch : ascii) :
  is_digit ch = false -> includes "-.e+Infinity" ch = false ->
  includes (show_Z n) ch = false.
Proof.
  intros Hd Hm.
  assert (Hm' : includes "-.e+" ch = false).
  { cbn [includes] in Hm |- *.
    repeat (apply orb_false_iff in Hm as [? Hm]).
    repeat (apply orb_false_iff; split); first [assumption | reflexivity]. }
  assert (Hinf : includes "Infinity" ch = false).
  { cbn [includes] in Hm |- *.
    repeat (apply orb_false_iff in Hm as [? Hm]).
    repeat (apply orb_false_iff; split); first [assumption | reflexivity]. }
  assert (Hpos : forall d, includes (showPositive d) ch = false).
  { intros d; unfold showPositive.
    destruct (INFINITY <=? d); [exact Hinf|].
    destruct (_ =? d); [apply writeDigits_no_char; assumption|].
    destruct (shortestDigits _ _ _ _) as [s k].
    apply writeDigits_no_char; assumption. }
  unfold show_Z; cbv zeta.
  destruct (toNumber n =? 0).
  - cbn [includes]. rewrite orb_false_r.
    apply Ascii.eqb_neq; intros <-; discriminate Hd.
  - destruct (toNumber n <? 0); [|apply Hpos].
    cbn [String.append includes]. rewrite Hpos, orb_false_r.
    cbn [includes] in Hm'. apply orb_false_iff in Hm' as [H _]; exact H.
Qed.

Lemma show_Z_no_space (n : Z) : includes (show_Z n) " " = false.
Proof. apply show_Z_no_char; reflexivity. Qed.

(** ** Reading back the board part of a position string *)

(** The FEN letter of a legal piece is no separator and no digit, and
    stands for that piece. *)
Lemma charOfPiece_legal (p : Piece) :
  legalPiece p ->
  Ascii.eqb (charOfPiece p) "/" = false
  /\ is_digit (charOfPiece p) = false
  /\ Ascii.eqb (charOfPiece p) " " = false
  /\ pieceOfChar (charOfPiece p) = p.
Proof.
  destruct p as [t c]; unfold legalPiece; cbn [includes ptype]; intros H.
  repeat (apply orb_true_iff in H; destruct H as [H | H]);
    try discriminate H;
    apply Ascii.eqb_eq in H; subst t; destruct c; repeat split; reflexivity.
Qed.

(** A run of at most eight empty squares is one digit, which moves the
    file pointer by that many squares. *)
Lemma parseFen_loop_flush (e : Z) (s : string) (b : Board) (rank file : Z) :
  0 <= e <= 8 ->
  parseFen_loop (flushEmpty e ++ s) b rank file = parseFen_loop s b rank (file + e).
Proof.
  intros H.
  assert (C : e = 0 \/ e = 1 \/ e = 2 \/ e = 3 \/ e = 4 \/ e = 5 \/ e = 6 \/ e = 7 \/ e = 8)
    by lia.
  repeat (destruct C as [-> | C]); try subst e;
    try reflexivity.
  simpl. rewrite Z.add_0_r; reflexivity.
Qed.

Lemma set_nth_app (pre : Row) (x y : option Piece) (tl : Row) :
  set_nth (List.length pre) x (pre ++ y :: tl) = pre ++ x :: tl.
Proof. induction pre as [|h pre IH]; simpl; [|rewrite IH]; reflexivity. Qed.

Lemma upd_row_app (above : Board) (f : Row -> Row) (row : Row) (below : Board) :
  upd_row (List.length above) f (above ++ row :: below) = above ++ f row :: below.
Proof. induction above as [|h above IH]; simpl; [|rewrite IH]; reflexivity. Qed.

(** Writing a square of a board given by its rows above, the row itself
    and the rows below. *)
Lemma set_cell_app (above : Board) (pre : Row) (x y : option Piece) (tl : Row)
    (below : Board) :
  set_cell (above ++ (pre ++ y :: tl) :: below)
           (Z.of_nat (List.length above)) (Z.of_nat (List.length pre)) x
  = above ++ (pre ++ x :: tl) :: below.
Proof.
  unfold set_cell.
  assert (H : forall n, (Z.of_nat n <? 0) = false) by (intros n; apply Z.ltb_ge; lia).
  rewrite !H, !Nat2Z.id; simpl.
  rewrite upd_row_app, set_nth_app; reflexivity.
Qed.

Lemma string_app_assoc (a b c : string) :
  ((a ++ b) ++ c = a ++ (b ++ c))%string.
Proof. induction a as [|ch a IH]; simpl; [|rewrite IH]; reflexivity. Qed.

(** Reading back one rank.  [pre] holds the squares of the rank already
    serialized, the last [e] of them empty and not yet written as a digit;
    [cells] holds the squares still to come. *)
Lemma parseFen_loop_rank (cells : Row) :
  forall (pre : Row) (e : Z) (above below : Board) (rest : string),
    Forall (fun c => match c with Some p => legalPiece p | None => True end) cells ->
    (List.length pre + List.length cells <= 8)%nat ->
    (List.length above < 8)%nat ->
    0 <= e <= Z.of_nat (List.length pre) ->
    parseFen_loop (fenRank cells e ++ rest)
      (above ++ (pre ++ repeat None (List.length cells)) :: below)
      (Z.of_nat (List.length above)) (Z.of_nat (List.length pre) - e)
    = parseFen_loop rest
        (above ++ (pre ++ cells) :: below)
        (Z.of_nat (List.length above))
        (Z.of_nat (List.length pre + List.length cells)).
Proof.
  induction cells as [|c cells IH]; intros pre e above below rest Hlegal Hlen Habove He.
  - simpl in *. rewrite parseFen_loop_flush by lia.
    f_equal; lia.
  - inversion Hlegal as [|? ? Hc Hcells]; subst.
    destruct c as [p|].
    + cbn [fenRank].
      rewrite string_app_assoc.
      rewrite parseFen_loop_flush by (simpl in Hlen; lia).
      replace (Z.of_nat (List.length pre) - e + e) with (Z.of_nat (List.length pre)) by lia.
      destruct (charOfPiece_legal p Hc) as (Hslash & Hdigit & _ & Hback).
      cbn [String.append parseFen_loop].
      rewrite Hslash, Hdigit, Hback.
      assert (Hrank : (Z.of_nat (List.length above) <? 8) = true)
        by (apply Z.ltb_lt; lia).
      rewrite Hrank.
      cbn [repeat List.length].
      rewrite set_cell_app.
      specialize (IH (pre ++ [Some p]) 0 above below rest Hcells).
      rewrite <- !app_assoc in IH; cbn [app] in IH.
      rewrite length_app in IH; cbn [List.length] in IH.
      replace (Z.of_nat (List.length pre + 1) - 0)
        with (Z.of_nat (List.length pre) + 1) in IH by lia.
      rewrite IH by (simpl in Hlen; lia).
      f_equal; simpl; lia.
    + cbn [fenRank repeat List.length].
      specialize (IH (pre ++ [None]) (e + 1) above below rest Hcells).
      rewrite <- !app_assoc in IH; cbn [app] in IH.
      rewrite length_app in IH; cbn [List.length] in IH.
      replace (Z.of_nat (List.length pre + 1) - (e + 1))
        with (Z.of_nat (List.length pre) - e) in IH by lia.
      rewrite IH by (simpl in Hlen; lia).
      f_equal; simpl; lia.
Qed.

Lemma string_app_nil_r (a : string) : (a ++ EmptyString)%string = a.
Proof. induction a as [|ch a IH]; simpl; [|rewrite IH]; reflexivity. Qed.

(** Reading back the ranks that remain, onto a board whose ranks [above]
    are already read and whose other ranks are still empty. *)
Lemma parseFen_loop_rows (rows : list Row) :
  forall above : Board,
    rows <> [] ->
    Forall legalRow rows ->
    (List.length above + List.length rows <= 8)%nat ->
    parseFen_loop (fenRows rows)
      (above ++ repeat (repeat None 8%nat) (List.length rows))
      (Z.of_nat (List.length above)) 0
    = Some (above ++ rows).
Proof.
  induction rows as [|row rows IH]; intros above Hne Hlegal Hlen; [congruence|].
  inversion Hlegal as [|? ? [Hrow Hcells] Hrest]; subst.
  pose proof (parseFen_loop_rank row [] 0 above) as R.
  cbn [List.length app] in R. rewrite Hrow in R.
  change (Z.of_nat 0 - 0) with 0 in R.
  destruct rows as [|row2 rows].
  - cbn [fenRows repeat List.length].
    rewrite <- (string_app_nil_r (fenRank row 0)).
    rewrite R; [reflexivity|assumption|lia| |lia].
    simpl in Hlen; lia.
  - change (fenRows (row :: row2 :: rows))
      with (fenRank row 0 ++ String "/" (fenRows (row2 :: rows)))%string.
    change (repeat (repeat (@None Piece) 8%nat) (List.length (row :: row2 :: rows)))
      with (repeat (@None Piece) 8%nat
            :: repeat (repeat (@None Piece) 8%nat) (List.length (row2 :: rows))).
    rewrite R; [|assumption|lia| |lia]; [|simpl in Hlen; lia].
    cbn [parseFen_loop]. change (Ascii.eqb "/" "/") with true. cbv iota.
    specialize (IH (above ++ [row])).
    rewrite <- !app_assoc in IH; cbn [app] in IH.
    rewrite length_app in IH; cbn [List.length] in IH.
    replace (Z.of_nat (List.length above + 1)) with (Z.of_nat (List.length above) + 1)
      in IH by lia.
    apply IH; [discriminate|assumption|].
    simpl in Hlen |- *; lia.
Qed.

(** On an 8x8 board the two nested loops of [boardToFen] serialize the
    rows in order, with a separator between them. *)
Lemma fenRanks_fenRows (b : Board) :
  legalBoard b -> fenRanks b range8 = fenRows b.
Proof.
  intros [Hlen Hrows].
  destruct b as [|r0 [|r1 [|r2 [|r3 [|r4 [|r5 [|r6 [|r7 [|r8 b]]]]]]]]];
    try discriminate Hlen.
  repeat match goal with
         | H : Forall _ (_ :: _) |- _ => inversion H; clear H; subst
         end.
  repeat match goal with
         | H : legalRow ?r |- _ =>
             let L := fresh "L" in
             destruct H as [L _];
             destruct r as [|? [|? [|? [|? [|? [|? [|? [|? [|? ?]]]]]]]]];
             try discriminate L; clear L
         end.
  cbn [fenRanks fenRows range8 map].
  rewrite string_app_nil_r.
  reflexivity.
Qed.

(** [parseFen] reads a legal board back from its serialization. *)
Lemma parseFen_loop_fenRanks (b : Board) :
  legalBoard b -> parseFen_loop (fenRanks b range8) emptyBoard 0 0 = Some b.
Proof.
  intros H. rewrite (fenRanks_fenRows b H). destruct H as [Hlen Hrows].
  pose proof (parseFen_loop_rows b []) as R.
  cbn [app List.length] in R. rewrite Hlen in R.
  apply R; [|assumption|lia].
  destruct b; [discriminate Hlen|discriminate].
Qed.

Lemma flushEmpty_no_space (e : Z) : includes (flushEmpty e) " " = false.
Proof. unfold flushEmpty; destruct (0 <? e); [apply show_Z_no_space|reflexivity]. Qed.

Lemma fenRank_no_space (cells : Row) :
  forall e,
    Forall (fun c => match c with Some p => legalPiece p | None => True end) cells ->
    includes (fenRank cells e) " " = false.
Proof.
  induction cells as [|c cells IH]; intros e H; cbn [fenRank].
  - apply flushEmpty_no_space.
  - inversion H as [|? ? Hc Hcells]; subst. destruct c as [p|]; [|auto].
    rewrite includes_app, flushEmpty_no_space. cbn [includes orb].
    destruct (charOfPiece_legal p Hc) as (_ & _ & Hsp & _).
    rewrite Hsp; cbn [orb]; auto.
Qed.

Lemma fenRows_no_space (rows : list Row) :
  Forall legalRow rows -> includes (fenRows rows) " " = false.
Proof.
  induction rows as [|row rows IH]; intros H; [reflexivity|].
  inversion H as [|? ? [_ Hrow] Hrest]; subst.
  destruct rows as [|row2 rows]; [now apply fenRank_no_space|].
  change (fenRows (row :: row2 :: rows))
    with (fenRank row 0 ++ String "/" (fenRows (row2 :: rows)))%string.
  rewrite includes_app, fenRank_no_space by assumption.
  cbn [includes orb]. change (Ascii.eqb "/" " ") with false. cbn [orb]. auto.
Qed.

(** The six fields of a serialized legal position. *)
Lemma split_on_serialize (v : Validator) :
  legalPosition v ->
  split_on " " (serialize v)
  = [fenRanks (board v) range8; turn v; castling v; enPassant v;
     show_Z (halfMoveClock v); show_Z (fullMoveNumber v)].
Proof.
  intros (Hb & [_ Ht] & [_ Hc] & [_ He] & _ & _).
  change (serialize v)
    with (join_with " "
            [fenRanks (board v) range8; turn v; castling v; enPassant v;
             show_Z (halfMoveClock v); show_Z (fullMoveNumber v)]).
  apply split_on_join; [discriminate|].
  repeat constructor; auto using show_Z_no_space.
  rewrite (fenRanks_fenRows _ Hb). apply fenRows_no_space, Hb.
Qed.

Lemma str_or_field (s d : string) : s <> EmptyString -> str_or (Some s) d = s.
Proof. destruct s; [congruence|reflexivity]. Qed.

(** ** The round trip *)

(** The constructor applied to the serialization of a legal position
    builds a validator with the same board, side to move, castling rights,
    en-passant target, half-move clock and full-move number. *)
Lemma newValidator_serialize_legal (v : Validator) :
  legalPosition v ->
  newValidator (serialize v)
  = Some (mkValidator (serialize v) (board v) (turn v) (castling v)
                      (enPassant v) (halfMoveClock v) (fullMoveNumber v)).
Proof.
  intros H. pose proof (split_on_serialize v H) as Hsplit.
  destruct H as (Hb & [Ht _] & [Hc _] & [He _] & Hh & Hf).
  unfold newValidator, parseFen, parseFenState.
  rewrite Hsplit. cbn [nth nth_error parseInt_opt].
  rewrite (parseFen_loop_fenRanks _ Hb).
  rewrite !parseInt_show_Z by (rewrite Z.abs_eq; lia).
  rewrite !str_or_field by assumption.
  cbn [fen board num_or].
  f_equal; f_equal.
  - destruct (halfMoveClock v =? 0) eqn:E; [apply Z.eqb_eq in E; lia|reflexivity].
  - destruct (fullMoveNumber v =? 0) eqn:E; [apply Z.eqb_eq in E; lia|reflexivity].
Qed.

Lemma legalPosition_start : legalPosition (validatorOf START_WHITE).
Proof.
  vm_compute.
  repeat split; try discriminate;
    repeat (constructor; [first [exact I | reflexivity | split; [reflexivity|]]|]);
    repeat constructor.
Defined.

(** The standard starting position, as the store holds it, is a legal
    position as well. *)
Example legalPosition_initial : legalPosition (validatorOf INITIAL_FEN).
Proof.
  vm_compute.
  repeat split; try discriminate;
    repeat (constructor; [first [exact I | reflexivity | split; [reflexivity|]]|]);
    repeat constructor.
Qed.

(** The round trip with each of the sixteen combinations of castling
    rights and with no en-passant target. *)
Lemma newValidator_serialize_castling (v : Validator) (rights : string) :
  legalPosition v ->
  In rights castlingCombinations ->
  let w := withCastling v rights in
  newValidator (serialize w)
  = Some (mkValidator (serialize w) (board v) (turn v) rights "-"
                      (halfMoveClock v) (fullMoveNumber v)).
Proof.
  intros (Hb & Ht & _ & _ & Hh & Hf) Hin w.
  assert (Hr : isField rights).
  { simpl in Hin.
    repeat (destruct Hin as [<- | Hin]; [split; [discriminate|reflexivity]|]).
    contradiction. }
  apply (newValidator_serialize_legal w).
  unfold legalPosition, w, withCastling; cbn [board turn castling enPassant
                                              halfMoveClock fullMoveNumber].
  repeat split; try assumption; try apply Ht; try apply Hr; try apply Hb;
    first [discriminate | reflexivity | lia].
Qed.

(** Outside the legal positions the round trip can fail: an empty castling
    field is read back as all four rights, and a full-move number 0 as 1. *)
Example empty_castling_read_as_all_rights :
  let v := mkValidator EmptyString (board (validatorOf START_WHITE))
                       "white" EmptyString "-" 0 1 in
  option_map castling (newValidator (serialize v)) = Some "KQkq".
Proof. vm_compute; reflexivity. Qed.

Example fullMoveNumber_zero_read_as_one :
  let v := mkValidator EmptyString (board (validatorOf START_WHITE))
                       "white" "KQkq" "-" 0 0 in
  option_map fullMoveNumber (newValidator (serialize v)) = Some 1.
Proof. vm_compute; reflexivity. Qed.

(** A counter from 10^21 on is written in exponent form, of which the
    constructor reads the leading digits only; between 2^53 and 10^21 the
    digits written are the shortest that name the same number. *)
Example show_Z_exponent_form :
  show_Z (10 ^ 21) = "1e+21" /\ parseInt "1e+21" = Some 1
  /\ show_Z (2 ^ 60) = "1152921504606847000"
  /\ parseInt "9007199254740993" = Some 9007199254740992.
Proof. vm_compute; repeat split; reflexivity. Qed.

Example fullMoveNumber_exponent_read_as_one :
  let v := mkValidator EmptyString (board (validatorOf START_WHITE))
                       "white" "KQkq" "-" 0 (10 ^ 21) in
  option_map fullMoveNumber (newValidator (serialize v)) = Some 1.
Proof. vm_compute; reflexivity. Qed.

(** ** Legal positions are closed under accepted moves *)

Lemma set_nth_length (n : nat) (x : option Piece) (row : Row) :
  (n < List.length row)%nat -> List.length (set_nth n x row) = List.length row.
Proof.
  revert row; induction n as [|n IH]; intros [|h t] H; simpl in *; try lia.
  rewrite IH; lia.
Qed.

Lemma set_nth_Forall (P : option Piece -> Prop) (n : nat) (x : option Piece)
    (row : Row) :
  P None -> P x -> Forall P row -> Forall P (set_nth n x row).
Proof.
  intros HN Hx; revert row; induction n as [|n IH]; intros [|h t] H; simpl.
  - repeat constructor; assumption.
  - inversion H; subst; constructor; assumption.
  - constructor; [assumption|]. apply IH; constructor.
  - inversion H; subst; constructor; auto.
Qed.

Lemma upd_row_length (n : nat) (f : Row -> Row) (b : Board) :
  List.length (upd_row n f b) = List.length b.
Proof.
  revert b; induction n as [|n IH]; intros [|r t]; simpl; auto.
Qed.

Lemma upd_row_Forall (Q : Row -> Prop) (n : nat) (f : Row -> Row) (b : Board) :
  (forall row, Q row -> Q (f row)) -> Forall Q b -> Forall Q (upd_row n f b).
Proof.
  intros Hf; revert b; induction n as [|n IH]; intros [|r t] H; simpl;
    try constructor; inversion H; subst; auto.
Qed.

Lemma legalBoard_set_cell (b : Board) (r c : Z) (x : option Piece) :
  legalBoard b -> 0 <= c < 8 ->
  match x with Some p => legalPiece p | None => True end ->
  legalBoard (set_cell b r c x).
Proof.
  intros [Hlen Hrows] Hc Hx; unfold set_cell.
  destruct ((r <? 0) || (c <? 0)); [split; assumption|].
  split; [rewrite upd_row_length; assumption|].
  apply upd_row_Forall; [|assumption].
  intros row [Hl Hcells]; split.
  - rewrite set_nth_length; [assumption|lia].
  - apply set_nth_Forall; auto; exact I.
Qed.

Lemma Forall_nth_default {A : Type} (P : A -> Prop) (l : list A) (d : A) (n : nat) :
  Forall P l -> P d -> P (nth n l d).
Proof.
  intros H Hd; revert n; induction H as [|x l Hx _ IH]; intros [|n]; simpl; auto.
Qed.

Lemma legalBoard_cell (b : Board) (r c : Z) :
  legalBoard b -> match cell b r c with Some p => legalPiece p | None => True end.
Proof.
  intros [_ Hrows]; unfold cell, row_at.
  destruct (c <? 0); [exact I|].
  apply (Forall_nth_default
           (fun x => match x with Some p => legalPiece p | None => True end));
    [|exact I].
  destruct (r <? 0); [constructor|].
  apply (Forall_nth_default
           (Forall (fun x => match x with Some p => legalPiece p | None => True end)));
    [|constructor].
  eapply Forall_impl; [|exact Hrows]. intros row [_ H]; exact H.
Qed.

Lemma legalBoard_makeMoveOnBoard (b : Board) (m : Move) :
  legalBoard b ->
  0 <= snd (from m) < 8 -> 0 <= snd (to m) < 8 ->
  legalBoard (makeMoveOnBoard b m).
Proof.
  intros Hb Hf Ht; destruct m as [[fr ff] [tr tf]]; unfold makeMoveOnBoard; simpl in *.
  apply legalBoard_set_cell; [|assumption|exact I].
  apply legalBoard_set_cell; [assumption|assumption|].
  apply legalBoard_cell; assumption.
Qed.

Lemma In_range8 (x : Z) : In x range8 -> 0 <= x < 8.
Proof. simpl; intuition lia. Qed.

Lemma In_allSquares (sq : Square) :
  In sq allSquares -> 0 <= fst sq < 8 /\ 0 <= snd sq < 8.
Proof.
  unfold allSquares; rewrite in_flat_map.
  intros (r & Hr & Hin). apply in_map_iff in Hin as (f & <- & Hf).
  split; simpl; apply In_range8; assumption.
Qed.

Lemma indexOf_from_range (arr : list string) (x : string) (i : Z) :
  indexOf_from arr x i = -1
  \/ i <= indexOf_from arr x i < i + Z.of_nat (List.length arr).
Proof.
  revert i; induction arr as [|y arr IH]; intros i; simpl; [left; reflexivity|].
  destruct (String.eqb y x); [right; lia|].
  destruct (IH (i + 1)) as [H | H]; [left; assumption|right; lia].
Qed.

Lemma candidateMoves_squares (v : Validator) (t : ascii) (hf hr : option ascii)
    (target : Square) (m : Move) :
  In m (candidateMoves v t hf hr target) ->
  In (from m) allSquares /\ to m = target.
Proof.
  unfold candidateMoves; rewrite in_flat_map. intros (sq & Hsq & Hin).
  repeat match type of Hin with
         | In _ (match ?x with _ => _ end) => destruct x
         | In _ (if ?c then _ else _) => destruct c
         | In _ [] => contradiction
         end.
  destruct Hin as [<- | []]; auto.
Qed.

Lemma findPieceMove_candidate (v : Validator) (t : ascii) (hf hr : option ascii)
    (target : Square) (m : Move) :
  findPieceMove v t hf hr target = Some m ->
  In m (candidateMoves v t hf hr target).
Proof.
  unfold findPieceMove.
  destruct (candidateMoves v t hf hr target) as [|c [|c2 rest]]; try discriminate.
  - intros [= <-]; left; reflexivity.
  - destruct hf, hr; try (intros [= <-]; left; reflexivity).
    intros H; apply find_some in H; tauto.
Qed.

(** The squares of an accepted move lie on the board. *)
Lemma validateMove_accepts_squares (v v' : Validator) (san : string) (m : Move)
    (cap : bool) (promo : option ascii) :
  validateMove v san = (ValidMove m cap promo, v') ->
  0 <= snd (from m) < 8 /\ 0 <= snd (to m) < 8.
Proof.
  unfold validateMove.
  destruct (parseSan san) as [[side|parsed]|]; simpl.
  - unfold validateCastling.
    repeat match goal with
           | |- context [if ?c then _ else _] => destruct c; simpl
           end; intros H; inversion H.
  - destruct ((indexOf FILES (char_str (toFile parsed)) =? -1)
              || (indexOf RANKS (char_str (toRank parsed)) =? -1)) eqn:Hidx;
      [intros H; inversion H|].
    apply orb_false_iff in Hidx as [Hfile _]. apply Z.eqb_neq in Hfile.
    repeat match goal with
           | |- context [if ?c then _ else _] => destruct c; simpl
           end; try (intros H; inversion H; fail).
    destruct (findPieceMove v (piece parsed) (fromFile parsed) (fromRank parsed)
                (indexOf RANKS (char_str (toRank parsed)),
                 indexOf FILES (char_str (toFile parsed)))) as [m0|] eqn:Hfind;
      [|intros H; inversion H].
    destruct (isKingInCheck (enPassant v) (turn v) (makeMoveOnBoard (board v) m0));
      intros H; inversion H; subst.
    apply findPieceMove_candidate, candidateMoves_squares in Hfind as [Hfrom Hto].
    apply In_allSquares in Hfrom as [_ Hfrom].
    split; [assumption|]. rewrite Hto; cbn [snd].
    unfold indexOf in *.
    destruct (indexOf_from_range FILES (char_str (toFile parsed)) 0) as [E | E];
      [congruence|].
    change (Z.of_nat (List.length FILES)) with 8 in E. lia.
  - intros H; inversion H.
Qed.

Lemma legalPosition_applyMove (v : Validator) (m : Move) :
  legalPosition v ->
  fullMoveNumber v < MAX_SAFE_INTEGER ->
  0 <= snd (from m) < 8 -> 0 <= snd (to m) < 8 ->
  legalPosition (applyMove v m).
Proof.
  intros (Hb & Ht & Hc & He & Hh & Hf) Hmax Hfrom Hto.
  unfold legalPosition.
  rewrite applyMove_board, applyMove_turn, applyMove_castling, applyMove_enPassant,
    applyMove_halfMoveClock.
  split; [now apply legalBoard_makeMoveOnBoard|].
  split; [destruct (String.eqb (turn v) "white"); split; first [discriminate | reflexivity]|].
  split; [assumption|].
  split; [split; first [discriminate | reflexivity]|].
  split; [assumption|].
  unfold applyMove; cbn [fullMoveNumber].
  destruct (String.eqb (if String.eqb (turn v) "white" then "black" else "white") "white");
    lia.
Qed.

(** [validateMove] keeps the position legal. *)
Lemma legalPosition_validateMove (v : Validator) (san : string) :
  legalPosition v -> fullMoveNumber v < MAX_SAFE_INTEGER ->
  legalPosition (snd (validateMove v san)).
Proof.
  intros H Hmax.
  destruct (validateMove_cases v san) as [-> | (m & cap & promo & E & _)];
    [assumption|].
  rewrite E; simpl.
  destruct (validateMove_accepts_squares _ _ _ _ _ _ E) as [Hfrom Hto].
  now apply legalPosition_applyMove.
Qed.

Lemma reachable_legal (v : Validator) : reachable v -> legalPosition v.
Proof.
  induction 1 as [fenString v _ H | v san _ IH Hmax]; [assumption|].
  now apply legalPosition_validateMove.
Qed.

(** Every state a match goes through is read back from its
    serialization. *)
Lemma reachable_round_trip (v : Validator) :
  reachable v ->
  newValidator (serialize v)
  = Some (mkValidator (serialize v) (board v) (turn v) (castling v)
                      (enPassant v) (halfMoveClock v) (fullMoveNumber v)).
Proof. intros H; apply newValidator_serialize_legal, reachable_legal, H. Qed.

(** After an accepted move the validator's own position string reads back
    as the validator itself. *)
Lemma newValidator_fen_after_move (v : Validator) (san : string) (m : Move)
    (cap : bool) (promo : option ascii) :
  legalPosition v -> fullMoveNumber v < MAX_SAFE_INTEGER ->
  fst (validateMove v san) = ValidMove m cap promo ->
  newValidator (fen (snd (validateMove v san))) = Some (snd (validateMove v san)).
Proof.
  intros Hlegal Hmax H.
  pose proof (legalPosition_validateMove v san Hlegal Hmax) as Hl.
  rewrite (validateMove_other_moves_applied v san m cap promo H) in *.
  rewrite applyMove_fen, (newValidator_serialize_legal _ Hl).
  reflexivity.
Qed.

(** C8. For every reachable legal position [p], parsing its serialization,
    the six-field position string, yields [p] again: the constructor
    applied to [serialize p] builds a validator with the same board, side
    to move, castling rights, en-passant target, half-move clock and
    full-move number, whose position string is that serialization.  The
    legal positions are those of [legalPosition]: their two counters are
    integers that a number holds exactly, as those of every game are; a
    counter from 10^21 on would be written in exponent form and read back
    as its first digit ([fullMoveNumber_exponent_read_as_one]). *)
Theorem serialize_round_trip (v : Validator) :
  legalPosition v ->
  newValidator (serialize v)
  = Some (mkValidator (serialize v) (board v) (turn v) (castling v)
                      (enPassant v) (halfMoveClock v) (fullMoveNumber v)).
Proof. exact (newValidator_serialize_legal v). Qed.

Lemma serialize_round_trip_witness :
  let v := validatorOf START_WHITE in
  newValidator (serialize v)
  = Some (mkValidator (serialize v) (board v) (turn v) (castling v)
                      (enPassant v) (halfMoveClock v) (fullMoveNumber v)).
Proof.
  exact (serialize_round_trip (validatorOf START_WHITE) legalPosition_start).
Defined.

(** ** The path loop ends on its own *)

(** When the target lies [j] steps ahead in the direction of travel, the
    loop of [isPathClear] ends within [j + 1] iterations: more fuel does
    not change its answer. *)
Lemma isPathClear_loop_enough (fuel extra : nat) (b : Board) (dr dc tr tc : Z) :
  forall (j r c : Z),
    0 <= j -> (Z.to_nat j < fuel)%nat ->
    tr = r + j * dr -> tc = c + j * dc ->
    isPathClear_loop (fuel + extra) b r c dr dc tr tc
    = isPathClear_loop fuel b r c dr dc tr tc.
Proof.
  induction fuel as [|fuel IH]; intros j r c Hj Hfuel Hr Hc; [lia|].
  cbn [Nat.add isPathClear_loop].
  destruct ((r =? tr) && (c =? tc)) eqn:E; [reflexivity|].
  destruct (cell b r c); [reflexivity|].
  assert (j <> 0).
  { intros ->. rewrite Z.mul_0_l, Z.add_0_r in Hr, Hc; subst.
    rewrite !Z.eqb_refl in E; discriminate. }
  apply (IH (j - 1)); lia.
Qed.

(** On the board, for two squares that share a rank, a file or a diagonal
    (the guard of every call), eight iterations are enough. *)
Lemma isPathClear_fuel (extra : nat) (b : Board) (fr ff tr tf : Z) :
  0 <= fr < 8 -> 0 <= ff < 8 -> 0 <= tr < 8 -> 0 <= tf < 8 ->
  Z.abs (tr - fr) = Z.abs (tf - ff) \/ tr = fr \/ tf = ff ->
  isPathClear_loop (8 + extra) b
    (fr + Z.sgn (tr - fr)) (ff + Z.sgn (tf - ff))
    (Z.sgn (tr - fr)) (Z.sgn (tf - ff)) tr tf
  = isPathClear b (fr, ff) (tr, tf).
Proof.
  intros Hfr Hff Htr Htf Haligned; unfold isPathClear.
  set (n := Z.max (Z.abs (tr - fr)) (Z.abs (tf - ff))).
  apply (isPathClear_loop_enough 8 extra b _ _ tr tf (Z.max 0 (n - 1)));
    subst n; try lia;
    destruct (Z.sgn_spec (tr - fr)) as [[? ->] | [[? ->] | [? ->]]];
    destruct (Z.sgn_spec (tf - ff)) as [[? ->] | [[? ->] | [? ->]]];
    lia.
Qed.

(** * Further properties of the validator *)

(** ** Rejected moves *)

(** The promotion group of the notation names a queen, a rook, a bishop
    or a knight: a promotion to a king is not read at all. *)
Example parseSan_promotion_to_king_unreadable :
  parseSan "d8=K" = None /\ parseSan "d8=k" = None
  /\ option_map (fun _ => tt) (parseSan "d8=Q") = Some tt.
Proof. vm_compute; repeat split; reflexivity. Qed.

(** X1. A move that [validateMove] rejects, for whatever reason, leaves
    every field of the validator as it was. *)
Theorem validateMove_rejected_unchanged (v : Validator) (san : string) :
  valid (fst (validateMove v san)) = false -> snd (validateMove v san) = v.
Proof. apply validateMove_invalid_frame. Qed.

Lemma validateMove_rejected_unchanged_witness :
  valid (fst (validateMove (validatorOf START_WHITE) "e5")) = false
  /\ snd (validateMove (validatorOf START_WHITE) "e5") = validatorOf START_WHITE.
Proof.
  assert (H : valid (fst (validateMove (validatorOf START_WHITE) "e5")) = false)
    by (vm_compute; reflexivity).
  split; [exact H|].
  exact (validateMove_rejected_unchanged (validatorOf START_WHITE) "e5" H).
Defined.

(** ** A side field that names no colour *)

Lemma hasColor_isColorName (p : Piece) (t : string) :
  hasColor p t = true -> isColorName t.
Proof.
  unfold hasColor; intros H; apply String.eqb_eq in H; subst.
  destruct (pcolor p); [left|right]; reflexivity.
Qed.

Lemma hasColor_no_color (p : Piece) (t : string) :
  ~ isColorName t -> hasColor p t = false.
Proof.
  intros H; destruct (hasColor p t) eqn:E; [|reflexivity].
  elim H; eapply hasColor_isColorName; eassumption.
Qed.

Lemma flat_map_all_nil {A B : Type} (f : A -> list B) (l : list A) :
  (forall x, f x = []) -> flat_map f l = [].
Proof. intros H; induction l as [|x l IH]; simpl; [|rewrite H, IH]; reflexivity. Qed.

Lemma find_all_false {A : Type} (f : A -> bool) (l : list A) :
  (forall x, f x = false) -> find f l = None.
Proof. intros H; induction l as [|x l IH]; simpl; [|rewrite H]; auto. Qed.

Lemma candidateMoves_no_color (v : Validator) (t : ascii) (hf hr : option ascii)
    (target : Square) :
  ~ isColorName (turn v) -> candidateMoves v t hf hr target = [].
Proof.
  intros H; unfold candidateMoves; apply flat_map_all_nil; intros sq.
  destruct (cell (board v) (fst sq) (snd sq)) as [p|]; [|reflexivity].
  rewrite (hasColor_no_color p _ H), andb_false_r; reflexivity.
Qed.

Lemma safeMoves_no_color (v : Validator) :
  ~ isColorName (turn v) -> safeMoves v = [].
Proof.
  intros H; unfold safeMoves; apply flat_map_all_nil; intros sq.
  destruct (cell (board v) (fst sq) (snd sq)) as [p|]; [|reflexivity].
  rewrite (hasColor_no_color p _ H); reflexivity.
Qed.

Lemma isKingInCheck_no_color (ep t : string) (b : Board) :
  ~ isColorName t -> isKingInCheck ep t b = false.
Proof.
  intros H; unfold isKingInCheck, findKingOnBoard.
  rewrite find_all_false; [reflexivity|]. intros sq.
  destruct (cell b (fst sq) (snd sq)) as [p|]; [|reflexivity].
  rewrite (hasColor_no_color p _ H), andb_false_r; reflexivity.
Qed.

(** X2. When the side field of the position string is neither [white] nor
    [black] (standard FEN writes [w] and [b]), no piece of the board
    belongs to the side to move: [validateMove] accepts no piece move,
    whatever the notation; only a castling answer can be valid. *)
Theorem validateMove_no_color_no_piece_move (v : Validator) (san : string) :
  ~ isColorName (turn v) ->
  forall m cap promo, fst (validateMove v san) <> ValidMove m cap promo.
Proof.
  intros H m cap promo; unfold validateMove.
  destruct (parseSan san) as [[side|parsed]|]; simpl; try discriminate.
  - unfold validateCastling.
    repeat match goal with
           | |- context [if ?c then _ else _] => destruct c; simpl
           end; discriminate.
  - unfold findPieceMove. rewrite (candidateMoves_no_color _ _ _ _ _ H).
    repeat match goal with
           | |- context [if ?c then _ else _] => destruct c; simpl
           end; discriminate.
Qed.

Lemma validateMove_no_color_no_piece_move_witness :
  fst (validateMove (validatorOf INITIAL_FEN) "e4")
  <> ValidMove (mkMove (6, 4) (4, 4)) false None.
Proof.
  apply (validateMove_no_color_no_piece_move (validatorOf INITIAL_FEN) "e4").
  vm_compute; intros [H | H]; discriminate H.
Defined.

(** X3. With such a side field every position, whatever its board and
    history, is reported as a game that is over: a draw by stalemate. *)
Theorem getGameState_no_color_stalemate (v : Validator) (fenHistory : list string) :
  ~ isColorName (turn v) ->
  getGameState v fenHistory = GameOver "draw" "stalemate".
Proof.
  intros H; unfold getGameState, isCheckmate, isStalemate.
  rewrite (isKingInCheck_no_color _ _ _ H), (safeMoves_no_color v H); reflexivity.
Qed.

Lemma getGameState_no_color_stalemate_witness :
  getGameState (validatorOf INITIAL_FEN) [] = GameOver "draw" "stalemate".
Proof.
  apply (getGameState_no_color_stalemate (validatorOf INITIAL_FEN) []).
  vm_compute; intros [H | H]; discriminate H.
Defined.

(** ** Whose turn it is after a move *)



(** ** What no sequence of moves changes *)

Lemma validateMove_castling (v : Validator) (san : string) :
  castling (snd (validateMove v san)) = castling v.
Proof.
  destruct (validateMove_cases v san) as [-> | (m & cap & promo & -> & _)];
    [reflexivity|apply applyMove_castling].
Qed.

(** X5. However many moves are validated on a validator, accepted or
    rejected, king and rook moves included, its castling rights and its
    half-move clock stay what the constructor read; so the answer of the
    fifty-move test never changes during play. *)
Theorem playMoves_keeps_castling_and_clock (v : Validator) (sans : list string) :
  castling (playMoves v sans) = castling v
  /\ halfMoveClock (playMoves v sans) = halfMoveClock v
  /\ isFiftyMoveRule (playMoves v sans) = isFiftyMoveRule v.
Proof.
  unfold playMoves, isFiftyMoveRule.
  revert v; induction sans as [|san sans IH]; intros v; simpl; [auto|].
  destruct (IH (snd (validateMove v san))) as (Hc & Hh & Hf).
  rewrite Hc, Hh, validateMove_castling, validateMove_halfMoveClock; auto.
Qed.

(** A king move and a rook move in one game: the rights are still all
    four. *)
Example playMoves_king_and_rook_keep_rights :
  let v := playMoves (validatorOf CASTLE_FREE) ["Ke2"; "Rb8"; "Rh2"] in
  fen v = "1r2k2r/8/8/8/8/8/4K2R/R7 black KQkq - 0 2".
Proof. vm_compute; reflexivity. Qed.

(** ** What an accepted move is *)

(** What the scan of [findPieceMove] has established for each of its
    candidates. *)
Lemma candidateMoves_facts (v : Validator) (t : ascii) (hf hr : option ascii)
    (target : Square) (m : Move) :
  In m (candidateMoves v t hf hr target) ->
  to m = target
  /\ In (from m) allSquares
  /\ (exists p,
        cell (board v) (fst (from m)) (snd (from m)) = Some p
        /\ ptype p = t
        /\ hasColor p (turn v) = true
        /\ isPseudoLegalMove (board v) (enPassant v) p (from m) target = true)
  /\ (forall ch, hf = Some ch ->
        at_index FILES (snd (from m)) = Some (char_str ch))
  /\ (forall ch, hr = Some ch ->
        at_index RANKS (fst (from m)) = Some (char_str ch)).
Proof.
  unfold candidateMoves; rewrite in_flat_map. intros (sq & Hsq & Hin).
  destruct (cell (board v) (fst sq) (snd sq)) as [p|] eqn:Hcell; [|contradiction].
  destruct (Ascii.eqb (ptype p) t && hasColor p (turn v)) eqn:Hp;
    simpl in Hin; [|contradiction].
  apply andb_true_iff in Hp as [Ht Hc]. apply Ascii.eqb_eq in Ht.
  assert (Hhint : forall (h : option ascii) (s : option string),
             (match h with Some _ => negb (option_eqb_char h s) | None => false end)
             = false ->
             forall ch, h = Some ch -> s = Some (char_str ch)).
  { intros h s E ch ->. apply negb_false_iff in E.
    destruct s as [s|]; simpl in E; [|discriminate].
    apply String.eqb_eq in E; congruence. }
  destruct (match hf with
            | Some _ => negb (option_eqb_char hf (at_index FILES (snd sq)))
            | None => false
            end) eqn:Hf; [contradiction|].
  destruct (match hr with
            | Some _ => negb (option_eqb_char hr (at_index RANKS (fst sq)))
            | None => false
            end) eqn:Hr; [contradiction|].
  destruct (isPseudoLegalMove (board v) (enPassant v) p sq target) eqn:Hpl;
    simpl in Hin; [|contradiction].
  destruct (negb (isKingInCheck (enPassant v) (turn v)
                    (makeMoveOnBoard (board v) (mkMove sq target))));
    [|contradiction].
  destruct Hin as [<- | []]; cbn [from to].
  repeat split; auto.
  - exists p; auto.
  - apply (Hhint hf); assumption.
  - apply (Hhint hr); assumption.
Qed.

(** The steps of [validateMove] that an accepted piece move has passed. *)
Lemma validateMove_accepts_steps (v v' : Validator) (san : string) (m : Move)
    (cap : bool) (promo : option ascii) :
  validateMove v san = (ValidMove m cap promo, v') ->
  exists parsed,
    parseSan san = Some (PMove parsed)
    /\ promo = promotion parsed
    /\ let target := (indexOf RANKS (char_str (toRank parsed)),
                      indexOf FILES (char_str (toFile parsed))) in
       let targetPiece := cell (board v) (fst target) (snd target) in
       findPieceMove v (piece parsed) (fromFile parsed) (fromRank parsed) target
       = Some m
       /\ cap = negb (is_empty targetPiece)
       /\ match targetPiece with Some t => hasColor t (turn v) | None => false end
          = false
       /\ isCapture parsed && is_empty targetPiece
          && (negb (Ascii.eqb (piece parsed) "p")
              || negb (String.eqb (enPassant v)
                         (char_str (toFile parsed) ++ char_str (toRank parsed))))
          = false.
Proof.
  unfold validateMove.
  destruct (parseSan san) as [[side|parsed]|]; simpl.
  - unfold validateCastling.
    repeat match goal with
           | |- context [if ?c then _ else _] => destruct c; simpl
           end; intros H; inversion H.
  - intros H; exists parsed; split; [reflexivity|]. revert H.
    destruct ((indexOf FILES (char_str (toFile parsed)) =? -1)
              || (indexOf RANKS (char_str (toRank parsed)) =? -1));
      [intros H; inversion H|].
    destruct (match cell (board v) (indexOf RANKS (char_str (toRank parsed)))
                      (indexOf FILES (char_str (toFile parsed))) with
              | Some t => hasColor t (turn v)
              | None => false
              end) eqn:Hown; [intros H; inversion H|].
    match goal with
    | |- context [if ?c then _ else _] => destruct c eqn:Hmark
    end; [intros H; inversion H|].
    destruct (findPieceMove v (piece parsed) (fromFile parsed) (fromRank parsed)
                (indexOf RANKS (char_str (toRank parsed)),
                 indexOf FILES (char_str (toFile parsed)))) as [m0|] eqn:Hfind;
      [|intros H; inversion H].
    destruct (isKingInCheck (enPassant v) (turn v) (makeMoveOnBoard (board v) m0));
      intros H; inversion H; subst.
    repeat split; auto.
  - intros H; inversion H.
Qed.

Lemma validateMove_accepts_to_rank (v v' : Validator) (san : string) (m : Move)
    (cap : bool) (promo : option ascii) :
  validateMove v san = (ValidMove m cap promo, v') -> 0 <= fst (to m) < 8.
Proof.
  unfold validateMove.
  destruct (parseSan san) as [[side|parsed]|]; simpl.
  - unfold validateCastling.
    repeat match goal with
           | |- context [if ?c then _ else _] => destruct c; simpl
           end; intros H; inversion H.
  - destruct ((indexOf FILES (char_str (toFile parsed)) =? -1)
              || (indexOf RANKS (char_str (toRank parsed)) =? -1)) eqn:Hidx;
      [intros H; inversion H|].
    apply orb_false_iff in Hidx as [_ Hrank]. apply Z.eqb_neq in Hrank.
    repeat match goal with
           | |- context [if ?c then _ else _] => destruct c; simpl
           end; try (intros H; inversion H; fail).
    destruct (findPieceMove v (piece parsed) (fromFile parsed) (fromRank parsed)
                (indexOf RANKS (char_str (toRank parsed)),
                 indexOf FILES (char_str (toFile parsed)))) as [m0|] eqn:Hfind;
      [|intros H; inversion H].
    destruct (isKingInCheck (enPassant v) (turn v) (makeMoveOnBoard (board v) m0));
      intros H; inversion H; subst.
    apply findPieceMove_candidate, candidateMoves_squares in Hfind as [_ Hto].
    rewrite Hto; cbn [fst].
    unfold indexOf in *.
    destruct (indexOf_from_range RANKS (char_str (toRank parsed)) 0) as [E | E];
      [congruence|].
    change (Z.of_nat (List.length RANKS)) with 8 in E. lia.
  - intros H; inversion H.
Qed.

Lemma nth_error_indexOf_from (arr : list string) (x : string) (i : Z) :
  indexOf_from arr x i <> -1 ->
  nth_error arr (Z.to_nat (indexOf_from arr x i - i)) = Some x.
Proof.
  revert i; induction arr as [|y arr IH]; intros i; simpl; [congruence|].
  destruct (String.eqb y x) eqn:E.
  - intros _. rewrite Z.sub_diag. apply String.eqb_eq in E; subst; reflexivity.
  - intros H. specialize (IH (i + 1) H).
    destruct (indexOf_from_range arr x (i + 1)) as [Hr | Hr]; [congruence|].
    replace (Z.to_nat (indexOf_from arr x (i + 1) - i))
      with (S (Z.to_nat (indexOf_from arr x (i + 1) - (i + 1)))) by lia.
    exact IH.
Qed.

(** [arr[arr.indexOf(x)]] is [x] when [x] is found. *)
Lemma at_index_indexOf (arr : list string) (x : string) :
  0 <= indexOf arr x -> at_index arr (indexOf arr x) = Some x.
Proof.
  intros H; unfold at_index, indexOf in *.
  destruct (indexOf_from arr x 0 <? 0) eqn:E; [apply Z.ltb_lt in E; lia|].
  pose proof (nth_error_indexOf_from arr x 0) as Hn.
  rewrite Z.sub_0_r in Hn. apply Hn; lia.
Qed.

(** X6. An accepted piece move starts on a square that holds a piece of the
    side to move, of the type the notation names; that piece reaches the
    destination by a pseudo-legal move; the destination is the square the
    notation names, by its file letter and its rank digit; it does not hold
    a piece of the side to move; and the answer's capture flag tells
    whether the destination was occupied. *)
Theorem validateMove_accepted_sound (v v' : Validator) (san : string) (m : Move)
    (cap : bool) (promo : option ascii) :
  validateMove v san = (ValidMove m cap promo, v') ->
  exists parsed p,
    parseSan san = Some (PMove parsed)
    /\ cell (board v) (fst (from m)) (snd (from m)) = Some p
    /\ ptype p = piece parsed
    /\ hasColor p (turn v) = true
    /\ isPseudoLegalMove (board v) (enPassant v) p (from m) (to m) = true
    /\ at_index FILES (snd (to m)) = Some (char_str (toFile parsed))
    /\ at_index RANKS (fst (to m)) = Some (char_str (toRank parsed))
    /\ match cell (board v) (fst (to m)) (snd (to m)) with
       | Some t => hasColor t (turn v) = false /\ cap = true
       | None => cap = false
       end.
Proof.
  intros H.
  destruct (validateMove_accepts_squares _ _ _ _ _ _ H) as [_ Hfile].
  pose proof (validateMove_accepts_to_rank _ _ _ _ _ _ H) as Hrank.
  destruct (validateMove_accepts_steps _ _ _ _ _ _ H)
    as (parsed & Hparse & _ & Hfind & Hcap & Hown & _).
  apply findPieceMove_candidate, candidateMoves_facts in Hfind
    as (Hto & _ & (p & Hcell & Htype & Hcolor & Hpl) & _).
  exists parsed, p. rewrite Hto in *; cbn [fst snd] in *.
  split; [assumption|]. split; [assumption|]. split; [assumption|].
  split; [assumption|]. split; [assumption|].
  split; [apply at_index_indexOf; lia|].
  split; [apply at_index_indexOf; lia|].
  destruct (cell (board v) (indexOf RANKS (char_str (toRank parsed)))
                 (indexOf FILES (char_str (toFile parsed)))); simpl in *; auto.
Qed.

Lemma validateMove_accepted_sound_witness :
  let v := validatorOf START_WHITE in
  exists parsed p,
    parseSan "Nf3" = Some (PMove parsed)
    /\ cell (board v) 7 6 = Some p
    /\ ptype p = piece parsed
    /\ hasColor p (turn v) = true
    /\ isPseudoLegalMove (board v) (enPassant v) p (7, 6) (5, 5) = true
    /\ at_index FILES 5 = Some (char_str (toFile parsed))
    /\ at_index RANKS 5 = Some (char_str (toRank parsed))
    /\ match cell (board v) 5 5 with
       | Some t => hasColor t (turn v) = false /\ false = true
       | None => false = false
       end.
Proof.
  exact (validateMove_accepted_sound (validatorOf START_WHITE)
           (snd (validateMove (validatorOf START_WHITE) "Nf3")) "Nf3"
           (mkMove (7, 6) (5, 5)) false None eq_refl).
Defined.

(** X7. When the notation carries a file hint or a rank hint, the accepted
    move starts on that file or rank. *)
Theorem validateMove_respects_hints (v v' : Validator) (san : string) (m : Move)
    (cap : bool) (promo : option ascii) (parsed : ParsedMove) :
  validateMove v san = (ValidMove m cap promo, v') ->
  parseSan san = Some (PMove parsed) ->
  (forall ch, fromFile parsed = Some ch ->
     at_index FILES (snd (from m)) = Some (char_str ch))
  /\ (forall ch, fromRank parsed = Some ch ->
        at_index RANKS (fst (from m)) = Some (char_str ch)).
Proof.
  intros H Hparse.
  destruct (validateMove_accepts_steps _ _ _ _ _ _ H)
    as (parsed' & Hparse' & _ & Hfind & _).
  rewrite Hparse in Hparse'; injection Hparse' as <-.
  apply findPieceMove_candidate, candidateMoves_facts in Hfind
    as (_ & _ & _ & Hf & Hr).
  split; assumption.
Qed.

Lemma validateMove_respects_hints_witness :
  let v := validatorOf TWO_KNIGHTS in
  fst (validateMove v "Nfd2") = ValidMove (mkMove (5, 5) (6, 3)) false None
  /\ at_index FILES 5 = Some "f".
Proof.
  assert (H : validateMove (validatorOf TWO_KNIGHTS) "Nfd2"
              = (ValidMove (mkMove (5, 5) (6, 3)) false None,
                 snd (validateMove (validatorOf TWO_KNIGHTS) "Nfd2")))
    by (vm_compute; reflexivity).
  split; [rewrite H; reflexivity|].
  destruct (validateMove_respects_hints _ _ _ _ _ _
              (mkParsed "n" (Some "f"%char) None false "d" "2" None) H eq_refl)
    as [Hf _].
  exact (Hf "f"%char eq_refl).
Defined.

(** X8. A capture mark on an empty destination is accepted only for a pawn
    whose destination is the en-passant square of the validator. *)
Theorem validateMove_capture_mark_on_empty (v v' : Validator) (san : string)
    (m : Move) (cap : bool) (promo : option ascii) (parsed : ParsedMove) :
  validateMove v san = (ValidMove m cap promo, v') ->
  parseSan san = Some (PMove parsed) ->
  isCapture parsed = true ->
  cell (board v) (fst (to m)) (snd (to m)) = None ->
  piece parsed = "p"%char
  /\ enPassant v = (char_str (toFile parsed) ++ char_str (toRank parsed))%string.
Proof.
  intros H Hparse Hmark Hempty.
  destruct (validateMove_accepts_steps _ _ _ _ _ _ H)
    as (parsed' & Hparse' & _ & Hfind & _ & _ & Hrule).
  rewrite Hparse in Hparse'; injection Hparse' as <-.
  apply findPieceMove_candidate, candidateMoves_facts in Hfind as (Hto & _).
  rewrite Hto in Hempty; cbn [fst snd] in Hempty, Hrule.
  rewrite Hmark, Hempty in Hrule; cbn [is_empty andb] in Hrule.
  apply orb_false_iff in Hrule as [Hp He].
  apply negb_false_iff in Hp, He.
  split; [apply Ascii.eqb_eq, Hp|apply String.eqb_eq, He].
Qed.

Lemma validateMove_capture_mark_on_empty_witness :
  let v := validatorOf "4k3/8/8/3pP3/8/8/8/4K3 white - d6 0 1" in
  fst (validateMove v "exd6") = ValidMove (mkMove (3, 4) (2, 3)) false None
  /\ enPassant v = "d6".
Proof.
  assert (H : validateMove
                (validatorOf "4k3/8/8/3pP3/8/8/8/4K3 white - d6 0 1") "exd6"
              = (ValidMove (mkMove (3, 4) (2, 3)) false None,
                 snd (validateMove
                        (validatorOf "4k3/8/8/3pP3/8/8/8/4K3 white - d6 0 1") "exd6")))
    by (vm_compute; reflexivity).
  split; [rewrite H; reflexivity|].
  destruct (validateMove_capture_mark_on_empty _ _ _ _ _ _
              (mkParsed "p" (Some "e"%char) None true "d" "6" None) H eq_refl eq_refl)
    as [_ He]; [vm_compute; reflexivity|exact He].
Defined.

(** The en-passant capture above leaves the captured pawn on the board:
    [makeMoveOnBoard] moves one piece and removes none. *)
Example enPassant_capture_keeps_the_pawn :
  fen (snd (validateMove (validatorOf "4k3/8/8/3pP3/8/8/8/4K3 white - d6 0 1") "exd6"))
  = "4k3/8/3P4/3p4/8/8/8/4K3 black - - 0 1".
Proof. vm_compute; reflexivity. Qed.

(** ** Which piece an ambiguous notation moves *)






(** ** The path between two squares *)

Lemma isPathClear_loop_spec (b : Board) (dr dc tr tc : Z) :
  dr <> 0 \/ dc <> 0 ->
  forall (fuel : nat) (j r c : Z),
    0 <= j -> (Z.to_nat j < fuel)%nat ->
    tr = r + j * dr -> tc = c + j * dc ->
    isPathClear_loop fuel b r c dr dc tr tc = true
    <-> (forall i, 0 <= i < j -> cell b (r + i * dr) (c + i * dc) = None).
Proof.
  intros Hdir; induction fuel as [|fuel IH]; intros j r c Hj Hfuel Hr Hc;
    [lia|].
  cbn [isPathClear_loop].
  destruct ((r =? tr) && (c =? tc)) eqn:E.
  - apply andb_true_iff in E as [E1 E2].
    assert (j = 0) by nia.
    split; [intros _ i Hi; lia|reflexivity].
  - assert (j <> 0).
    { intros ->. rewrite Z.mul_0_l, Z.add_0_r in Hr, Hc; subst.
      rewrite !Z.eqb_refl in E; discriminate. }
    destruct (cell b r c) eqn:Hcell.
    + split; [discriminate|].
      intros H'; specialize (H' 0 ltac:(lia)).
      rewrite Z.mul_0_l, !Z.add_0_r in H'; congruence.
    + rewrite (IH (j - 1)) by lia.
      split; intros H' i Hi.
      * destruct (Z.eq_dec i 0) as [-> | Hne].
        -- rewrite !Z.mul_0_l, !Z.add_0_r; exact Hcell.
        -- specialize (H' (i - 1) ltac:(lia)).
           replace (r + dr + (i - 1) * dr) with (r + i * dr) in H' by lia.
           replace (c + dc + (i - 1) * dc) with (c + i * dc) in H' by lia.
           exact H'.
      * specialize (H' (i + 1) ltac:(lia)).
        replace (r + (i + 1) * dr) with (r + dr + i * dr) in H' by lia.
        replace (c + (i + 1) * dc) with (c + dc + i * dc) in H' by lia.
        exact H'.
Qed.

(** X10. For two squares of the board on one rank, file or diagonal,
    [isPathClear] answers true exactly when every square strictly between
    them is empty; the squares themselves are not looked at. *)
Theorem isPathClear_between (b : Board) (fr ff tr tf : Z) :
  0 <= fr < 8 -> 0 <= ff < 8 -> 0 <= tr < 8 -> 0 <= tf < 8 ->
  Z.abs (tr - fr) = Z.abs (tf - ff) \/ tr = fr \/ tf = ff ->
  isPathClear b (fr, ff) (tr, tf) = true
  <-> (forall k, 0 < k < Z.max (Z.abs (tr - fr)) (Z.abs (tf - ff)) ->
         cell b (fr + k * Z.sgn (tr - fr)) (ff + k * Z.sgn (tf - ff)) = None).
Proof.
  intros Hfr Hff Htr Htf Haligned.
  set (n := Z.max (Z.abs (tr - fr)) (Z.abs (tf - ff))).
  destruct (Z.eq_dec n 0) as [Hn | Hn].
  - assert (tr = fr /\ tf = ff) as [-> ->] by lia.
    split; [intros _ k Hk; lia|intros _].
    unfold isPathClear; rewrite !Z.sub_diag; cbn [Z.sgn].
    rewrite !Z.add_0_r; cbn [isPathClear_loop]; rewrite !Z.eqb_refl.
    reflexivity.
  - unfold isPathClear.
    rewrite (isPathClear_loop_spec b _ _ tr tf) with (j := n - 1);
      subst n; try lia;
      try (destruct (Z.sgn_spec (tr - fr)) as [[? ->] | [[? ->] | [? ->]]];
           destruct (Z.sgn_spec (tf - ff)) as [[? ->] | [[? ->] | [? ->]]];
           lia).
    split; intros H k Hk.
    + specialize (H (k - 1) ltac:(lia)).
      replace (fr + Z.sgn (tr - fr) + (k - 1) * Z.sgn (tr - fr))
        with (fr + k * Z.sgn (tr - fr)) in H by lia.
      replace (ff + Z.sgn (tf - ff) + (k - 1) * Z.sgn (tf - ff))
        with (ff + k * Z.sgn (tf - ff)) in H by lia.
      exact H.
    + specialize (H (k + 1) ltac:(lia)).
      replace (fr + (k + 1) * Z.sgn (tr - fr))
        with (fr + Z.sgn (tr - fr) + k * Z.sgn (tr - fr)) in H by lia.
      replace (ff + (k + 1) * Z.sgn (tf - ff))
        with (ff + Z.sgn (tf - ff) + k * Z.sgn (tf - ff)) in H by lia.
      exact H.
Qed.

Lemma isPathClear_between_witness :
  isPathClear (board (validatorOf CASTLE_FREE)) (7, 0) (7, 4) = true.
Proof.
  apply (isPathClear_between (board (validatorOf CASTLE_FREE)) 7 0 7 4);
    try lia.
  intros k Hk.
  assert (k = 1 \/ k = 2 \/ k = 3) as [-> | [-> | ->]] by (cbn in Hk; lia);
    reflexivity.
Defined.

(** ** Notation written by [toSan] and read by [parseSan] *)

Lemma legalPiece_cases (p : Piece) :
  legalPiece p ->
  ptype p = "p"%char \/ ptype p = "n"%char \/ ptype p = "b"%char
  \/ ptype p = "r"%char \/ ptype p = "q"%char \/ ptype p = "k"%char.
Proof.
  unfold legalPiece; cbn [includes].
  repeat match goal with
         | |- context [Ascii.eqb ?a ?b] =>
             destruct (Ascii.eqb_spec a b) as [-> | _]; [tauto|]
         end.
  cbn. discriminate.
Qed.

Lemma index_cases (i : Z) :
  0 <= i < 8 ->
  i = 0 \/ i = 1 \/ i = 2 \/ i = 3 \/ i = 4 \/ i = 5 \/ i = 6 \/ i = 7.
Proof. lia. Qed.

Ltac each_index H :=
  apply index_cases in H;
  destruct H as [-> | [-> | [-> | [-> | [-> | [-> | [-> | ->]]]]]]].

Ltac each_piece H :=
  apply legalPiece_cases in H; cbn [ptype] in H;
  destruct H as [-> | [-> | [-> | [-> | [-> | ->]]]]].

Lemma parseSan_toSan_parts (v : Validator) (m : Move) (p : Piece) :
  cell (board v) (fst (from m)) (snd (from m)) = Some p ->
  legalPiece p ->
  0 <= snd (from m) < 8 -> 0 <= fst (to m) < 8 -> 0 <= snd (to m) < 8 ->
  Ascii.eqb (ptype p) "k" && (Z.abs (snd (to m) - snd (from m)) =? 2) = false ->
  Ascii.eqb (ptype p) "p" && (snd (from m) =? 1) && negb (snd (to m) =? 1) = false ->
  exists parsed,
    parseSan (toSan v m) = Some (PMove parsed)
    /\ piece parsed = ptype p
    /\ at_index FILES (snd (to m)) = Some (char_str (toFile parsed))
    /\ at_index RANKS (fst (to m)) = Some (char_str (toRank parsed))
    /\ isCapture parsed
       = negb (is_empty (cell (board v) (fst (to m)) (snd (to m))))
    /\ fromRank parsed = None
    /\ (forall ch, fromFile parsed = Some ch ->
          at_index FILES (snd (from m)) = Some (char_str ch))
    /\ promotion parsed
       = if Ascii.eqb (ptype p) "p" && ((fst (to m) =? 0) || (fst (to m) =? 7))
         then Some "q"%char else None.
Proof.
  destruct m as [[fr ff] [tr tf]]; cbn [from to fst snd].
  intros Hcell Hp Hff Htr Htf Hk Hb.
  unfold toSan; cbn [from to]; rewrite Hcell, Hk.
  set (dest := cell (board v) tr tf); clearbody dest.
  destruct p as [t c]; cbn [ptype] in *.
  destruct (tf =? ff) eqn:Hsame.
  - clear Hff Hb Hk Hcell. cbn [negb]. rewrite !andb_false_r.
    each_piece Hp; each_index Htf; each_index Htr; destruct dest;
      (eexists; split; [vm_compute; reflexivity|]);
      cbv; repeat split; intros; discriminate.
  - each_piece Hp.
    2-6: clear Hff Hb Hk Hcell Hsame;
         each_index Htf; each_index Htr; destruct dest;
         (eexists; split; [vm_compute; reflexivity|]);
         cbv; repeat split; intros; discriminate.
    clear Hk Hcell.
    each_index Hff; each_index Htf; try discriminate Hsame; try discriminate Hb;
      clear Hsame Hb;
      each_index Htr; destruct dest;
      (eexists; split; [vm_compute; reflexivity|]);
      cbv; repeat split; try (intros; discriminate);
      intros ch [= <-]; reflexivity.
Qed.



Lemma parseSan_toSan_b_pawn (v : Validator) (m : Move) (p : Piece) :
  cell (board v) (fst (from m)) (snd (from m)) = Some p ->
  ptype p = "p"%char ->
  snd (from m) = 1 -> snd (to m) <> 1 ->
  0 <= fst (to m) < 8 -> 0 <= snd (to m) < 8 ->
  exists parsed,
    parseSan (toSan v m) = Some (PMove parsed) /\ piece parsed = "b"%char.
Proof.
  destruct m as [[fr ff] [tr tf]]; cbn [from to fst snd].
  intros Hcell Hp -> Hne Htr Htf.
  unfold toSan; cbn [from to]; rewrite Hcell, Hp.
  set (dest := cell (board v) tr tf); clearbody dest.
  each_index Htf; try (exfalso; apply Hne; reflexivity);
    each_index Htr; destruct dest;
    (eexists; split; [vm_compute; reflexivity|reflexivity]).
Qed.

(** X12. The notation [toSan] writes for a pawn that leaves the b-file
    starts with the letter b, which [parseSan] reads as a bishop: when
    [validateMove] accepts that notation, the piece it moves is a bishop,
    never the pawn. *)
Theorem toSan_b_pawn_read_as_bishop (v v' : Validator) (m m' : Move) (p : Piece)
    (cap : bool) (promo : option ascii) :
  cell (board v) (fst (from m)) (snd (from m)) = Some p ->
  ptype p = "p"%char ->
  snd (from m) = 1 -> snd (to m) <> 1 ->
  0 <= fst (to m) < 8 -> 0 <= snd (to m) < 8 ->
  validateMove v (toSan v m) = (ValidMove m' cap promo, v') ->
  exists q,
    cell (board v) (fst (from m')) (snd (from m')) = Some q
    /\ ptype q = "b"%char
    /\ from m' <> from m.
Proof.
  intros Hcell Hp Hff Htf Hr Hf H.
  destruct (parseSan_toSan_b_pawn v m p Hcell Hp Hff Htf Hr Hf)
    as (parsed & Hparse & Hpiece).
  destruct (validateMove_accepts_steps _ _ _ _ _ _ H)
    as (parsed' & Hparse' & _ & Hfind & _).
  rewrite Hparse in Hparse'; injection Hparse' as <-.
  apply findPieceMove_candidate, candidateMoves_facts in Hfind
    as (_ & _ & (q & Hq & Hqt & _) & _).
  exists q; repeat split; [exact Hq|congruence|].
  intros E; rewrite E, Hcell in Hq; injection Hq as <-.
  rewrite Hp, Hpiece in Hqt; discriminate.
Qed.

Lemma toSan_b_pawn_read_as_bishop_witness :
  let v := validatorOf B_PAWN_CAPTURE in
  toSan v (mkMove (6, 1) (5, 2)) = "bxc3"
  /\ exists q, cell (board v) 7 4 = Some q /\ ptype q = "b"%char
               /\ (7, 4) <> (6, 1).
Proof.
  split; [vm_compute; reflexivity|].
  assert (H : validateMove (validatorOf B_PAWN_CAPTURE)
                (toSan (validatorOf B_PAWN_CAPTURE) (mkMove (6, 1) (5, 2)))
              = (ValidMove (mkMove (7, 4) (5, 2)) true None,
                 snd (validateMove (validatorOf B_PAWN_CAPTURE) "bxc3")))
    by (vm_compute; reflexivity).
  apply (toSan_b_pawn_read_as_bishop (validatorOf B_PAWN_CAPTURE)
           (snd (validateMove (validatorOf B_PAWN_CAPTURE) "bxc3"))
           (mkMove (6, 1) (5, 2)) (mkMove (7, 4) (5, 2)) (mkPiece "p" White)
           true None);
    [reflexivity|reflexivity|reflexivity|discriminate|cbn; lia|cbn; lia
    |exact H].
Defined.

(** ** The moves [getLegalMoves] lists and [validateMove] *)

Lemma In_allSquares_iff (sq : Square) :
  In sq allSquares <-> 0 <= fst sq < 8 /\ 0 <= snd sq < 8.
Proof.
  split; [apply In_allSquares|].
  destruct sq as [r f]; cbn [fst snd]; intros [Hr Hf].
  unfold allSquares; apply in_flat_map; exists r; split.
  - each_index Hr; cbn; tauto.
  - apply in_map. each_index Hf; cbn; tauto.
Qed.

(** What the four loops have established for each move they keep. *)
Lemma safeMoves_facts (v : Validator) (m : Move) :
  In m (safeMoves v) ->
  In (from m) allSquares /\ In (to m) allSquares
  /\ exists p,
       cell (board v) (fst (from m)) (snd (from m)) = Some p
       /\ hasColor p (turn v) = true
       /\ isPseudoLegalMove (board v) (enPassant v) p (from m) (to m) = true
       /\ isKingInCheck (enPassant v) (turn v) (makeMoveOnBoard (board v) m)
          = false.
Proof.
  unfold safeMoves; rewrite in_flat_map; intros (sq & Hsq & Hin).
  destruct (cell (board v) (fst sq) (snd sq)) as [p|] eqn:Hcell; [|contradiction].
  destruct (hasColor p (turn v)) eqn:Hc; [|contradiction]. cbn [negb] in Hin.
  apply in_flat_map in Hin as (target & Htarget & Hin).
  destruct (isPseudoLegalMove (board v) (enPassant v) p sq target) eqn:Hpl;
    [|contradiction].
  destruct (isKingInCheck (enPassant v) (turn v)
              (makeMoveOnBoard (board v) (mkMove sq target))) eqn:Hsafe;
    [contradiction|].
  destruct Hin as [<- | []]; cbn [from to].
  repeat split; auto. exists p; auto.
Qed.

Lemma indexOf_FILES (i : Z) (s : string) :
  at_index FILES i = Some s -> indexOf FILES s = i.
Proof.
  unfold at_index; destruct (i <? 0) eqn:E; [discriminate|].
  intros H. assert (Hlt : (Z.to_nat i < 8)%nat).
  { change 8%nat with (List.length FILES). apply nth_error_Some; congruence. }
  assert (Hi : 0 <= i < 8) by lia.
  each_index Hi; injection H as <-; reflexivity.
Qed.

Lemma indexOf_RANKS (i : Z) (s : string) :
  at_index RANKS i = Some s -> indexOf RANKS s = i.
Proof.
  unfold at_index; destruct (i <? 0) eqn:E; [discriminate|].
  intros H. assert (Hlt : (Z.to_nat i < 8)%nat).
  { change 8%nat with (List.length RANKS). apply nth_error_Some; congruence. }
  assert (Hi : 0 <= i < 8) by lia.
  each_index Hi; injection H as <-; reflexivity.
Qed.

(** Without a rank of departure, [findPieceMove] answers as soon as one
    square qualifies. *)
Lemma findPieceMove_some (v : Validator) (t : ascii) (hf : option ascii)
    (target : Square) (m : Move) :
  In m (candidateMoves v t hf None target) ->
  exists m', findPieceMove v t hf None target = Some m'.
Proof.
  unfold findPieceMove.
  destruct (candidateMoves v t hf None target) as [|c [|c2 rest]];
    [contradiction| |]; intros _; destruct hf; eexists; reflexivity.
Qed.

Lemma candidateMoves_king_safe (v : Validator) (t : ascii) (hf hr : option ascii)
    (target : Square) (m : Move) :
  In m (candidateMoves v t hf hr target) ->
  isKingInCheck (enPassant v) (turn v) (makeMoveOnBoard (board v) m) = false.
Proof.
  unfold candidateMoves; rewrite in_flat_map. intros (sq & Hsq & Hin).
  destruct (cell (board v) (fst sq) (snd sq)) as [p|]; [|contradiction].
  destruct (negb (Ascii.eqb (ptype p) t && hasColor p (turn v)));
    [contradiction|].
  destruct (match hf with
            | Some _ => negb (option_eqb_char hf (at_index FILES (snd sq)))
            | None => false
            end); [contradiction|].
  destruct (match hr with
            | Some _ => negb (option_eqb_char hr (at_index RANKS (fst sq)))
            | None => false
            end); [contradiction|].
  destruct (isPseudoLegalMove (board v) (enPassant v) p sq target);
    [|contradiction].
  destruct (isKingInCheck (enPassant v) (turn v)
              (makeMoveOnBoard (board v) (mkMove sq target))) eqn:Hsafe;
    [contradiction|].
  destruct Hin as [<- | []]; exact Hsafe.
Qed.

(** X13. [validateMove] accepts the notation of every move [getLegalMoves]
    lists whose destination does not hold a piece of the side to move,
    pawns that leave the b-file aside; the move it makes ends on the same
    square. *)
Theorem getLegalMoves_accepted (v : Validator) (m : Move) (p : Piece) :
  In m (safeMoves v) ->
  cell (board v) (fst (from m)) (snd (from m)) = Some p ->
  legalPiece p ->
  match cell (board v) (fst (to m)) (snd (to m)) with
  | Some t => hasColor t (turn v)
  | None => false
  end = false ->
  Ascii.eqb (ptype p) "p" && (snd (from m) =? 1) && negb (snd (to m) =? 1) = false ->
  exists m' cap promo,
    fst (validateMove v (toSan v m)) = ValidMove m' cap promo /\ to m' = to m.
Proof.
  intros Hin Hcell Hp Hown Hb.
  destruct (safeMoves_facts v m Hin)
    as (Hfrom & Hto & p' & Hcell' & Hcolor & Hlegal & Hsafe).
  rewrite Hcell in Hcell'; injection Hcell' as <-.
  apply In_allSquares_iff in Hfrom as [Hfr Hff], Hto as [Htr Htf].
  assert (Hk : Ascii.eqb (ptype p) "k" && (Z.abs (snd (to m) - snd (from m)) =? 2)
               = false).
  { destruct (Ascii.eqb_spec (ptype p) "k") as [E | _]; [|reflexivity].
    cbn [andb]. apply Z.eqb_neq. intros Habs.
    destruct m as [[fr ff] [tr tf]]; cbn [from to fst snd] in *.
    unfold isPseudoLegalMove in Hlegal; rewrite E in Hlegal. cbn in Hlegal.
    apply andb_true_iff in Hlegal as [_ Hlegal]. lia. }
  destruct (parseSan_toSan_parts v m p Hcell Hp Hff Htr Htf Hk Hb)
    as (parsed & Hparse & Hpiece & Hfile & Hrank & Hcap & Hnorank & Hhint & _).
  unfold validateMove; rewrite Hparse.
  rewrite (indexOf_FILES _ _ Hfile), (indexOf_RANKS _ _ Hrank).
  replace ((snd (to m) =? -1) || (fst (to m) =? -1)) with false
    by (symmetry; apply orb_false_iff; split; apply Z.eqb_neq; lia).
  rewrite Hown, Hcap.
  replace (negb (is_empty (cell (board v) (fst (to m)) (snd (to m))))
           && is_empty (cell (board v) (fst (to m)) (snd (to m)))) with false
    by (destruct (cell (board v) (fst (to m)) (snd (to m))); reflexivity).
  cbn [andb]. rewrite Hnorank, Hpiece.
  assert (Hcand : In m (candidateMoves v (ptype p) (fromFile parsed) None
                          (fst (to m), snd (to m)))).
  { unfold candidateMoves; apply in_flat_map; exists (from m); split.
    - apply In_allSquares_iff; split; assumption.
    - rewrite Hcell, Ascii.eqb_refl, Hcolor. cbn [andb negb].
      replace (match fromFile parsed with
               | Some _ => negb (option_eqb_char (fromFile parsed)
                                   (at_index FILES (snd (from m))))
               | None => false
               end) with false.
      + rewrite <- surjective_pairing, Hlegal.
        replace (mkMove (from m) (to m)) with m by (destruct m; reflexivity).
        rewrite Hsafe. left; destruct m; reflexivity.
      + destruct (fromFile parsed) as [ch|] eqn:E; [|reflexivity].
        rewrite (Hhint ch eq_refl). cbn [option_eqb_char].
        rewrite String.eqb_refl; reflexivity. }
  destruct (findPieceMove_some _ _ _ _ _ Hcand) as [m' Hfind].
  rewrite Hfind.
  apply findPieceMove_candidate in Hfind.
  rewrite (candidateMoves_king_safe _ _ _ _ _ _ Hfind).
  apply candidateMoves_squares in Hfind as [_ Hto'].
  do 3 eexists; split; [reflexivity|].
  rewrite Hto'; destruct m as [? [? ?]]; reflexivity.
Qed.

Lemma getLegalMoves_accepted_witness :
  let v := validatorOf START_WHITE in
  toSan v (mkMove (7, 6) (5, 5)) = "Nf3"
  /\ exists m' cap promo,
       fst (validateMove v "Nf3") = ValidMove m' cap promo /\ to m' = (5, 5).
Proof.
  split; [vm_compute; reflexivity|].
  apply (getLegalMoves_accepted (validatorOf START_WHITE) (mkMove (7, 6) (5, 5))
           (mkPiece "n" White));
    try (vm_compute; reflexivity).
  vm_compute; repeat (first [left; reflexivity | right]).
Defined.

(** ** Insufficient material *)

Lemma tally_count (b : Board) (c : Color) (l : list Square) (m : Material) :
  count (fold_left (fun m sq =>
    match cell b (fst sq) (snd sq) with
    | None => m
    | Some p =>
        if Ascii.eqb (ptype p) "k" then m
        else if negb (color_eqb (pcolor p) c) then m
        else if Ascii.eqb (ptype p) "b" then
          if (fst sq + snd sq) mod 2 =? 1
          then mkMaterial (count m + 1) (bishopsOnDark m + 1) (bishopsOnLight m)
          else mkMaterial (count m + 1) (bishopsOnDark m) (bishopsOnLight m + 1)
        else mkMaterial (count m + 1) (bishopsOnDark m) (bishopsOnLight m)
    end) l m)
  = count m
    + Z.of_nat (List.length (filter (fun sq =>
        match cell b (fst sq) (snd sq) with
        | Some p => negb (Ascii.eqb (ptype p) "k") && color_eqb (pcolor p) c
        | None => false
        end) l)).
Proof.
  revert m; induction l as [|sq l IH]; intros m; cbn [fold_left filter];
    [cbn; lia|].
  rewrite IH.
  destruct (cell b (fst sq) (snd sq)) as [p|]; [|lia].
  destruct (Ascii.eqb (ptype p) "k"); cbn [negb andb]; [lia|].
  destruct (color_eqb (pcolor p) c); cbn [negb]; [|lia].
  destruct (Ascii.eqb (ptype p) "b");
    [destruct ((fst sq + snd sq) mod 2 =? 1)|];
    cbn [count List.length]; lia.
Qed.

Lemma filter_by_color (b : Board) (l : list Square) :
  (List.length (filter (fun sq =>
      match cell b (fst sq) (snd sq) with
      | Some p => negb (Ascii.eqb (ptype p) "k") && color_eqb (pcolor p) White
      | None => false
      end) l)
   + List.length (filter (fun sq =>
      match cell b (fst sq) (snd sq) with
      | Some p => negb (Ascii.eqb (ptype p) "k") && color_eqb (pcolor p) Black
      | None => false
      end) l)
   = List.length (filter (fun sq =>
      match cell b (fst sq) (snd sq) with
      | Some p => negb (Ascii.eqb (ptype p) "k")
      | None => false
      end) l))%nat.
Proof.
  induction l as [|sq l IH]; [reflexivity|]; cbn [filter].
  destruct (cell b (fst sq) (snd sq)) as [[t []]|]; [| |exact IH];
    cbn [ptype pcolor color_eqb]; destruct (Ascii.eqb t "k");
    cbn [negb andb List.length]; lia.
Qed.

(** X14. A position with at most one piece besides the kings is a draw by
    insufficient material, whatever that piece is: a lone queen, rook or
    pawn counts like a lone knight or bishop. *)
Theorem isInsufficientMaterial_lone_piece (v : Validator) :
  (List.length (nonKingSquares (board v)) <= 1)%nat ->
  isInsufficientMaterial v = true.
Proof.
  unfold nonKingSquares; rewrite <- filter_by_color; intros H.
  unfold isInsufficientMaterial, tally; rewrite 2!tally_count.
  cbn [count].
  match type of H with
  | (?a + ?b <= 1)%nat => set (w := a) in *; set (k := b) in *
  end; clearbody w k.
  assert (Hcases : ((w = 0 /\ k = 0) \/ (w = 1 /\ k = 0) \/ (w = 0 /\ k = 1))%nat)
    by lia.
  destruct Hcases as [[-> ->] | [[-> ->] | [-> ->]]]; reflexivity.
Qed.

Lemma isInsufficientMaterial_lone_piece_witness :
  isInsufficientMaterial (validatorOf QUEEN_UP) = true.
Proof.
  apply isInsufficientMaterial_lone_piece; vm_compute; lia.
Defined.

(** With the queen on the board and White to move, the game is reported
    as drawn. *)
Example getGameState_queen_up :
  getGameState (validatorOf QUEEN_UP) [] = GameOver "draw" "insufficient_material".
Proof. vm_compute; reflexivity. Qed.

(** * Further properties of the game-state store *)

Lemma lastN_length {A : Type} (n : nat) (l : list A) :
  (List.length (Store.lastN n l) <= n)%nat.
Proof. unfold Store.lastN; rewrite length_skipn; lia. Qed.

Lemma lastN_all {A : Type} (n : nat) (l : list A) :
  (List.length l <= n)%nat -> Store.lastN n l = l.
Proof.
  intros H; unfold Store.lastN.
  replace (List.length l - n)%nat with 0%nat by lia; reflexivity.
Qed.

Lemma sliceTo_length {A : Type} (e : Z) (l : list A) :
  (List.length (Store.sliceTo e l) <= List.length l)%nat.
Proof.
  unfold Store.sliceTo; destruct (e <? 0); rewrite length_firstn; lia.
Qed.

Lemma act_history_bound (s : Store.State) (a : Store.Action) :
  (List.length (Store.stateHistory s) <= 20)%nat ->
  (List.length (Store.stateHistory (Store.act s a)) <= 20)%nat.
Proof.
  intros H; destruct a; cbn [Store.act]; try exact H.
  - unfold Store.setGameState; cbn [Store.stateHistory].
    destruct newFen; [exact H|].
    destruct (negb _); [apply lastN_length|exact H].
  - cbn; lia.
  - unfold Store.rollback.
    destruct (_ <=? steps); [cbn; lia|].
    destruct (nth_error _ _); [|exact H].
    cbn [Store.stateHistory].
    etransitivity; [apply sliceTo_length|exact H].
  - apply lastN_length.
Qed.

(** X15. Whatever actions the store goes through from its initial state,
    its history never holds more than twenty entries. *)
Theorem stateHistory_at_most_twenty (actions : list Store.Action) :
  (List.length (Store.stateHistory (fold_left Store.act actions Store.initial))
   <= 20)%nat.
Proof.
  assert (H : (List.length (Store.stateHistory Store.initial) <= 20)%nat)
    by (cbn; lia).
  revert H; generalize Store.initial.
  induction actions as [|a actions IH]; intros s H; [exact H|].
  cbn [fold_left]; apply IH, act_history_bound, H.
Qed.

(** X16. Rolling back by [steps] entries, with more than [steps] entries in
    the history, drops the last [steps] entries and restores the position,
    the turn and the move number of the entry that is then last; the status
    and the result of the game are left alone. *)
Theorem rollback_restores_last_kept (s : Store.State) (steps : Z) :
  0 < steps < Z.of_nat (List.length (Store.stateHistory s)) ->
  let s' := Store.rollback s steps in
  exists kept e,
    Store.stateHistory s' = kept ++ [e]
    /\ Store.stateHistory s' = firstn (List.length (Store.stateHistory s)
                                       - Z.to_nat steps) (Store.stateHistory s)
    /\ Store.fen s' = Store.entryFen e
    /\ Store.lastValidFen s' = Store.entryFen e
    /\ Store.turn s' = Store.entryTurn e
    /\ Store.moveNumber s' = Store.entryMoveNumber e
    /\ Store.status s' = Store.status s
    /\ Store.gameResult s' = Store.gameResult s.
Proof.
  intros Hsteps; cbv zeta; unfold Store.rollback.
  set (h := Store.stateHistory s) in *.
  destruct (Z.of_nat (List.length h) <=? steps) eqn:E; [lia|].
  set (n := (List.length h - Z.to_nat steps)%nat).
  assert (Hidx : Z.to_nat (Z.of_nat (List.length h) - 1 - steps) = (n - 1)%nat)
    by lia.
  rewrite Hidx.
  destruct (nth_error h (n - 1)) as [e|] eqn:Hnth;
    [|apply nth_error_None in Hnth; lia].
  cbn [Store.stateHistory Store.fen Store.lastValidFen Store.turn
       Store.moveNumber Store.status Store.gameResult].
  assert (Hslice : Store.sliceTo (- steps) h = firstn n h).
  { unfold Store.sliceTo. destruct (- steps <? 0) eqn:E'; [|lia].
    f_equal; lia. }
  exists (firstn (n - 1) h), e.
  rewrite Hslice; repeat split; try reflexivity.
  replace n with (S (n - 1)) at 1 by lia.
  clear - Hnth. revert Hnth. generalize (n - 1)%nat as i.
  induction h as [|x h IH]; intros [|i] Hnth; try discriminate.
  - injection Hnth as ->; reflexivity.
  - cbn [firstn app]. f_equal. apply IH, Hnth.
Qed.

Lemma rollback_restores_last_kept_witness :
  let s := fold_left Store.act
             [Store.DirectorSetFen "first"; Store.DirectorSetFen "second"]
             Store.initial in
  Store.fen (Store.rollback s 1) = "first"
  /\ Store.stateHistory (Store.rollback s 1) = [Store.mkEntry "first" "white" 1].
Proof.
  destruct (rollback_restores_last_kept
              (fold_left Store.act
                 [Store.DirectorSetFen "first"; Store.DirectorSetFen "second"]
                 Store.initial) 1)
    as (kept & e & _ & Hh & Hfen & _); [cbn; lia|].
  split; [reflexivity|exact Hh].
Defined.

(** X17. Undoing the only recorded position resets the whole store: a move
    recorded into an empty history and rolled back by one step leaves the
    initial store, with the status back to idle and the result cleared,
    whatever they were. *)
Theorem rollback_only_entry_resets (s : Store.State) (newFen newTurn : string) :
  Store.stateHistory s = [] ->
  Store.rollback (Store.setGameState s newFen newTurn) 1 = Store.initial.
Proof.
  intros H; unfold Store.setGameState; rewrite H.
  unfold Store.rollback; cbn [Store.stateHistory].
  destruct newFen as [|ch rest]; [reflexivity|].
  destruct (negb _); reflexivity.
Qed.

Lemma rollback_only_entry_resets_witness :
  Store.rollback
    (Store.setGameState (Store.setGameStatus Store.initial RUNNING) AFTER_E4 "black") 1
  = Store.initial.
Proof. apply rollback_only_entry_resets; reflexivity. Defined.

(** A rollback by no step at all keeps the last recorded position and
    empties the history. *)
Example rollback_zero_empties_history :
  let s := fold_left Store.act
             [Store.DirectorSetFen "first"; Store.DirectorSetFen "second"]
             Store.initial in
  Store.fen (Store.rollback s 0) = "second"
  /\ Store.stateHistory (Store.rollback s 0) = [].
Proof. split; reflexivity. Qed.


(** * Further properties of the orchestrator *)

Section OrchestratorFurther.

Variable settings : Settings.
Variable agents : Agents.

Local Abbreviation status_of a := (Store.status (store a)).
Local Abbreviation counter_of a p := (retriesOf (hallucinationRetries a) p).

Lemma catchError_requests (a : Arena) (message : string) (p : PlayerId) :
  requests (catchError settings a message p) = requests a.
Proof.
  unfold catchError; destruct (0 <? maxHallucinationRetries settings);
    reflexivity.
Qed.

Lemma logThought_requests (a : Arena) (thought : option string) (p : PlayerId) :
  requests (logThought settings a thought p) = requests a.
Proof. destruct thought as [[|c t]|]; reflexivity. Qed.

Lemma retryTurn_requests (snap a : Arena) (v : Validator) (error : string)
    (p : PlayerId) :
  (requests a <= requests (retryTurn settings agents snap a v error p)
   <= S (requests a))%nat.
Proof.
  unfold retryTurn.
  destruct (maxHallucinationRetries settings <=? counter_of snap p);
    [cbn; lia|].
  unfold request; cbn [addLog requests].
  destruct (complete agents (requests a)) as [msg | move thought trash];
    [rewrite catchError_requests; cbn; lia|].
  destruct (moveText move) as [san|]; [|rewrite catchError_requests; cbn; lia].
  destruct (validateMove v san) as [[err | m cap promo | m side] v2];
    [rewrite catchError_requests; cbn; lia| |];
    unfold commitMove; cbn [addLog withStore requests];
    rewrite logThought_requests; cbn; lia.
Qed.

Lemma agentTurn_requests (snap a : Arena) (v : Validator) (p : PlayerId) :
  (requests a <= requests (agentTurn settings agents snap a v p)
   <= 2 + requests a)%nat.
Proof.
  unfold agentTurn; cbv zeta.
  destruct (interceptPrompt_frame settings snap a p) as (_ & _ & Hq & _).
  unfold request; rewrite Hq.
  set (a1 := interceptPrompt settings snap a p) in *.
  destruct (complete agents (requests a)) as [msg | move thought trash];
    [rewrite catchError_requests; cbn; lia|].
  destruct (moveText move) as [san|];
    [|rewrite catchError_requests, logThought_requests; cbn; lia].
  destruct (validateMove v san) as [[err | m cap promo | m side] v2].
  - pose proof (retryTurn_requests snap
                  (logThought settings
                     (mkArena (store a1) (isProcessing a1)
                        (hallucinationRetries a1) (directorOverride a1)
                        (directorPrompt a1) (activePlayerRef a1)
                        (logs a1) (S (requests a)))
                     thought p) v err p) as H.
    rewrite logThought_requests in H; cbn [requests] in H. lia.
  - destruct trash as [[|c t]|]; unfold commitMove;
      cbn [addLog withStore setHallucinationRetries requests];
      rewrite logThought_requests; cbn; lia.
  - destruct trash as [[|c t]|]; unfold commitMove;
      cbn [addLog withStore setHallucinationRetries requests];
      rewrite logThought_requests; cbn; lia.
Qed.

Lemma playTurn_requests (snap a : Arena) (v : Validator) (p : PlayerId) :
  (requests a <= requests (playTurn settings agents snap a v p)
   <= 2 + requests a)%nat.
Proof.
  unfold playTurn.
  destruct (negb (adapterCreated agents)); [cbn; lia|].
  pose proof (agentTurn_requests snap a v p) as Hagent.
  destruct (directorOverride snap) as [[mv q]|]; [|exact Hagent].
  destruct (player_eqb q p); [|exact Hagent].
  destruct (validateMove v mv) as [[err | m cap promo | m side] v2];
    cbn; lia.
Qed.

(** X20. One turn asks the agent at most twice (the first request and one
    corrective request), whatever the variable [gameState] of the callback
    is bound to, undefined as the hook has it or a record of the store,
    whatever the agent answers and whatever the settings are; the count of
    requests never goes down. *)
Theorem executeTurn_at_most_two_requests (gameState : option Store.State)
    (snap a : Arena) (p : PlayerId) :
  (requests a <= requests (executeTurn settings agents gameState snap a p)
   <= 2 + requests a)%nat.
Proof.
  unfold executeTurn.
  destruct gameState as [gs|]; [|lia].
  destruct (newValidator (Store.fen gs)) as [v|]; [|lia].
  destruct (getGameState v []) as [result reason | inCheck]; [cbn; lia|].
  destruct (ContextBuilder.buildPrompt (Store.fen gs)); [|cbn; lia].
  set (a1 := addLog a TURN _ _).
  apply (playTurn_requests snap a1 v p).
Qed.

End OrchestratorFurther.

(** * What an accepted move changes on the board *)

Lemma nth_set_nth_other (n k : nat) (x : option Piece) (row : Row) :
  n <> k -> nth k (set_nth n x row) None = nth k row None.
Proof.
  revert k row; induction n as [|n IH]; intros [|k] [|h t] H; cbn;
    try reflexivity; try contradiction.
  - destruct k; reflexivity.
  - rewrite IH by congruence. destruct k; reflexivity.
  - apply IH; congruence.
Qed.

Lemma nth_upd_row_other (n k : nat) (f : Row -> Row) (b : Board) :
  n <> k -> nth k (upd_row n f b) [] = nth k b [].
Proof.
  revert k b; induction n as [|n IH]; intros [|k] [|r t] H; cbn;
    try reflexivity; try contradiction.
  apply IH; congruence.
Qed.

Lemma cell_set_cell_other (b : Board) (r c r' c' : Z) (x : option Piece) :
  (r', c') <> (r, c) -> cell (set_cell b r c x) r' c' = cell b r' c'.
Proof.
  intros Hne; unfold cell, set_cell, row_at.
  destruct (c' <? 0) eqn:Hc'; [reflexivity|].
  destruct (r <? 0) eqn:Hr; [reflexivity|].
  destruct (c <? 0) eqn:Hc; [reflexivity|]. cbn [orb].
  destruct (r' <? 0) eqn:Hr'; [reflexivity|].
  destruct (Nat.eq_dec (Z.to_nat r) (Z.to_nat r')) as [E | E].
  - rewrite <- E, nth_upd_row_same.
    destruct (nth_error b (Z.to_nat r)) as [row|] eqn:Hrow.
    + rewrite (nth_error_nth _ _ _ Hrow).
      apply nth_set_nth_other. intros E'. apply Hne. f_equal; lia.
    + apply nth_error_None in Hrow. rewrite (nth_overflow b [] Hrow).
      reflexivity.
  - rewrite nth_upd_row_other by exact E. reflexivity.
Qed.

Lemma cell_set_cell_same (b : Board) (r c : Z) (x : option Piece) :
  0 <= r -> (Z.to_nat r < List.length b)%nat -> 0 <= c ->
  cell (set_cell b r c x) r c = x.
Proof.
  intros Hr Hlen Hc; unfold cell, set_cell, row_at.
  destruct (c <? 0) eqn:E1; [lia|].
  destruct (r <? 0) eqn:E2; [lia|]. cbn [orb].
  rewrite nth_upd_row_same.
  destruct (nth_error b (Z.to_nat r)) eqn:Hrow;
    [apply set_nth_same|apply nth_error_None in Hrow; lia].
Qed.

(** X24. An accepted piece move changes two squares and no other: the
    square of departure is left empty, the destination, a different square,
    holds the very piece that stood on the square of departure, and every
    other square is as before.  The piece keeps its type also when the
    answer reports a promotion. *)
Theorem validateMove_moves_one_piece (v v' : Validator) (san : string) (m : Move)
    (cap : bool) (promo : option ascii) :
  List.length (board v) = 8%nat ->
  validateMove v san = (ValidMove m cap promo, v') ->
  exists p,
    cell (board v) (fst (from m)) (snd (from m)) = Some p
    /\ from m <> to m
    /\ cell (board v') (fst (to m)) (snd (to m)) = Some p
    /\ cell (board v') (fst (from m)) (snd (from m)) = None
    /\ (forall sq, sq <> from m -> sq <> to m ->
          cell (board v') (fst sq) (snd sq) = cell (board v) (fst sq) (snd sq)).
Proof.
  intros Hlen H.
  destruct (validateMove_accepts _ _ _ _ _ _ H) as [Hv' _].
  destruct (validateMove_accepts_steps _ _ _ _ _ _ H)
    as (parsed & _ & _ & Hfind & _ & Hown & _).
  apply findPieceMove_candidate in Hfind.
  pose proof (candidateMoves_facts _ _ _ _ _ _ Hfind)
    as (Hto & _ & (p & Hp & _ & Hcolor & _) & _).
  cbn [fst snd] in Hown.
  pose proof (validateMove_accepts_to_rank _ _ _ _ _ _ H) as Htr.
  pose proof (validateMove_accepts_squares _ _ _ _ _ _ H) as [_ Htf].
  exists p.
  assert (Hne : from m <> to m).
  { intros E.
    assert (Hp' : cell (board v) (fst (to m)) (snd (to m)) = Some p)
      by (rewrite <- E; exact Hp).
    rewrite Hto in Hp'; cbn [fst snd] in Hp'.
    rewrite Hp', Hcolor in Hown. discriminate. }
  subst v'. rewrite applyMove_board.
  destruct m as [[fr ff] [tr tf]]; cbn [from to fst snd] in *.
  unfold makeMoveOnBoard; cbn [from to].
  repeat split; try assumption.
  - rewrite cell_set_cell_other by (intros E; apply Hne; congruence).
    rewrite Hp. apply cell_set_cell_same; lia.
  - apply cell_set_cell_None.
  - intros [r c] H1 H2; cbn [fst snd].
    rewrite !cell_set_cell_other; congruence.
Qed.

Lemma validateMove_moves_one_piece_witness :
  let v := validatorOf "4k3/3P4/8/8/8/8/8/4K3 white - - 0 1" in
  fst (validateMove v "d8=Q")
  = ValidMove (mkMove (1, 3) (0, 3)) false (Some "q"%char)
  /\ cell (board (snd (validateMove v "d8=Q"))) 0 3 = Some (mkPiece "p" White).
Proof.
  assert (H : validateMove (validatorOf "4k3/3P4/8/8/8/8/8/4K3 white - - 0 1") "d8=Q"
              = (ValidMove (mkMove (1, 3) (0, 3)) false (Some "q"%char),
                 snd (validateMove
                        (validatorOf "4k3/3P4/8/8/8/8/8/4K3 white - - 0 1") "d8=Q")))
    by (vm_compute; reflexivity).
  split; [rewrite H; reflexivity|].
  destruct (validateMove_moves_one_piece
              (validatorOf "4k3/3P4/8/8/8/8/8/4K3 white - - 0 1") _ _ _ _ _
              eq_refl H)
    as (p & Hp & _ & Hto & _).
  cbn [from to fst snd] in Hp, Hto.
  rewrite Hto, <- Hp. vm_compute; reflexivity.
Defined.

(** The position after the promotion above: the pawn stands on d8. *)
Example promotion_keeps_the_pawn :
  fen (snd (validateMove (validatorOf "4k3/3P4/8/8/8/8/8/4K3 white - - 0 1") "d8=Q"))
  = "3Pk3/8/8/8/8/8/8/4K3 black - - 0 1".
Proof. vm_compute; reflexivity. Qed.

(** * Properties of the battle-log store *)

Lemma lastN_lastN_snoc {A : Type} (n : nat) (l : list A) (x : A) :
  (0 < n)%nat -> Store.lastN n (Store.lastN n l ++ [x]) = Store.lastN n (l ++ [x]).
Proof.
  intros Hn.
  destruct (Nat.le_gt_cases (List.length l) n) as [Hle | Hgt].
  - rewrite (lastN_all n l Hle); reflexivity.
  - unfold Store.lastN.
    rewrite !length_app, length_skipn; cbn [List.length].
    replace (List.length l - (List.length l - n) + 1 - n)%nat with 1%nat by lia.
    replace (List.length l + 1 - n)%nat with (1 + (List.length l - n))%nat by lia.
    rewrite !skipn_app, skipn_skipn, length_skipn.
    replace (1 - (List.length l - (List.length l - n)))%nat with 0%nat by lia.
    replace (1 + (List.length l - n) - List.length l)%nat with 0%nat by lia.
    reflexivity.
Qed.

Lemma filter_snoc {A : Type} (p : A -> bool) (l : list A) (x : A) :
  filter p (l ++ [x]) = filter p l ++ (if p x then [x] else []).
Proof. rewrite filter_app; cbn [filter]; destruct (p x); reflexivity. Qed.

(** One window after one more entry. *)
Lemma window_step (n : nat) (p : BattleLog.Entry -> bool)
    (w l : list BattleLog.Entry) (e : BattleLog.Entry) :
  (0 < n)%nat ->
  w = Store.lastN n (filter p l) ->
  (if p e then Store.lastN n (w ++ [e]) else w)
  = Store.lastN n (filter p (l ++ [e])).
Proof.
  intros Hn ->; rewrite filter_snoc; destruct (p e).
  - apply lastN_lastN_snoc, Hn.
  - rewrite app_nil_r; reflexivity.
Qed.

Lemma pushWindows_each (w t m : list BattleLog.Entry) (e : BattleLog.Entry) :
  BattleLog.pushWindows (w, t, m) e
  = (if BattleLog.hasType "thought" e then Store.lastN 6 (w ++ [e]) else w,
     if BattleLog.hasType "trash" e then Store.lastN 12 (t ++ [e]) else t,
     if BattleLog.hasType "move" e then Store.lastN 20 (m ++ [e]) else m).
Proof.
  unfold BattleLog.pushWindows, BattleLog.hasType.
  destruct (String.eqb_spec (BattleLog.type e) "thought") as [E | _];
    [rewrite E; reflexivity|].
  destruct (String.eqb_spec (BattleLog.type e) "trash") as [E | _];
    [rewrite E; reflexivity|].
  destruct (String.eqb (BattleLog.type e) "move"); reflexivity.
Qed.

Lemma addLog_windows (s : BattleLog.State) (t c : string) (p : option string) :
  let e := BattleLog.mkEntry t c p in
  let s' := BattleLog.addLog s t c p in
  BattleLog.logs s' = BattleLog.logs s ++ [e]
  /\ BattleLog.whisperStack s'
     = (if BattleLog.hasType "thought" e
        then Store.lastN 6 (BattleLog.whisperStack s ++ [e])
        else BattleLog.whisperStack s)
  /\ BattleLog.trashHistory s'
     = (if BattleLog.hasType "trash" e
        then Store.lastN 12 (BattleLog.trashHistory s ++ [e])
        else BattleLog.trashHistory s)
  /\ BattleLog.moveHistory s'
     = (if BattleLog.hasType "move" e
        then Store.lastN 20 (BattleLog.moveHistory s ++ [e])
        else BattleLog.moveHistory s).
Proof.
  cbv zeta; unfold BattleLog.addLog, BattleLog.hasType; cbn [BattleLog.type].
  destruct (String.eqb_spec t "thought") as [-> | _]; [cbn; auto|].
  destruct (String.eqb_spec t "trash") as [-> | _]; [cbn; auto|].
  destruct (String.eqb_spec t "move") as [-> | _]; [cbn; auto|].
  destruct (String.eqb t "hallucination"); cbn; auto.
Qed.

Lemma addLog_windowsAgree (s : BattleLog.State) (t c : string) (p : option string) :
  windowsAgree s -> windowsAgree (BattleLog.addLog s t c p).
Proof.
  intros (Hw & Ht & Hm).
  destruct (addLog_windows s t c p) as (Hl & Hw' & Ht' & Hm').
  unfold windowsAgree; rewrite Hl, Hw', Ht', Hm'.
  repeat split; apply window_step; (lia || assumption).
Qed.

Lemma addLogs_windowsAgree (s : BattleLog.State) (l : list BattleLog.Entry) :
  windowsAgree s -> windowsAgree (BattleLog.addLogs s l).
Proof.
  unfold BattleLog.addLogs, windowsAgree.
  generalize (BattleLog.logs s) as logs0, (BattleLog.whisperStack s) as w,
    (BattleLog.trashHistory s) as t, (BattleLog.moveHistory s) as m.
  induction l as [|e l IH]; intros logs0 w t m (Hw & Ht & Hm).
  - cbn [fold_left BattleLog.logs BattleLog.whisperStack BattleLog.trashHistory
         BattleLog.moveHistory].
    rewrite app_nil_r; auto.
  - cbn [fold_left]. rewrite pushWindows_each.
    specialize (IH (logs0 ++ [e])
                  (if BattleLog.hasType "thought" e
                   then Store.lastN 6 (w ++ [e]) else w)
                  (if BattleLog.hasType "trash" e
                   then Store.lastN 12 (t ++ [e]) else t)
                  (if BattleLog.hasType "move" e
                   then Store.lastN 20 (m ++ [e]) else m)).
    rewrite <- app_assoc in IH; cbn [app] in IH.
    apply IH. repeat split; apply window_step; (lia || assumption).
Qed.

Lemma act_windowsAgree (s : BattleLog.State) (a : BattleLog.Action) :
  windowsAgree s -> windowsAgree (BattleLog.act s a).
Proof.
  intros H; destruct a; cbn [BattleLog.act].
  - apply addLog_windowsAgree, H.
  - apply addLogs_windowsAgree, H.
  - repeat split.
  - apply addLog_windowsAgree, H.
Qed.

(** X25. Whatever entries are added, one by one or in batches, and
    whenever the log is cleared, the three windows agree with the log: the
    whisper stack holds the last six thoughts of the log, the trash history
    its last twelve taunts and the move history its last twenty moves, in
    the order of the log; so they never hold more than six, twelve and
    twenty entries. *)
Theorem windows_agree_with_logs (actions : list BattleLog.Action) :
  let s := fold_left BattleLog.act actions BattleLog.initial in
  windowsAgree s
  /\ (List.length (BattleLog.whisperStack s) <= 6)%nat
  /\ (List.length (BattleLog.trashHistory s) <= 12)%nat
  /\ (List.length (BattleLog.moveHistory s) <= 20)%nat.
Proof.
  cbv zeta.
  assert (H : windowsAgree (fold_left BattleLog.act actions BattleLog.initial)).
  { assert (H0 : windowsAgree BattleLog.initial) by (repeat split).
    revert H0; generalize BattleLog.initial.
    induction actions as [|a actions IH]; intros s H; [exact H|].
    cbn [fold_left]; apply IH, act_windowsAgree, H. }
  split; [exact H|].
  destruct H as (-> & -> & ->).
  repeat split; apply lastN_length.
Qed.

(** The four counters after one [addLog]. *)
Lemma addLog_stats (s : BattleLog.State) (t c : string) (p : option string) :
  let e := BattleLog.mkEntry t c p in
  let st := BattleLog.stats s in
  let st' := BattleLog.stats (BattleLog.addLog s t c p) in
  BattleLog.totalMoves st'
  = BattleLog.totalMoves st + (if BattleLog.hasType "move" e then 1 else 0)
  /\ BattleLog.totalExchanges st'
     = BattleLog.totalExchanges st + (if BattleLog.hasType "trash" e then 1 else 0)
  /\ BattleLog.hallucinationsPlayer1 st'
     = BattleLog.hallucinationsPlayer1 st
       + (if BattleLog.hasType "hallucination" e && BattleLog.byPlayer1 e
          then 1 else 0)
  /\ BattleLog.hallucinationsPlayer2 st'
     = BattleLog.hallucinationsPlayer2 st
       + (if BattleLog.hasType "hallucination" e && negb (BattleLog.byPlayer1 e)
          then 1 else 0).
Proof.
  cbv zeta; unfold BattleLog.addLog, BattleLog.hasType, BattleLog.byPlayer1;
    cbn [BattleLog.type BattleLog.player].
  destruct (String.eqb_spec t "thought") as [-> | _];
    [cbn; repeat split; lia|].
  destruct (String.eqb_spec t "trash") as [-> | _];
    [cbn; repeat split; lia|].
  destruct (String.eqb_spec t "move") as [-> | _];
    [cbn; repeat split; lia|].
  destruct (String.eqb t "hallucination"); [|cbn; repeat split; lia].
  destruct (match p with Some name => String.eqb name "Player 1" | None => false end);
    cbn; repeat split; lia.
Qed.

(** X26. After a sequence of [addLog] calls the statistics are exact
    counts of the entries: the moves, the taunts, and the hallucinations,
    of which those of a player named exactly 'Player 1' are counted for
    player 1 and all others, whatever the name, for player 2. *)
Theorem addLog_stats_count (entries : list BattleLog.Entry) :
  let st := BattleLog.stats (BattleLog.logged entries) in
  BattleLog.logs (BattleLog.logged entries) = entries
  /\ BattleLog.totalMoves st
     = BattleLog.countOf (BattleLog.hasType "move") entries
  /\ BattleLog.totalExchanges st
     = BattleLog.countOf (BattleLog.hasType "trash") entries
  /\ BattleLog.hallucinationsPlayer1 st
     = BattleLog.countOf
         (fun e => BattleLog.hasType "hallucination" e && BattleLog.byPlayer1 e)
         entries
  /\ BattleLog.hallucinationsPlayer2 st
     = BattleLog.countOf
         (fun e => BattleLog.hasType "hallucination" e
                   && negb (BattleLog.byPlayer1 e))
         entries.
Proof.
  cbv zeta; unfold BattleLog.logged.
  induction entries as [|e entries IH] using rev_ind; [repeat split|].
  rewrite fold_left_app; cbn [fold_left].
  destruct IH as (Hl & H1 & H2 & H3 & H4).
  destruct (addLog_stats
              (fold_left (fun s e0 => BattleLog.addLog s (BattleLog.type e0)
                                        (BattleLog.content e0) (BattleLog.player e0))
                         entries BattleLog.initial)
              (BattleLog.type e) (BattleLog.content e) (BattleLog.player e))
    as (G1 & G2 & G3 & G4).
  destruct (addLog_windows
              (fold_left (fun s e0 => BattleLog.addLog s (BattleLog.type e0)
                                        (BattleLog.content e0) (BattleLog.player e0))
                         entries BattleLog.initial)
              (BattleLog.type e) (BattleLog.content e) (BattleLog.player e))
    as (Gl & _).
  rewrite Gl, Hl, G1, G2, G3, G4, H1, H2, H3, H4.
  replace (BattleLog.mkEntry (BattleLog.type e) (BattleLog.content e)
             (BattleLog.player e)) with e by (destruct e; reflexivity).
  unfold BattleLog.countOf; rewrite !filter_snoc.
  repeat split;
    match goal with
    | |- context [if ?b then [e] else []] => destruct b
    end; rewrite ?app_nil_r, ?length_app; cbn [List.length]; lia.
Qed.

(** With the names the orchestrator passes, a hallucination of either
    player is counted for player 2. *)
Example hallucination_of_player1_counted_for_player2 :
  let s := BattleLog.addLog BattleLog.initial (logTypeName HALLUCINATION)
             "No legal move for p to e5 found"
             (Some (playerName defaultSettings player1)) in
  BattleLog.hallucinationsPlayer1 (BattleLog.stats s) = 0
  /\ BattleLog.hallucinationsPlayer2 (BattleLog.stats s) = 1.
Proof. split; reflexivity. Qed.

Lemma sliceFrom_suffix {A : Type} (start : Z) (l : list A) :
  exists older, l = older ++ BattleLog.sliceFrom start l.
Proof.
  unfold BattleLog.sliceFrom; destruct (start <? 0);
    eexists; symmetry; apply firstn_skipn.
Qed.

(** X27. [getRecentLogs(count)] returns an end piece of the log, in the
    order of the log: its last [count] entries, or all of them when there
    are fewer, for a positive [count]; the whole log for a [count] of
    zero; and the log without its first [-count] entries for a negative
    [count]. *)
Theorem getRecentLogs_end_piece (s : BattleLog.State) (count : Z) :
  let recent := BattleLog.getRecentLogs s count None in
  (exists older, BattleLog.logs s = older ++ recent)
  /\ List.length recent
     = (if 0 <? count
        then Nat.min (Z.to_nat count) (List.length (BattleLog.logs s))
        else Nat.sub (List.length (BattleLog.logs s)) (Z.to_nat (- count)))
  /\ (count = 0 -> recent = BattleLog.logs s).
Proof.
  cbv zeta; unfold BattleLog.getRecentLogs; cbn [BattleLog.getFilteredLogs].
  split; [apply sliceFrom_suffix|].
  unfold BattleLog.sliceFrom.
  split.
  - destruct (0 <? count) eqn:E; destruct (- count <? 0) eqn:E';
      try lia; rewrite length_skipn; lia.
  - intros ->; reflexivity.
Qed.

(** * What an accepted castling has passed *)

Lemma parseSan_castling_inv (san : string) (side : CastleSide) :
  parseSan san = Some (PCastling side) ->
  san = match side with Kingside => "O-O" | Queenside => "O-O-O" end.
Proof.
  unfold parseSan.
  destruct (String.eqb_spec san "O-O") as [-> | _]; [intros [= <-]; reflexivity|].
  destruct (String.eqb_spec san "O-O-O") as [-> | _]; [intros [= <-]; reflexivity|].
  destruct (matchSan san); discriminate.
Qed.

Lemma validateMove_castling_inv (v v' : Validator) (san : string) (m : Move)
    (side : CastleSide) :
  validateMove v san = (ValidCastling m side, v') ->
  exists s,
    parseSan san = Some (PCastling s)
    /\ validateCastling v s = ValidCastling m side.
Proof.
  unfold validateMove.
  destruct (parseSan san) as [[s|parsed]|]; simpl.
  - intros H; exists s; split; [reflexivity|congruence].
  - repeat match goal with
           | |- context [if ?c then _ else _] => destruct c; simpl
           | |- context [match findPieceMove ?a ?b ?c ?d ?e with _ => _ end] =>
               destruct (findPieceMove a b c d e); simpl
           end; intros H; inversion H.
  - intros H; inversion H.
Qed.

(** X30. A castling is accepted exactly when these tests pass, and no
    other test is made: the notation is O-O or O-O-O; the letter of the
    right is in the castling field (the upper-case letter and the first
    rank when the turn is 'white', the lower-case letter and the eighth
    rank otherwise); the king of the side to move is not in check; the
    squares between the e-file and the rook's file are empty; and with the
    piece of the e-file square moved one file towards the rook, that king
    is not in check.  The move returned then goes from the e-file to the
    g-file or the c-file of that rank, and the validator stays as it
    is. *)
Theorem validateMove_castling_conditions (v v' : Validator) (san : string)
    (m : Move) (side : CastleSide) :
  validateMove v san = (ValidCastling m side, v') <->
  (let white := String.eqb (turn v) "white" in
   let rank := if white then 7 else 0 in
   v' = v
   /\ san = match side with Kingside => "O-O" | Queenside => "O-O-O" end
   /\ m = mkMove (rank, 4) (rank, match side with Kingside => 6 | Queenside => 2 end)
   /\ includes (castling v)
        (match side with
         | Kingside => if white then "K" else "k"
         | Queenside => if white then "Q" else "q"
         end)%char = true
   /\ isKingInCheck (enPassant v) (turn v) (board v) = false
   /\ (forall f,
         match side with Kingside => 4 | Queenside => 0 end < f
         < match side with Kingside => 7 | Queenside => 4 end ->
         cell (board v) rank f = None)
   /\ isKingInCheck (enPassant v) (turn v)
        (makeMoveOnBoard (board v)
           (mkMove (rank, 4)
                   (rank, match side with Kingside => 5 | Queenside => 3 end)))
      = false).
Proof.
  split.
  - intros H.
    pose proof (validateMove_castling_answer _ _ _ _ _ H) as Hsame.
    destruct (validateMove_castling_inv _ _ _ _ _ H) as (s & Hparse & Hc).
    apply parseSan_castling_inv in Hparse.
    clear H. revert Hc. unfold validateCastling.
    destruct (includes (castling v)
                (if String.eqb (turn v) "white"
                 then match s with Kingside => "K"%char | Queenside => "Q"%char end
                 else match s with Kingside => "k"%char | Queenside => "q"%char end))
      eqn:Hright; cbn [negb]; [|discriminate].
    destruct (isKingInCheck (enPassant v) (turn v) (board v)) eqn:Hcheck;
      [discriminate|].
    match goal with
    | |- context [existsb ?f range8] => destruct (existsb f range8) eqn:Hpath
    end; [discriminate|].
    match goal with
    | |- context [isKingInCheck ?e ?t (makeMoveOnBoard ?b ?mv)] =>
        destruct (isKingInCheck e t (makeMoveOnBoard b mv)) eqn:Hthrough
    end; [discriminate|].
    intros [= <- <-]. cbv zeta.
    split; [exact Hsame|].
    split; [exact Hparse|].
    split; [reflexivity|].
    split; [destruct s, (String.eqb (turn v) "white"); exact Hright|].
    split; [reflexivity|].
    split; [|destruct s; exact Hthrough].
    intros f Hf.
    destruct (cell (board v) (if String.eqb (turn v) "white" then 7 else 0) f)
      as [p|] eqn:Hcell; [|reflexivity].
    exfalso.
    assert (Hin : In f range8) by (destruct s; cbn; lia).
    rewrite <- not_true_iff_false in Hpath; apply Hpath.
    apply existsb_exists; exists f; split; [exact Hin|].
    rewrite Hcell; cbn [is_empty negb]; rewrite andb_true_r.
    apply andb_true_iff; split; [apply Z.leb_le|apply Z.ltb_lt];
      destruct s; lia.
  - cbv zeta. intros (-> & -> & -> & Hright & Hcheck & Hpath & Hthrough).
    unfold validateMove.
    assert (Hparse : parseSan match side with Kingside => "O-O" | Queenside => "O-O-O" end
                     = Some (PCastling side)) by (destruct side; reflexivity).
    rewrite Hparse. f_equal.
    unfold validateCastling.
    assert (Hright' : includes (castling v)
                (if String.eqb (turn v) "white"
                 then match side with Kingside => "K"%char | Queenside => "Q"%char end
                 else match side with Kingside => "k"%char | Queenside => "q"%char end)
              = true)
      by (destruct side, (String.eqb (turn v) "white"); exact Hright).
    rewrite Hright', Hcheck; cbn [negb].
    match goal with
    | |- context [existsb ?f range8] => destruct (existsb f range8) eqn:Hblocked
    end.
    + exfalso. apply existsb_exists in Hblocked as (f & _ & Hf).
      apply andb_true_iff in Hf as [Hf Hocc].
      apply andb_true_iff in Hf as [Hlo Hhi].
      apply Z.leb_le in Hlo. apply Z.ltb_lt in Hhi.
      rewrite Hpath in Hocc by (destruct side; lia). discriminate.
    + assert (Hthrough' :
        isKingInCheck (enPassant v) (turn v)
          (makeMoveOnBoard (board v)
             (mkMove (if String.eqb (turn v) "white" then 7 else 0, 4)
                     (if String.eqb (turn v) "white" then 7 else 0,
                      4 + match side with Kingside => 1 | Queenside => -1 end)))
        = false) by (destruct side; exact Hthrough).
      rewrite Hthrough'. reflexivity.
Qed.

Lemma validateMove_castling_conditions_witness :
  let v := validatorOf CASTLE_FREE in
  validateMove v "O-O-O" = (ValidCastling (mkMove (7, 4) (7, 2)) Queenside, v)
  /\ cell (board v) 7 1 = None /\ cell (board v) 7 2 = None
  /\ cell (board v) 7 3 = None.
Proof.
  cbv zeta.
  assert (Hpath : forall f, 0 < f < 4 ->
                    cell (board (validatorOf CASTLE_FREE)) 7 f = None).
  { intros f Hf. assert (Hc : f = 1 \/ f = 2 \/ f = 3) by lia.
    destruct Hc as [-> | [-> | ->]]; vm_compute; reflexivity. }
  split; [|repeat split; apply Hpath; lia].
  apply (proj2 (validateMove_castling_conditions (validatorOf CASTLE_FREE)
                  (validatorOf CASTLE_FREE) "O-O-O" (mkMove (7, 4) (7, 2))
                  Queenside)).
  cbv zeta.
  split; [reflexivity|]. split; [reflexivity|].
  split; [vm_compute; reflexivity|]. split; [vm_compute; reflexivity|].
  split; [vm_compute; reflexivity|].
  split; [exact Hpath|vm_compute; reflexivity].
Defined.

(** Nothing asks for a king on the e-file or a rook in the corner: with
    the right still in the castling field, castling is accepted with the
    king on a1 and no rook at all. *)
Example castling_without_king_or_rook :
  fst (validateMove (validatorOf "4k3/8/8/8/8/8/8/K7 white K - 0 1") "O-O")
  = ValidCastling (mkMove (7, 4) (7, 6)) Kingside.
Proof. vm_compute; reflexivity. Qed.

(** * Properties of the context builder *)

Lemma nth_error_mapIndexed {A B : Type} (f : nat -> A -> B) (l : list A) :
  forall i k,
    nth_error (ContextBuilder.mapIndexed f i l) k
    = option_map (f (i + k)%nat) (nth_error l k).
Proof.
  induction l as [|x l IH]; intros i [|k]; cbn; try reflexivity.
  - rewrite Nat.add_0_r; reflexivity.
  - rewrite IH. replace (S i + k)%nat with (i + S k)%nat by lia. reflexivity.
Qed.

Lemma nth_error_lastN {A : Type} (n : nat) (l : list A) (k : nat) :
  nth_error (Store.lastN n l) k = nth_error l (List.length l - n + k).
Proof. unfold Store.lastN; apply nth_error_skipn. Qed.

(** X28. Each row of the move-history table shows a pair of moves of the
    log, in the order of the log, but the number written in front of it is
    the number of that pair less the count of pairs missing to ten: while
    fewer than ten pairs have been played the numbers are too small (the
    first pair of a game is numbered -8), and from ten pairs on they are
    the pairs' own numbers. *)
Theorem summaryRows_numbers (battleLogs : list BattleLog.Entry) (idx : nat)
    (moveNumber : Z) (pair : BattleLog.Entry * option BattleLog.Entry) :
  nth_error (ContextBuilder.summaryRows battleLogs) idx = Some (moveNumber, pair) ->
  let pairs :=
    ContextBuilder.pairsOf (filter (BattleLog.hasType "move") battleLogs) in
  exists k,
    nth_error pairs k = Some pair
    /\ moveNumber = Z.of_nat (k + 1) - Z.of_nat (10 - List.length pairs).
Proof.
  cbv zeta; unfold ContextBuilder.summaryRows.
  set (pairs := ContextBuilder.pairsOf _).
  rewrite nth_error_mapIndexed, nth_error_lastN; cbn [Nat.add].
  destruct (nth_error pairs (List.length pairs - 10 + idx)) as [p|] eqn:Hk;
    [|discriminate].
  cbn [option_map]; intros [= <- <-].
  exists (List.length pairs - 10 + idx)%nat; split; [exact Hk|lia].
Qed.

Lemma summaryRows_numbers_witness :
  ContextBuilder.summaryRows FIRST_PAIR
  = [(-8, (BattleLog.mkEntry "move" "e4" (Some "Arrogant Grandmaster"),
           Some (BattleLog.mkEntry "move" "e5" (Some "Chaotic Hacker"))))]
  /\ exists k,
       nth_error (ContextBuilder.pairsOf
                    (filter (BattleLog.hasType "move") FIRST_PAIR)) k
       = Some (BattleLog.mkEntry "move" "e4" (Some "Arrogant Grandmaster"),
               Some (BattleLog.mkEntry "move" "e5" (Some "Chaotic Hacker")))
       /\ -8 = Z.of_nat (k + 1)
               - Z.of_nat (10 - List.length
                                  (ContextBuilder.pairsOf
                                     (filter (BattleLog.hasType "move") FIRST_PAIR))).
Proof.
  split; [reflexivity|].
  exact (summaryRows_numbers FIRST_PAIR 0 (-8)
           (BattleLog.mkEntry "move" "e4" (Some "Arrogant Grandmaster"),
            Some (BattleLog.mkEntry "move" "e5" (Some "Chaotic Hacker")))
           eq_refl).
Defined.

(** The table as the agent reads it after the first pair of moves. *)
Example buildMoveHistorySummary_first_pair :
  ContextBuilder.buildMoveHistorySummary FIRST_PAIR
  = ("=== MOVE HISTORY (Last 20 Moves) ===" ++ ContextBuilder.newline
     ++ "Move Number | White | Black" ++ ContextBuilder.newline
     ++ "------------|-------|------" ++ ContextBuilder.newline
     ++ "    -8   |    e4 |    e5" ++ ContextBuilder.newline)%string.
Proof. vm_compute; reflexivity. Qed.

(** ** The picture of the board *)

Lemma spaces_0 : ContextBuilder.spaces 0 = EmptyString.
Proof. reflexivity. Qed.

Lemma spaces_succ (n : Z) :
  0 <= n ->
  ContextBuilder.spaces (n + 1) = (ContextBuilder.spaces n ++ " ")%string.
Proof.
  intros Hn; unfold ContextBuilder.spaces.
  replace (Z.to_nat (n + 1)) with (Z.to_nat n + 1)%nat by lia.
  generalize (Z.to_nat n) as k; clear.
  induction k as [|k IH]; [reflexivity|].
  cbn [Nat.add repeat string_of_list_ascii String.append]. rewrite IH; reflexivity.
Qed.

Lemma flush_spaces (n : Z) :
  0 <= n ->
  (if 0 <? n then ContextBuilder.spaces n else EmptyString) = ContextBuilder.spaces n.
Proof.
  intros Hn; destruct (0 <? n) eqn:E; [reflexivity|].
  assert (n = 0) by lia; subst; reflexivity.
Qed.

(** A count of one to nine is written as one digit, which is read back
    as that count. *)
Lemma show_Z_digit (e : Z) :
  0 < e <= 9 ->
  exists ch, show_Z e = String ch EmptyString
             /\ is_digit ch = true /\ digit_value ch = e.
Proof.
  intros H.
  assert (Hc : e = 1 \/ e = 2 \/ e = 3 \/ e = 4 \/ e = 5 \/ e = 6 \/ e = 7
               \/ e = 8 \/ e = 9) by lia.
  repeat destruct Hc as [-> | Hc]; try subst e;
    eexists; repeat split; reflexivity.
Qed.

(** Drawing the row that [boardToFen] has written for some squares draws
    these squares. *)
Lemma renderRow_fenRank (cells : Row) :
  forall e k,
    Forall (fun c => match c with Some p => legalPiece p | None => True end) cells ->
    0 <= e -> e + Z.of_nat (List.length cells) <= 9 -> 0 <= k ->
    ContextBuilder.renderRow (fenRank cells e) k
    = (ContextBuilder.spaces (k + e)
       ++ string_of_list_ascii (map squareChar cells))%string.
Proof.
  induction cells as [|c cells IH]; intros e k Hlegal He Hlen Hk;
    cbn [fenRank map string_of_list_ascii List.length] in *.
  - rewrite string_app_nil_r. unfold flushEmpty.
    destruct (0 <? e) eqn:E.
    + destruct (show_Z_digit e) as (ch & -> & Hd & Hv); [lia|].
      cbn [ContextBuilder.renderRow]; rewrite Hd, Hv.
      apply flush_spaces; lia.
    + assert (e = 0) by lia; subst. rewrite Z.add_0_r.
      cbn [ContextBuilder.renderRow]. apply flush_spaces; lia.
  - inversion Hlegal as [|? ? Hc Hcells]; subst.
    destruct c as [p|]; cbn [squareChar].
    + destruct (charOfPiece_legal p Hc) as (_ & Hnd & _ & _).
      unfold flushEmpty. destruct (0 <? e) eqn:E.
      * destruct (show_Z_digit e) as (ch & -> & Hd & Hv); [lia|].
        cbn [String.append ContextBuilder.renderRow]; rewrite Hd, Hv, Hnd.
        cbv zeta. rewrite flush_spaces by lia.
        rewrite (IH 0 0) by (assumption || lia).
        reflexivity.
      * assert (e = 0) by lia; subst. rewrite Z.add_0_r.
        cbn [String.append ContextBuilder.renderRow]; rewrite Hnd.
        cbv zeta. rewrite flush_spaces by lia.
        rewrite (IH 0 0) by (assumption || lia).
        reflexivity.
    + rewrite (IH (e + 1) k) by (assumption || lia).
      rewrite Z.add_assoc, spaces_succ by lia.
      rewrite string_app_assoc. reflexivity.
Qed.

Lemma show_Z_no_slash (n : Z) : includes (show_Z n) "/" = false.
Proof. apply show_Z_no_char; reflexivity. Qed.

Lemma fenRank_no_slash (cells : Row) :
  forall e,
    Forall (fun c => match c with Some p => legalPiece p | None => True end) cells ->
    includes (fenRank cells e) "/" = false.
Proof.
  induction cells as [|c cells IH]; intros e H; cbn [fenRank].
  - unfold flushEmpty; destruct (0 <? e); [apply show_Z_no_slash|reflexivity].
  - inversion H as [|? ? Hc Hcells]; subst. destruct c as [p|]; [|auto].
    rewrite includes_app. cbn [includes].
    destruct (charOfPiece_legal p Hc) as (Hsl & _ & _ & _).
    rewrite Hsl, (IH 0 Hcells). cbn [orb]. rewrite orb_false_r.
    unfold flushEmpty; destruct (0 <? e); [apply show_Z_no_slash|reflexivity].
Qed.

Lemma fenRows_join (rows : list Row) :
  fenRows rows = join_with "/" (map (fun row => fenRank row 0) rows).
Proof.
  induction rows as [|row [|row2 rows] IH]; [reflexivity|reflexivity|].
  change (fenRows (row :: row2 :: rows))
    with (fenRank row 0 ++ "/" ++ fenRows (row2 :: rows))%string.
  rewrite IH; reflexivity.
Qed.

(** The rows of the position [boardToFen] writes are the rows of the
    board. *)
Lemma split_on_fenRows (rows : list Row) :
  rows <> [] -> Forall legalRow rows ->
  split_on "/" (fenRows rows) = map (fun row => fenRank row 0) rows.
Proof.
  intros Hne H; rewrite fenRows_join.
  apply split_on_join; [destruct rows; [congruence|discriminate]|].
  apply Forall_map. apply Forall_impl with (2 := H).
  intros row [_ Hrow]; apply fenRank_no_slash, Hrow.
Qed.

(** X29. The picture [renderBoardVisual] draws from the position string
    that [boardToFen] writes for a board is the picture of that board:
    eight lines, from the eighth rank down, each with the number of the
    rank, a blank, and one character per square (the letter of the piece,
    upper case for White, or a blank for an empty square), then the line
    of file letters; the other fields of the string play no part. *)
Theorem renderBoardVisual_boardToFen (b : Board) (turn_ castling_ enPassant_ : string)
    (halfMoveClock_ fullMoveNumber_ : Z) :
  legalBoard b ->
  ContextBuilder.renderBoardVisual
    (boardToFen b turn_ castling_ enPassant_ halfMoveClock_ fullMoveNumber_)
  = Some (boardPicture b).
Proof.
  intros Hb. pose proof Hb as [Hlen Hrows].
  unfold ContextBuilder.renderBoardVisual, boardToFen.
  rewrite (fenRanks_fenRows b Hb).
  change (fenRows b ++ " " ++ ?rest)%string
    with (fenRows b ++ String " " rest)%string.
  rewrite split_on_append by (apply fenRows_no_space, Hrows).
  cbn [hd].
  rewrite split_on_fenRows by (try assumption; intros ->; discriminate Hlen).
  destruct b as [|r0 [|r1 [|r2 [|r3 [|r4 [|r5 [|r6 [|r7 [|r8 b]]]]]]]]];
    try discriminate Hlen.
  repeat match goal with
         | H : Forall _ (_ :: _) |- _ => inversion H; clear H; subst
         end.
  repeat match goal with
         | H : legalRow ?r |- _ =>
             let L := fresh "L" in
             let C := fresh "C" in
             destruct H as [L C];
             pose proof (renderRow_fenRank r 0 0 C (Z.le_refl 0)
                           ltac:(rewrite L; cbn; lia) (Z.le_refl 0))
         end.
  cbn [map fold_left range8].
  change (Z.to_nat 0) with 0%nat; change (Z.to_nat 1) with 1%nat;
  change (Z.to_nat 2) with 2%nat; change (Z.to_nat 3) with 3%nat;
  change (Z.to_nat 4) with 4%nat; change (Z.to_nat 5) with 5%nat;
  change (Z.to_nat 6) with 6%nat; change (Z.to_nat 7) with 7%nat.
  cbn [nth_error option_map].
  repeat match goal with
         | H : ContextBuilder.renderRow _ _ = _ |- _ => rewrite H; clear H
         end.
  unfold boardPicture; cbn [combine RANKS map String.concat fst snd].
  f_equal.
  change (ContextBuilder.spaces (0 + 0)) with EmptyString.
  change (show_Z (8 - 0)) with "8"; change (show_Z (8 - 1)) with "7";
  change (show_Z (8 - 2)) with "6"; change (show_Z (8 - 3)) with "5";
  change (show_Z (8 - 4)) with "4"; change (show_Z (8 - 5)) with "3";
  change (show_Z (8 - 6)) with "2"; change (show_Z (8 - 7)) with "1".
  repeat first [rewrite string_app_assoc | progress cbn [String.append]].
  reflexivity.
Qed.

Lemma renderBoardVisual_boardToFen_witness :
  ContextBuilder.renderBoardVisual (serialize (validatorOf START_WHITE))
  = Some (boardPicture (board (validatorOf START_WHITE))).
Proof.
  apply (renderBoardVisual_boardToFen (board (validatorOf START_WHITE))).
  destruct legalPosition_start as [Hb _]; exact Hb.
Defined.

(** The picture of the starting position.  The file letters of the last
    line are two columns apart, the squares of a rank one. *)
Example boardPicture_start :
  boardPicture (board (validatorOf START_WHITE))
  = String.concat ContextBuilder.newline
      ["8 rnbqkbnr"; "7 pppppppp"; "6         "; "5         "; "4         ";
       "3         "; "2 PPPPPPPP"; "1 RNBQKBNR"; "  a b c d e f g h"].
Proof. vm_compute; reflexivity. Qed.

(** * Checkmate and stalemate with a single king *)

Lemma find_none_in {A : Type} (f : A -> bool) (l : list A) :
  (forall x, In x l -> f x = false) -> find f l = None.
Proof.
  induction l as [|x l IH]; intros H; simpl; [reflexivity|].
  rewrite (H x (or_introl eq_refl)). apply IH; intros y Hy; apply H; right; exact Hy.
Qed.

(** The board after a piece has been moved onto its own square: the square
    is empty, the others are as they were. *)
Lemma makeMoveOnBoard_null (b : Board) (sq sq' : Square) :
  cell (makeMoveOnBoard b (mkMove sq sq)) (fst sq') (snd sq')
  = if square_eqb sq' sq then None else cell b (fst sq') (snd sq').
Proof.
  destruct sq as [r c], sq' as [r' c']; unfold makeMoveOnBoard, square_eqb; cbn [from to fst snd].
  destruct ((r' =? r) && (c' =? c)) eqn:E.
  - apply andb_true_iff in E as [E1 E2].
    apply Z.eqb_eq in E1, E2; subst. apply cell_set_cell_None.
  - assert (Hne : (r', c') <> (r, c)).
    { intros H; injection H as -> ->. rewrite !Z.eqb_refl in E; discriminate. }
    rewrite !cell_set_cell_other by exact Hne. reflexivity.
Qed.

Lemma kingSquares_single (b : Board) (color : string) (sq sq' : Square) :
  kingSquares b color = [sq] -> In sq' allSquares -> isKingOf b color sq' = true ->
  sq' = sq.
Proof.
  intros H Hin Hk.
  assert (Hf : In sq' (kingSquares b color)) by (apply filter_In; auto).
  rewrite H in Hf. destruct Hf as [<- | []]; reflexivity.
Qed.

Lemma square_eqb_eq (a b : Square) : square_eqb a b = true <-> a = b.
Proof.
  destruct a as [r c], b as [r' c']; unfold square_eqb; cbn [fst snd].
  rewrite andb_true_iff, !Z.eqb_eq. split; [intros [-> ->]; reflexivity|].
  intros H; injection H; auto.
Qed.

(** With a single king of the side to move on the board, the move of that
    king onto its own square is among the moves [safeMoves] lists: the
    king is gone after it, and a side without a king is not in check. *)
Lemma safeMoves_king_stays (v : Validator) (sq : Square) :
  kingSquares (board v) (turn v) = [sq] -> In (mkMove sq sq) (safeMoves v).
Proof.
  intros H.
  assert (Hin : In sq (kingSquares (board v) (turn v))) by (rewrite H; left; reflexivity).
  apply filter_In in Hin as [Hin Hk].
  unfold isKingOf in Hk.
  destruct (cell (board v) (fst sq) (snd sq)) as [p|] eqn:Hp; [|discriminate].
  apply andb_true_iff in Hk as [Hking Hcolor].
  unfold safeMoves. apply in_flat_map. exists sq; split; [exact Hin|].
  rewrite Hp, Hcolor; cbn [negb].
  apply in_flat_map. exists sq; split; [exact Hin|].
  assert (Hpseudo : isPseudoLegalMove (board v) (enPassant v) p sq sq = true).
  { apply Ascii.eqb_eq in Hking.
    unfold isPseudoLegalMove; destruct sq as [r c]; rewrite Hking.
    rewrite !Z.sub_diag. reflexivity. }
  assert (Hsafe : isKingInCheck (enPassant v) (turn v)
                    (makeMoveOnBoard (board v) (mkMove sq sq)) = false).
  { unfold isKingInCheck, findKingOnBoard.
    rewrite find_none_in; [reflexivity|].
    intros sq' Hin'. rewrite makeMoveOnBoard_null.
    destruct (square_eqb sq' sq) eqn:E; [reflexivity|].
    destruct (isKingOf (board v) (turn v) sq') eqn:Hk'.
    - apply (kingSquares_single _ _ _ _ H Hin') in Hk'. subst sq'.
      assert (square_eqb sq sq = true) by (apply square_eqb_eq; reflexivity).
      congruence.
    - exact Hk'. }
  rewrite Hpseudo, Hsafe. left; reflexivity.
Qed.

(** A side with a single king is never found checkmated nor stalemated,
    whatever the position: [isPseudoLegalMove] lets the king move onto its
    own square, and [makeMoveOnBoard] then leaves the square empty. *)
Lemma single_king_never_mated (v : Validator) (sq : Square) :
  kingSquares (board v) (turn v) = [sq] ->
  isCheckmate v = false /\ isStalemate v = false.
Proof.
  intros H. pose proof (safeMoves_king_stays v sq H) as Hin.
  unfold isCheckmate, isStalemate.
  destruct (safeMoves v) as [|m l]; [destruct Hin|].
  destruct (isKingInCheck (enPassant v) (turn v) (board v)); split; reflexivity.
Qed.

(** The position after 1. f3 e5 2. g4 Qh4 has one king of each colour. *)
Example kingSquares_fools_mate :
  kingSquares (board (validatorOf FOOLS_MATE)) "white" = [(7, 4)]
  /\ kingSquares (board (validatorOf FOOLS_MATE)) "black" = [(0, 4)].
Proof. vm_compute; split; reflexivity. Qed.

(** C5, which the code does not meet.  After 1. f3 e5 2. g4 Qh4 the white
    king is in check and White has no move that leaves its square and does
    not land on a white piece: White is checkmated, and the claim has
    [getGameState] report a win for Black.  [isCheckmate] answers no, and
    [getGameState] reports a game in progress, with check.  Black to move
    in the second position is not in check and has no such move either: it
    is stalemated; [isStalemate] answers no, and [getGameState] reports a
    game in progress.  With the side field of a standard position string,
    the letter w, the checkmate is reported as a draw by stalemate. *)
Theorem getGameState_misses_mate :
  let mated := validatorOf FOOLS_MATE in
  let stalemated := validatorOf STALEMATED in
  isKingInCheck (enPassant mated) (turn mated) (board mated) = true
  /\ filter (isProperMove mated) (safeMoves mated) = []
  /\ isCheckmate mated = false
  /\ getGameState mated [] = InProgress true
  /\ isKingInCheck (enPassant stalemated) (turn stalemated) (board stalemated) = false
  /\ filter (isProperMove stalemated) (safeMoves stalemated) = []
  /\ isStalemate stalemated = false
  /\ getGameState stalemated [] = InProgress false
  /\ getGameState (validatorOf FOOLS_MATE_STANDARD) [] = GameOver "draw" "stalemate".
Proof. vm_compute; repeat split; reflexivity. Qed.
